(** * WhatsBerry session manager and audio conversion cache

    A shallow embedding of the session lifecycle manager
    ([src/core/SessionManager.js]), the engine event handlers
    ([core/WhatsAppClient.js]), the start-session route
    ([src/routes/auth.routes.js]) and the audio conversion cache
    ([core/AudioConverter.js]), followed by the properties of the
    specification proved or refuted on that embedding.

    Conventions of the embedding.
    - Session records are JavaScript objects shared by reference between
      the registry map, the engine event handlers (closures) and suspended
      [async] functions.  They live in a heap ([heap]), and the registry
      maps session ids to heap locations.
    - An [async] function is a resumable task: a [_start] function runs the
      synchronous prefix up to the first [await]; a [_resume] function takes
      the outcome of the awaited call and runs to the next [await] or to
      the return.  Whatever else the event loop runs in between shows up as
      a different manager state at resumption.
    - Everything the code does to its collaborators (console, socket rooms,
      engine, file system) is appended to [trace].
    - [Date.now()] is an argument of each step. *)

From Stdlib Require Import ZArith Lia Ascii.
From Stdlib.Strings Require Import Byte.
From stdpp Require Import base option list gmap strings pretty.

Local Open Scope Z_scope.
Local Open Scope string_scope.
Local Open Scope list_scope.
Local Open Scope nat_scope.

(** ** Data model *)

Abbreviation SessionId := string (only parsing).
Abbreviation UserId := string (only parsing).
Abbreviation DeviceInfo := string (only parsing).
(** An engine handle: the [n]-th [new Client(...)] of the process. *)
Abbreviation Engine := nat (only parsing).
(** Address of a session record object. *)
Abbreviation Loc := nat (only parsing).

(** The object literal of [getOrCreateSession], lines 321-331. *)
Record Session := mkSession {
  client : option Engine;
  isReady : bool;
  isAuthenticated : bool;
  qrCode : option string;
  userId : UserId;
  deviceInfo : DeviceInfo;
  lastActivity : Z;
  phoneNumber : option string;
  reconnecting : bool
}.

Definition set_client (v : option Engine) (s : Session) : Session :=
  mkSession v (isReady s) (isAuthenticated s) (qrCode s) (userId s)
            (deviceInfo s) (lastActivity s) (phoneNumber s) (reconnecting s).
Definition set_isReady (v : bool) (s : Session) : Session :=
  mkSession (client s) v (isAuthenticated s) (qrCode s) (userId s)
            (deviceInfo s) (lastActivity s) (phoneNumber s) (reconnecting s).
Definition set_isAuthenticated (v : bool) (s : Session) : Session :=
  mkSession (client s) (isReady s) v (qrCode s) (userId s)
            (deviceInfo s) (lastActivity s) (phoneNumber s) (reconnecting s).
Definition set_qrCode (v : option string) (s : Session) : Session :=
  mkSession (client s) (isReady s) (isAuthenticated s) v (userId s)
            (deviceInfo s) (lastActivity s) (phoneNumber s) (reconnecting s).
Definition set_lastActivity (v : Z) (s : Session) : Session :=
  mkSession (client s) (isReady s) (isAuthenticated s) (qrCode s) (userId s)
            (deviceInfo s) v (phoneNumber s) (reconnecting s).
Definition set_phoneNumber (v : option string) (s : Session) : Session :=
  mkSession (client s) (isReady s) (isAuthenticated s) (qrCode s) (userId s)
            (deviceInfo s) (lastActivity s) v (reconnecting s).
Definition set_reconnecting (v : bool) (s : Session) : Session :=
  mkSession (client s) (isReady s) (isAuthenticated s) (qrCode s) (userId s)
            (deviceInfo s) (lastActivity s) (phoneNumber s) v.

(** [config/constants.js]. *)
Definition SESSION_TIMEOUT : Z := 24 * 60 * 60 * 1000.
Definition UNFINISHED_SESSION_TIMEOUT : Z := 15 * 60 * 1000.
Definition AUDIO_CONVERSION_TTL : Z := 2 * 60 * 60 * 1000.
Definition AUDIO_CONVERSION_TIMEOUT : Z := 60000.

(** Result of an awaited call to a collaborator. *)
Inductive Outcome :=
| Resolved
| Rejected (message : string).

(** Console lines, one constructor per message template of the source. *)
Inductive LogLine :=
| LogCleaningInactive (sid : SessionId)
| LogCleaningUnfinished (sid : SessionId) (idle_ms : Z)
| LogCleanedUnfinished (count : nat)
| LogReconnectNotFound (sid : SessionId)
| LogAlreadyReconnecting (sid : SessionId)
| LogAttemptReconnect (sid : SessionId)
| LogErrorDestroyingOldClient (sid : SessionId) (message : string)
| LogReconnected (sid : SessionId)
| LogNoInitializeClient (sid : SessionId)
| LogFailedToReconnect (sid : SessionId) (message : string)
| LogReconnectedFallback (sid : SessionId)
| LogFallbackReconnectFailed (sid : SessionId) (message : string)
| LogDeletedFolder (sid : SessionId)
| LogCouldNotDeleteFolder (sid : SessionId) (message : string)
| LogErrorDestroyingSession (sid : SessionId) (message : string)
| LogExistingSession (uid : UserId) (sid : SessionId)
| LogCreatedSession (sid : SessionId) (uid : UserId)
| LogClient (sid : SessionId) (elapsed : Z) (message : string)
| LogDisconnectedAfter (sid : SessionId) (timeSinceReady : option Z) (reason : string)
| LogDisconnectedState (sid : SessionId) (authenticated ready : bool)
| LogAntiBot (sid : SessionId) (timeSinceReady : Z)
| LogFallback (sid : SessionId) (message : string)
| LogStartSession (sid : SessionId) (message : string)
| LogDebugCleanup (sid : SessionId).

(** What the manager does to its collaborators. *)
Inductive Effect :=
| Console (line : LogLine)
| Emit (sid : SessionId) (event : string) (args : list string)
| ClientNew (c : Engine) (clientId : string) (dataPath : string)
| ClientDestroy (c : Engine)
| ClientInitialize (c : Engine)
| FsMkdir (path : string)
| FsReaddir (path : string)
| FsRm (path : string)
| CallInitializeClient (sid : SessionId)
| CallInitializeClientFallback (sid : SessionId).

(** The variables a handler registered on an engine closes over:
    [sessionId], [session], [startTime], and which of the two
    initialisers registered it. *)
Record EngineEnv := mkEngineEnv {
  env_sessionId : SessionId;
  env_session : Loc;
  env_startTime : Z;
  env_fallback : bool
}.

Record Manager := mkManager {
  heap : list Session;
  sessions : gmap SessionId Loc;
  userSessions : gmap UserId SessionId;
  io : bool;
  trace : list Effect;
  (** [uuidv4()]: the stream of values the generator produces, and how many
      of them have been drawn. *)
  uuid_stream : nat -> SessionId;
  uuid_calls : nat;
  (** every engine created so far, with the closure of its handlers *)
  engines : list EngineEnv
}.

Definition with_heap (h : list Session) (st : Manager) : Manager :=
  mkManager h (sessions st) (userSessions st) (io st) (trace st)
            (uuid_stream st) (uuid_calls st) (engines st).
Definition with_sessions (m : gmap SessionId Loc) (st : Manager) : Manager :=
  mkManager (heap st) m (userSessions st) (io st) (trace st)
            (uuid_stream st) (uuid_calls st) (engines st).
Definition with_userSessions (m : gmap UserId SessionId) (st : Manager) : Manager :=
  mkManager (heap st) (sessions st) m (io st) (trace st)
            (uuid_stream st) (uuid_calls st) (engines st).
Definition with_io (b : bool) (st : Manager) : Manager :=
  mkManager (heap st) (sessions st) (userSessions st) b (trace st)
            (uuid_stream st) (uuid_calls st) (engines st).
Definition with_trace (t : list Effect) (st : Manager) : Manager :=
  mkManager (heap st) (sessions st) (userSessions st) (io st) t
            (uuid_stream st) (uuid_calls st) (engines st).
Definition with_uuid_calls (n : nat) (st : Manager) : Manager :=
  mkManager (heap st) (sessions st) (userSessions st) (io st) (trace st)
            (uuid_stream st) n (engines st).
Definition with_engines (e : list EngineEnv) (st : Manager) : Manager :=
  mkManager (heap st) (sessions st) (userSessions st) (io st) (trace st)
            (uuid_stream st) (uuid_calls st) e.

(** [new SessionManager()] followed by [setIO(io)] when [io_set]. *)
Definition new_manager (gen : nat -> SessionId) (io_set : bool) : Manager :=
  mkManager [] ∅ ∅ io_set [] gen 0 [].

Definition setIO (st : Manager) : Manager := with_io true st.

Definition effects (es : list Effect) (st : Manager) : Manager :=
  with_trace (trace st ++ es) st.
Definition effect (e : Effect) (st : Manager) : Manager := effects [e] st.
Definition console (l : LogLine) (st : Manager) : Manager := effect (Console l) st.

(** [if (this.io) this.io.to(`session_${sid}`).emit(event, ...)] *)
Definition emit_if_io (sid : SessionId) (event : string) (args : list string)
    (st : Manager) : Manager :=
  if io st then effect (Emit sid event args) st else st.

(** [session.field = v] on the object at [l]. *)
Definition update (l : Loc) (f : Session -> Session) (st : Manager) : Manager :=
  with_heap (alter f l (heap st)) st.

(** [this.sessions.get(sessionId)], with the object it refers to. *)
Definition get_session (st : Manager) (sid : SessionId) : option (Loc * Session) :=
  match sessions st !! sid with
  | Some l => match heap st !! l with
              | Some r => Some (l, r)
              | None => None
              end
  | None => None
  end.

(** [path.join(__dirname, '../data', sessionId)] *)
Definition session_data_path (sid : SessionId) : string := "data/" +:+ sid.

(** ** SessionManager.destroySession (lines 266-294) *)

Inductive DestroyTask :=
| DestroyAwaitTeardown (sid : SessionId) (l : Loc)   (* line 271 *)
| DestroyAwaitRm (sid : SessionId) (l : Loc)         (* line 280 *)
| DestroyReturned.

(** Lines 274-280: both map entries are deleted, then [fs.rm] is awaited. *)
Definition destroy_remove (sid : SessionId) (l : Loc) (st : Manager)
    : Manager * DestroyTask :=
  match heap st !! l with
  | Some r =>
      let st1 := with_sessions (delete sid (sessions st)) st in
      let st2 := with_userSessions (delete (userId r) (userSessions st1)) st1 in
      (effect (FsRm (session_data_path sid)) st2, DestroyAwaitRm sid l)
  | None => (st, DestroyReturned)
  end.

Definition destroySession_start (sid : SessionId) (st : Manager)
    : Manager * DestroyTask :=
  match get_session st sid with
  | Some (l, r) =>
      match client r with
      | Some c => (effect (ClientDestroy c) st, DestroyAwaitTeardown sid l)
      | None => destroy_remove sid l st
      end
  | None => (st, DestroyReturned)
  end.

Definition destroySession_resume (t : DestroyTask) (o : Outcome) (st : Manager)
    : Manager * DestroyTask :=
  match t with
  | DestroyAwaitTeardown sid l =>
      match o with
      | Resolved => destroy_remove sid l st
      | Rejected e =>
          (* the outer catch, line 290 *)
          (console (LogErrorDestroyingSession sid e) st, DestroyReturned)
      end
  | DestroyAwaitRm sid l =>
      let st1 := match o with
                 | Resolved => console (LogDeletedFolder sid) st
                 | Rejected e => console (LogCouldNotDeleteFolder sid e) st
                 end in
      (emit_if_io sid "session_destroyed" [] st1, DestroyReturned)
  | DestroyReturned => (st, DestroyReturned)
  end.

(** [await destroySession(sid)] with nothing else scheduled in between:
    [teardown] and [rm] are the outcomes of [client.destroy()] and
    [fs.rm], consulted only if the call is made. *)
Definition destroySession (sid : SessionId) (teardown rm : Outcome) (st : Manager)
    : Manager :=
  let '(st1, t1) := destroySession_start sid st in
  let '(st2, t2) := match t1 with
                    | DestroyAwaitTeardown _ _ => destroySession_resume t1 teardown st1
                    | _ => (st1, t1)
                    end in
  fst (destroySession_resume t2 rm st2).

(** ** SessionManager.getOrCreateSession (lines 303-338) *)

(** [generateSessionId()] *)
Definition generateSessionId (st : Manager) : SessionId * Manager :=
  (uuid_stream st (uuid_calls st), with_uuid_calls (S (uuid_calls st)) st).

Definition new_session (uid : UserId) (dev : DeviceInfo) (now : Z) : Session :=
  mkSession None false false None uid dev now None false.

(** A string is truthy unless it is empty. *)
Definition truthy (s : string) : bool := negb (String.eqb s "").

(** Lines 304-317: the task is the [destroySession] call the function
    starts without awaiting it (line 311), if any. *)
Definition supersede (uid : UserId) (st : Manager) : Manager * option DestroyTask :=
  match userSessions st !! uid with
  | Some existing =>
      if truthy existing && bool_decide (is_Some (sessions st !! existing)) then
        let st0 := console (LogExistingSession uid existing) st in
        let '(st1, t) := destroySession_start existing st0 in
        (with_userSessions (delete uid (userSessions st1)) st1, Some t)
      else (st, None)
  | None => (st, None)
  end.

(** Lines 319-337. *)
Definition register_new (uid : UserId) (dev : DeviceInfo) (now : Z) (st : Manager)
    : SessionId * Manager :=
  let '(sid, st1) := generateSessionId st in
  let l := length (heap st1) in
  let st2 := with_heap (heap st1 ++ [new_session uid dev now]) st1 in
  let st3 := with_sessions (<[sid := l]> (sessions st2)) st2 in
  let st4 := with_userSessions (<[uid := sid]> (userSessions st3)) st3 in
  (sid, console (LogCreatedSession sid uid) st4).

(** Returns the new id, the manager, and the pending [destroySession] task. *)
Definition getOrCreateSession (uid : UserId) (dev : DeviceInfo) (now : Z)
    (st : Manager) : SessionId * Manager * option DestroyTask :=
  let '(st1, pending) := supersede uid st in
  let '(sid, st2) := register_new uid dev now st1 in
  (sid, st2, pending).

(** [isUserSessionCurrent]: the id registered for the record's user is this
    id (the test of [checkSessionHealth], line 99, and of the start route). *)
Definition isUserSessionCurrent (st : Manager) (sid : SessionId) : bool :=
  match get_session st sid with
  | Some (_, r) => bool_decide (userSessions st !! userId r = Some sid)
  | None => false
  end.

(** ** SessionManager.reconnectSession (lines 175-259) *)

(** The two callbacks are opaque functions; [init] and [fb] say whether
    they were passed.  Their calls are recorded in the trace, their effects
    on the manager are part of what happens while the task is suspended,
    and their promise settles with the outcome given at resumption. *)
Inductive ReconnectTask :=
| ReconnectAwaitTeardown (sid : SessionId) (l : Loc) (init fb : bool)  (* line 195 *)
| ReconnectAwaitInit (sid : SessionId) (l : Loc) (fb : bool)           (* line 217 *)
| ReconnectAwaitFallback (sid : SessionId) (l : Loc)                   (* line 231 *)
| ReconnectReturned.

(** Lines 201-205. *)
Definition reset_session (s : Session) : Session :=
  set_qrCode None (set_isAuthenticated false (set_isReady false (set_client None s))).

(** Lines 201-223: reset, notify, first start attempt. *)
Definition reconnect_reset (sid : SessionId) (l : Loc) (init fb : bool) (st : Manager)
    : Manager * ReconnectTask :=
  let st1 := update l reset_session st in
  let st2 := emit_if_io sid "reconnecting" [sid; "Session reconnecting..."] st1 in
  if init then
    (effect (CallInitializeClient sid) st2, ReconnectAwaitInit sid l fb)
  else
    (update l (set_reconnecting false) (console (LogNoInitializeClient sid) st2),
     ReconnectReturned).

(** Lines 225-258: the catch block. *)
Definition reconnect_failed (sid : SessionId) (l : Loc) (fb : bool) (e : string)
    (st : Manager) : Manager * ReconnectTask :=
  let st1 := console (LogFailedToReconnect sid e) st in
  if fb then
    (effect (CallInitializeClientFallback sid) st1, ReconnectAwaitFallback sid l)
  else
    (update l (set_reconnecting false)
       (emit_if_io sid "reconnection_failed" [sid; "Session reconnection failed"] st1),
     ReconnectReturned).

(** Lines 188-189, once the guards have let the call through. *)
Definition reconnect_mark (sid : SessionId) (l : Loc) (st : Manager) : Manager :=
  update l (set_reconnecting true) (console (LogAttemptReconnect sid) st).

(** Lines 191-199 onwards, on the manager in which the flag has been set. *)
Definition reconnect_attempt (sid : SessionId) (l : Loc) (old : option Engine)
    (init fb : bool) (st : Manager) : Manager * ReconnectTask :=
  match old with
  | Some c => (effect (ClientDestroy c) st, ReconnectAwaitTeardown sid l init fb)
  | None => reconnect_reset sid l init fb st
  end.

Definition reconnectSession_start (sid : SessionId) (init fb : bool) (st : Manager)
    : Manager * ReconnectTask :=
  match get_session st sid with
  | None => (console (LogReconnectNotFound sid) st, ReconnectReturned)
  | Some (l, r) =>
      if reconnecting r then
        (console (LogAlreadyReconnecting sid) st, ReconnectReturned)
      else
        reconnect_attempt sid l (client r) init fb (reconnect_mark sid l st)
  end.

Definition reconnectSession_resume (t : ReconnectTask) (o : Outcome) (st : Manager)
    : Manager * ReconnectTask :=
  match t with
  | ReconnectAwaitTeardown sid l init fb =>
      let st1 := match o with
                 | Resolved => st
                 | Rejected e => console (LogErrorDestroyingOldClient sid e) st
                 end in
      reconnect_reset sid l init fb st1
  | ReconnectAwaitInit sid l fb =>
      match o with
      | Resolved =>
          (update l (set_reconnecting false) (console (LogReconnected sid) st),
           ReconnectReturned)
      | Rejected e => reconnect_failed sid l fb e st
      end
  | ReconnectAwaitFallback sid l =>
      match o with
      | Resolved =>
          (update l (set_reconnecting false) (console (LogReconnectedFallback sid) st),
           ReconnectReturned)
      | Rejected e =>
          let st1 := console (LogFallbackReconnectFailed sid e) st in
          let st2 := emit_if_io sid "reconnection_failed"
                       [sid; "Session reconnection failed"] st1 in
          (update l (set_reconnecting false) st2, ReconnectReturned)
      end
  | ReconnectReturned => (st, ReconnectReturned)
  end.

Definition reconnect_loc (t : ReconnectTask) : option Loc :=
  match t with
  | ReconnectAwaitTeardown _ l _ _ | ReconnectAwaitInit _ l _
  | ReconnectAwaitFallback _ l => Some l
  | ReconnectReturned => None
  end.

(** [await reconnectSession(sid, init, fb)] with nothing else scheduled in
    between and callbacks that only settle: the outcomes are those of the old
    engine's [destroy()], of the primary and of the fallback start. *)
Definition reconnectSession (sid : SessionId) (init fb : bool)
    (teardown primary fallback : Outcome) (st : Manager) : Manager :=
  let '(st1, t1) := reconnectSession_start sid init fb st in
  let '(st2, t2) := match t1 with
                    | ReconnectAwaitTeardown _ _ _ _ => reconnectSession_resume t1 teardown st1
                    | _ => (st1, t1)
                    end in
  let '(st3, t3) := match t2 with
                    | ReconnectAwaitInit _ _ _ => reconnectSession_resume t2 primary st2
                    | _ => (st2, t2)
                    end in
  fst (reconnectSession_resume t3 fallback st3).

(** ** Engine event handlers (core/WhatsAppClient.js) *)

Inductive EngineEvent :=
| EvQr (dataUrl : string + string)    (* result of [qrcode.toDataURL(qr)] *)
| EvReady (widUser : option string)   (* [client.info.wid.user], if readable *)
| EvAuthenticated
| EvLoadingScreen (percent message : string)
| EvAuthFailure (message : string)
| EvDisconnected (reason : string)
| EvError (message : string).

(** A handler works on the record it closes over and reports effects.
    The handlers of the message events ([message], [message_ack], ...) only
    publish and are left out, as are console lines that report the size of
    a socket room. *)
Definition Handler := Session -> Session * list Effect.

(** [log(message)] of [initializeClient], lines 22-25. *)
Definition client_log (sid : SessionId) (startTime now : Z) (message : string) : Effect :=
  Console (LogClient sid (now - startTime)%Z message).

(** Lines 65-90. *)
Definition on_qr (sid : SessionId) (startTime now : Z) (dataUrl : string + string)
    : Handler := fun s =>
  match dataUrl with
  | inl url =>
      (set_qrCode (Some url) s,
       [client_log sid startTime now "QR generated, emitting to sockets...";
        Emit sid "qr" [url];
        client_log sid startTime now "QR code emitted successfully"])
  | inr e =>
      (s, [client_log sid startTime now ("QR generation failed: " +:+ e);
           Emit sid "auth_failure" ["QR generation failed: " +:+ e]])
  end.

(** Lines 93-114. *)
Definition on_ready (sid : SessionId) (startTime now : Z) (widUser : option string)
    : Handler := fun s =>
  if isReady s then
    (s, [client_log sid startTime now "Ready event fired but session already ready"])
  else
    let s1 := set_qrCode None (set_isReady true s) in
    match widUser with
    | Some user =>
        (set_phoneNumber (Some user) s1,
         [client_log sid startTime now "Client is ready"; Emit sid "ready" [user; sid]])
    | None =>
        (s1, [client_log sid startTime now "Client is ready"; Emit sid "ready" [sid]])
    end.

(** Lines 116-126. *)
Definition on_authenticated (sid : SessionId) (startTime now : Z) : Handler := fun s =>
  if isAuthenticated s then
    (s, [client_log sid startTime now
           "Authenticated event fired but session already authenticated)"])
  else
    (set_lastActivity now (set_isAuthenticated true s),
     [client_log sid startTime now "Authenticated"; Emit sid "authenticated" []]).

(** Lines 129-133. *)
Definition on_loading_screen (sid : SessionId) (startTime now : Z)
    (percent message : string) : Handler := fun s =>
  (set_lastActivity now s,
   [client_log sid startTime now ("Loading WhatsApp: " +:+ percent +:+ "% - " +:+ message);
    Emit sid "loading_screen" [percent; message]]).

(** Lines 135-139. *)
Definition on_auth_failure (sid : SessionId) (startTime now : Z) (message : string)
    : Handler := fun s =>
  (set_isAuthenticated false s,
   [client_log sid startTime now ("Auth failure: " +:+ message);
    Emit sid "auth_failure" [message]]).

(** Line 143: [session.isReady ? Date.now() - startTime : 'N/A']. *)
Definition timeSinceReady (startTime now : Z) (s : Session) : option Z :=
  if isReady s then Some (now - startTime)%Z else None.

(** Lines 141-155. *)
Definition on_disconnected (sid : SessionId) (startTime now : Z) (reason : string)
    : Handler := fun s =>
  let since := timeSinceReady startTime now s in
  (set_isReady false s,
   [client_log sid startTime now ("Disconnected: " +:+ reason);
    Console (LogDisconnectedAfter sid since reason);
    Console (LogDisconnectedState sid (isAuthenticated s) (isReady s));
    Emit sid "disconnected" [reason]] ++
   match since with
   | Some t =>
       if String.eqb reason "LOGOUT" && (t <? 120000)%Z
       then [Console (LogAntiBot sid t)] else []
   | None => []
   end).

(** Lines 158-161. *)
Definition on_error (sid : SessionId) (startTime now : Z) (message : string)
    : Handler := fun s =>
  (s, [client_log sid startTime now ("Client error: " +:+ message);
       Emit sid "auth_failure" ["Error: " +:+ message]]).

(** The handlers [initializeClientFallback] registers (lines 299-324): no
    [authenticated], [disconnected] or [error] handler, and a [ready]
    handler without the duplicate guard. *)
Definition on_qr_fallback (sid : SessionId) (dataUrl : string + string) : Handler :=
  fun s => match dataUrl with
           | inl url => (set_qrCode (Some url) s, [Emit sid "qr" [url]])
           | inr e => (s, [Console (LogFallback sid ("QR generation failed: " +:+ e))])
           end.
Definition on_ready_fallback (sid : SessionId) : Handler := fun s =>
  (set_isReady true s, [Emit sid "ready" [sid]]).
Definition on_auth_failure_fallback (sid : SessionId) (message : string) : Handler :=
  fun s => (s, [Console (LogFallback sid ("Auth failure: " +:+ message));
                Emit sid "auth_failure" [message]]).

(** The handler an engine runs for an event, from the closure it was given. *)
Definition handler_of (env : EngineEnv) (now : Z) (ev : EngineEvent) : Handler :=
  let sid := env_sessionId env in
  let t0 := env_startTime env in
  if env_fallback env then
    match ev with
    | EvQr d => on_qr_fallback sid d
    | EvReady _ => on_ready_fallback sid
    | EvAuthFailure m => on_auth_failure_fallback sid m
    | _ => fun s => (s, [])
    end
  else
    match ev with
    | EvQr d => on_qr sid t0 now d
    | EvReady w => on_ready sid t0 now w
    | EvAuthenticated => on_authenticated sid t0 now
    | EvLoadingScreen p m => on_loading_screen sid t0 now p m
    | EvAuthFailure m => on_auth_failure sid t0 now m
    | EvDisconnected r => on_disconnected sid t0 now r
    | EvError m => on_error sid t0 now m
    end.

(** Engine [c] emits [ev] at time [now]. *)
Definition engine_event (c : Engine) (ev : EngineEvent) (now : Z) (st : Manager)
    : Manager :=
  match engines st !! c with
  | Some env =>
      match heap st !! env_session env with
      | Some s =>
          let '(s', es) := handler_of env now ev s in
          effects es (with_heap (<[env_session env := s']> (heap st)) st)
      | None => st
      end
  | None => st
  end.

(** ** initializeClient and initializeClientFallback

    The functions of [core/WhatsAppClient.js] behind the wrappers the server
    binds on the manager ([initializeClient(sessionId)] and
    [initializeClientFallback(sessionId)]): the wrapper looks the record up
    and rejects when it is gone. *)

Inductive InitTask :=
| InitAwaitMkdir (sid : SessionId) (l : Loc) (startTime : Z)              (* line 30 *)
| InitAwaitReaddir (sid : SessionId) (l : Loc) (startTime : Z)            (* line 35 *)
| InitAwaitInitialize (sid : SessionId) (l : Loc) (startTime : Z) (c : Engine) (* line 232 *)
| InitAwaitCleanup (sid : SessionId) (l : Loc) (startTime : Z) (e : string)    (* line 242 *)
| FallbackAwaitMkdir (sid : SessionId) (l : Loc)                          (* line 278 *)
| FallbackAwaitInitialize (sid : SessionId) (l : Loc) (c : Engine)        (* line 390 *)
| InitResolved (c : Engine)
| InitRejected (e : string).

Definition fallback_data_path (sid : SessionId) : string := "data/fallback_" +:+ sid.

(** [new Client(...)], the registration of the handlers, and
    [session.client = client]. *)
Definition attach_engine (sid : SessionId) (l : Loc) (startTime : Z) (fallback : bool)
    (st : Manager) : Engine * Manager :=
  let c := length (engines st) in
  let st1 := with_engines (engines st ++ [mkEngineEnv sid l startTime fallback]) st in
  let st2 := effect (ClientNew c (if fallback then "fallback_" +:+ sid else sid)
                       (if fallback then fallback_data_path sid else session_data_path sid))
                    st1 in
  (c, update l (set_client (Some c)) st2).

(** Lines 248-252. *)
Definition init_give_up (sid : SessionId) (l : Loc) (e : string) (st : Manager)
    : Manager * InitTask :=
  let st1 := update l (fun s => set_qrCode None (set_client None s)) st in
  (effect (Emit sid "auth_failure" ["Failed: " +:+ e]) st1, InitRejected e).

Definition initializeClient_start (sid : SessionId) (now : Z) (st : Manager)
    : Manager * InitTask :=
  match get_session st sid with
  | None => (st, InitRejected ("Session " +:+ sid +:+ " not found"))
  | Some (l, _) =>
      (effects [client_log sid now now "Starting WhatsApp client initialization";
                FsMkdir (session_data_path sid)] st,
       InitAwaitMkdir sid l now)
  end.

Definition initializeClientFallback_start (sid : SessionId) (st : Manager)
    : Manager * InitTask :=
  match get_session st sid with
  | None => (st, InitRejected ("Session " +:+ sid +:+ " not found"))
  | Some (l, _) =>
      (effects [Console (LogFallback sid "Starting minimal WhatsApp client");
                FsMkdir (fallback_data_path sid)] st,
       FallbackAwaitMkdir sid l)
  end.

Definition initialize_resume (t : InitTask) (o : Outcome) (now : Z) (st : Manager)
    : Manager * InitTask :=
  match t with
  | InitAwaitMkdir sid l t0 =>
      match o with
      | Resolved =>
          (effects [client_log sid t0 now "Session directory";
                    FsReaddir (session_data_path sid)] st,
           InitAwaitReaddir sid l t0)
      | Rejected e => (st, InitRejected e)
      end
  | InitAwaitReaddir sid l t0 =>
      (* the listing only selects a console line; a failure is caught *)
      let '(c, st1) := attach_engine sid l t0 false st in
      (effects [client_log sid t0 now "Initializing client with 45s timeout...";
                ClientInitialize c] st1,
       InitAwaitInitialize sid l t0 c)
  | InitAwaitInitialize sid l t0 c =>
      match o with
      | Resolved =>
          (effect (client_log sid t0 now "Initialization completed successfully") st,
           InitResolved c)
      | Rejected e =>
          let st1 := effect (client_log sid t0 now ("Initialization failed: " +:+ e)) st in
          match heap st1 !! l ≫= client with
          | Some c' => (effect (ClientDestroy c') st1, InitAwaitCleanup sid l t0 e)
          | None => init_give_up sid l e st1
          end
      end
  | InitAwaitCleanup sid l t0 e => init_give_up sid l e st
  | FallbackAwaitMkdir sid l =>
      match o with
      | Resolved =>
          let '(c, st1) := attach_engine sid l now true
                             (console (LogFallback sid "Created session directory") st) in
          (effects [Console (LogFallback sid "Initializing with 20s timeout...");
                    ClientInitialize c] st1,
           FallbackAwaitInitialize sid l c)
      | Rejected e =>
          (console (LogFallback sid ("Directory creation failed: " +:+ e)) st,
           InitRejected e)
      end
  | FallbackAwaitInitialize sid l c =>
      match o with
      | Resolved =>
          (console (LogFallback sid "Initialization completed") st, InitResolved c)
      | Rejected e => (st, InitRejected e)
      end
  | InitResolved c => (st, InitResolved c)
  | InitRejected e => (st, InitRejected e)
  end.

(** Running an initialiser to its end with nothing else scheduled:
    [os] are the outcomes of its awaited calls, in order. *)
Fixpoint initialize_run (os : list Outcome) (now : Z) (t : InitTask) (st : Manager)
    : Manager * InitTask :=
  match t with
  | InitResolved _ | InitRejected _ => (st, t)
  | _ => match os with
         | [] => (st, t)
         | o :: os' => let '(st', t') := initialize_resume t o now st in
                       initialize_run os' now t' st'
         end
  end.

Definition init_outcome (t : InitTask) : Outcome :=
  match t with
  | InitRejected e => Rejected e
  | _ => Resolved
  end.

(** ** The start-session route (auth.routes.js, lines 59-124) *)

Inductive Response :=
| Json (status : nat) (message : string)
| JsonError (status : nat) (error : string) (detail : option string).

Inductive StartTask :=
| StartAwaitDelay (sid : SessionId)      (* line 99 *)
| StartAwaitPrimary (sid : SessionId)    (* line 102 *)
| StartAwaitFallback (sid : SessionId)   (* line 109 *)
| StartResponded (r : Response).

(** [req.params.sessionId || req.body.sessionId] is [None] when both are
    missing or empty. *)
Definition startSession_start (req_sid : option SessionId) (st : Manager)
    : Manager * StartTask :=
  match req_sid with
  | None => (st, StartResponded (JsonError 400 "Session ID required" None))
  | Some sid =>
      if negb (truthy sid) then
        (st, StartResponded (JsonError 400 "Session ID required" None))
      else
      let st1 := console (LogStartSession sid "Starting session") st in
      match get_session st1 sid with
      | None =>
          (console (LogStartSession sid "Session not found") st1,
           StartResponded (JsonError 404 "Session not found" None))
      | Some (_, r) =>
          let current := userSessions st1 !! userId r in
          if negb (bool_decide (current = Some sid)) then
            (console (LogStartSession sid "Ignoring start-session for old session") st1,
             StartResponded
               (JsonError 410 "This session has been replaced by a newer session" current))
          else
            match client r with
            | Some _ =>
                (console (LogStartSession sid "already has a client") st1,
                 StartResponded (Json 200 "Session already started"))
            | None =>
                (console (LogStartSession sid "Initializing WhatsApp client") st1,
                 StartAwaitDelay sid)
            end
      end
  end.

(** Resuming the handler; when it calls an initialiser, the task that call
    started is returned with it. *)
Definition startSession_resume (t : StartTask) (o : Outcome) (now : Z) (st : Manager)
    : Manager * StartTask * option InitTask :=
  match t with
  | StartAwaitDelay sid =>
      let '(st1, it) := initializeClient_start sid now st in
      (st1, StartAwaitPrimary sid, Some it)
  | StartAwaitPrimary sid =>
      match o with
      | Resolved =>
          (console (LogStartSession sid "initialization started successfully") st,
           StartResponded (Json 200 "Session initialization started"), None)
      | Rejected _ =>
          let st1 := console (LogStartSession sid
                                "Primary initialization failed, trying fallback method...")
                             st in
          let '(st2, it) := initializeClientFallback_start sid st1 in
          (st2, StartAwaitFallback sid, Some it)
      end
  | StartAwaitFallback sid =>
      match o with
      | Resolved =>
          (console (LogStartSession sid "initialized successfully using fallback method") st,
           StartResponded (Json 200 "Session initialization started (fallback method)"),
           None)
      | Rejected e =>
          (console (LogStartSession sid "Both initialization methods failed") st,
           StartResponded (JsonError 500 "Failed to start session" (Some e)), None)
      end
  | StartResponded r => (st, t, None)
  end.

(** One request served from start to response with nothing else scheduled:
    [primary] and [fallback] are the outcomes of the awaited calls of the
    two initialisers. *)
Definition startSession (req_sid : option SessionId) (now : Z)
    (primary fallback : list Outcome) (st : Manager) : Manager * StartTask :=
  match startSession_start req_sid st with
  | (st1, StartAwaitDelay sid) =>
      let '(st2, t2, it) := startSession_resume (StartAwaitDelay sid) Resolved now st1 in
      let '(st3, it3) := match it with
                         | Some i => initialize_run primary now i st2
                         | None => (st2, InitRejected "")
                         end in
      match startSession_resume t2 (init_outcome it3) now st3 with
      | (st4, StartAwaitFallback sid', Some i) =>
          let '(st5, it5) := initialize_run fallback now i st4 in
          let '(st6, t6, _) :=
            startSession_resume (StartAwaitFallback sid') (init_outcome it5) now st5 in
          (st6, t6)
      | (st4, t4, _) => (st4, t4)
      end
  | r => r
  end.

(** ** The periodic sweeps (lines 61-88) *)

Definition inactive (now : Z) (s : Session) : bool :=
  (SESSION_TIMEOUT <? now - lastActivity s)%Z.

(** Line 78. *)
Definition unfinished (now : Z) (s : Session) : bool :=
  negb (isReady s) && negb (isAuthenticated s) &&
  (UNFINISHED_SESSION_TIMEOUT <? now - lastActivity s)%Z.

(** The [for ... of this.sessions.entries()] loop: [destroySession] is
    called without [await] on every entry that satisfies [reap]; an entry
    deleted while the loop runs is not visited. *)
Fixpoint sweep_loop (reap : Session -> bool) (line : SessionId -> Session -> LogLine)
    (entries : list (SessionId * Loc)) (st : Manager)
    : Manager * list (SessionId * DestroyTask) :=
  match entries with
  | [] => (st, [])
  | (sid, _) :: rest =>
      match get_session st sid with
      | Some (_, r) =>
          if reap r then
            let '(st1, t) := destroySession_start sid (console (line sid r) st) in
            let '(st2, ts) := sweep_loop reap line rest st1 in
            (st2, (sid, t) :: ts)
          else sweep_loop reap line rest st
      | None => sweep_loop reap line rest st
      end
  end.

Definition cleanupInactiveSessions (now : Z) (st : Manager)
    : Manager * list (SessionId * DestroyTask) :=
  sweep_loop (inactive now) (fun sid _ => LogCleaningInactive sid)
             (map_to_list (sessions st)) st.

Definition cleanupUnfinishedSessions (now : Z) (st : Manager)
    : Manager * list (SessionId * DestroyTask) :=
  let '(st1, ts) :=
    sweep_loop (unfinished now)
               (fun sid r => LogCleaningUnfinished sid (now - lastActivity r)%Z)
               (map_to_list (sessions st)) st in
  (if bool_decide (0 < length ts) then console (LogCleanedUnfinished (length ts)) st1
   else st1, ts).

(** ** Remaining writers of the registry *)

(** [session.lastActivity = Date.now()] in the media routes and in the
    [join_session] socket handler. *)
Definition touch_activity (sid : SessionId) (now : Z) (st : Manager) : Manager :=
  match get_session st sid with
  | Some (l, _) => update l (set_lastActivity now) st
  | None => st
  end.

(** The timer of the [/debug/test-qr-flow] route. *)
Definition debug_cleanup (sid : SessionId) (uid : UserId) (st : Manager) : Manager :=
  console (LogDebugCleanup sid)
    (with_userSessions (delete uid (userSessions st))
       (with_sessions (delete sid (sessions st)) st)).

(** ** Everything that writes the manager

    [checkSessionHealth] and [isSessionHealthy] only read the registry and
    probe the engine; their writes go through [reconnectSession], called
    without callbacks. *)
Inductive Call :=
| CallGetOrCreateSession (uid : UserId) (dev : DeviceInfo) (now : Z)
| CallDestroyStart (sid : SessionId)
| CallDestroyResume (t : DestroyTask) (o : Outcome)
| CallReconnectStart (sid : SessionId) (init fb : bool)
| CallReconnectResume (t : ReconnectTask) (o : Outcome)
| CallInitializeStart (sid : SessionId) (now : Z)
| CallFallbackStart (sid : SessionId)
| CallInitializeResume (t : InitTask) (o : Outcome) (now : Z)
| CallStartSessionStart (req_sid : option SessionId)
| CallStartSessionResume (t : StartTask) (o : Outcome) (now : Z)
| CallEngineEvent (c : Engine) (ev : EngineEvent) (now : Z)
| CallCleanupInactive (now : Z)
| CallCleanupUnfinished (now : Z)
| CallTouch (sid : SessionId) (now : Z)
| CallDebugCleanup (sid : SessionId) (uid : UserId)
| CallSetIO.

Definition exec (c : Call) (st : Manager) : Manager :=
  match c with
  | CallGetOrCreateSession uid dev now => snd (fst (getOrCreateSession uid dev now st))
  | CallDestroyStart sid => fst (destroySession_start sid st)
  | CallDestroyResume t o => fst (destroySession_resume t o st)
  | CallReconnectStart sid init fb => fst (reconnectSession_start sid init fb st)
  | CallReconnectResume t o => fst (reconnectSession_resume t o st)
  | CallInitializeStart sid now => fst (initializeClient_start sid now st)
  | CallFallbackStart sid => fst (initializeClientFallback_start sid st)
  | CallInitializeResume t o now => fst (initialize_resume t o now st)
  | CallStartSessionStart req => fst (startSession_start req st)
  | CallStartSessionResume t o now => fst (fst (startSession_resume t o now st))
  | CallEngineEvent c ev now => engine_event c ev now st
  | CallCleanupInactive now => fst (cleanupInactiveSessions now st)
  | CallCleanupUnfinished now => fst (cleanupUnfinishedSessions now st)
  | CallTouch sid now => touch_activity sid now st
  | CallDebugCleanup sid uid => debug_cleanup sid uid st
  | CallSetIO => setIO st
  end.

(** The managers a server process can be in: the generator never repeats a
    value, and the event loop has run any sequence of steps. *)
Inductive reachable : Manager -> Prop :=
| reachable_new gen io_set :
    Inj (=) (=) gen -> reachable (new_manager gen io_set)
| reachable_exec st c :
    reachable st -> reachable (exec c st).

(** The ids [generateSessionId] has handed out so far. *)
Definition issued (st : Manager) : list SessionId :=
  uuid_stream st <$> seq 0 (uuid_calls st).

(** ** Lifecycle states

    The source keeps no state field: the states below are the names the
    specification gives to the stages of a record, and [tracked] follows
    its state chart ([CREATED → INITIALIZING → (AUTHENTICATED) → READY],
    [DISCONNECTED] from [READY], reset to [CREATED]) while each rule
    applies to the record what the source does at that transition. *)
Inductive LifecycleState :=
| CREATED | INITIALIZING | AUTHENTICATED | READY | DISCONNECTED.

Definition engine_expected (q : LifecycleState) : bool :=
  match q with
  | INITIALIZING | AUTHENTICATED | READY => true
  | CREATED | DISCONNECTED => false
  end.

Inductive tracked : Session -> LifecycleState -> Prop :=
| tracked_created uid dev now :
    tracked (new_session uid dev now) CREATED
| tracked_start s c :
    (* initializeClient, line 221 *)
    tracked s CREATED -> tracked (set_client (Some c) s) INITIALIZING
| tracked_qr s sid t0 now d :
    tracked s INITIALIZING -> tracked (fst (on_qr sid t0 now d s)) INITIALIZING
| tracked_authenticated s sid t0 now :
    tracked s INITIALIZING ->
    tracked (fst (on_authenticated sid t0 now s)) AUTHENTICATED
| tracked_ready s q sid t0 now w :
    tracked s q -> q = INITIALIZING \/ q = AUTHENTICATED ->
    tracked (fst (on_ready sid t0 now w s)) READY
| tracked_disconnected s sid t0 now reason :
    tracked s READY -> tracked (fst (on_disconnected sid t0 now reason s)) DISCONNECTED
| tracked_init_failed s :
    (* initializeClient, lines 248-249 *)
    tracked s INITIALIZING -> tracked (set_qrCode None (set_client None s)) CREATED
| tracked_reconnect s q :
    (* reconnectSession, lines 202-205 *)
    tracked s q -> tracked (reset_session s) CREATED.

(** ** The audio conversion cache (core/AudioConverter.js) *)

Abbreviation Buffer := (list Byte.byte) (only parsing).

Record CacheInfo := mkCacheInfo {
  filePath : string;
  timestamp : Z;
  originalSize : nat;
  convertedSize : nat
}.

Record AudioConverter := mkAudioConverter {
  audioConversionCache : gmap string CacheInfo;
  audioConversionTTL : Z;
  audioConversionDir : string;
  ffmpegAvailable : bool;
  (** the file system, and the runs of the transcoding engine so far
      (input path, output path) *)
  files : gmap string Buffer;
  ffmpeg_runs : list (string * string)
}.

Definition with_cache (c : gmap string CacheInfo) (ac : AudioConverter) : AudioConverter :=
  mkAudioConverter c (audioConversionTTL ac) (audioConversionDir ac)
                   (ffmpegAvailable ac) (files ac) (ffmpeg_runs ac).
Definition with_files (f : gmap string Buffer) (ac : AudioConverter) : AudioConverter :=
  mkAudioConverter (audioConversionCache ac) (audioConversionTTL ac)
                   (audioConversionDir ac) (ffmpegAvailable ac) f (ffmpeg_runs ac).
Definition with_runs (r : list (string * string)) (ac : AudioConverter) : AudioConverter :=
  mkAudioConverter (audioConversionCache ac) (audioConversionTTL ac)
                   (audioConversionDir ac) (ffmpegAvailable ac) (files ac) r.

(** The constructor; [available] is what [initializeFFmpeg] found. *)
Definition new_converter (dir : string) (available : bool) (fs : gmap string Buffer)
    : AudioConverter :=
  mkAudioConverter ∅ AUDIO_CONVERSION_TTL dir available fs [].

(** What the transcoding engine does with one run. *)
Inductive EngineRun :=
| EngineEnd (output : Buffer)      (* 'end', [output] written at the output path *)
| EngineError (message : string)   (* 'error' *)
| EngineTimeout.                   (* the conversion timer fires first *)

Definition lower_ascii (a : ascii) : ascii :=
  let n := nat_of_ascii a in
  if Nat.leb 65 n && Nat.leb n 90 then ascii_of_nat (n + 32) else a.

Fixpoint toLowerCase (s : string) : string :=
  match s with
  | EmptyString => EmptyString
  | String a s' => String (lower_ascii a) (toLowerCase s')
  end.

(** [s.split(';')[0]] *)
Fixpoint before_semicolon (s : string) : string :=
  match s with
  | EmptyString => EmptyString
  | String a s' => if Ascii.eqb a ";" then EmptyString else String a (before_semicolon s')
  end.

Definition is_space (a : ascii) : bool :=
  let n := nat_of_ascii a in Nat.eqb n 32 || (Nat.leb 9 n && Nat.leb n 13).

Fixpoint trim_start (s : string) : string :=
  match s with
  | EmptyString => EmptyString
  | String a s' => if is_space a then trim_start s' else s
  end.

Definition trim (s : string) : string :=
  String.rev (trim_start (String.rev (trim_start s))).

Definition extensions : list (string * string) :=
  [("audio/ogg", "ogg"); ("audio/ogg; codecs=opus", "ogg"); ("audio/opus", "opus");
   ("audio/webm", "webm"); ("audio/aac", "aac"); ("audio/m4a", "m4a");
   ("audio/wav", "wav"); ("audio/flac", "flac"); ("audio/mpeg", "mp3");
   ("audio/mp3", "mp3")].

Fixpoint assoc (k : string) (l : list (string * string)) : option string :=
  match l with
  | [] => None
  | (k', v) :: l' => if String.eqb k k' then Some v else assoc k l'
  end.

(** Lines 804-821 (own properties of the table only). *)
Definition getFileExtension (mimetype : string) : string :=
  let baseMimetype := trim (before_semicolon (toLowerCase mimetype)) in
  match assoc (toLowerCase mimetype) extensions with
  | Some e => e
  | None => match assoc baseMimetype extensions with
            | Some e => e
            | None => "audio"
            end
  end.

Definition path_join (dir name : string) : string := dir +:+ "/" +:+ name.

Definition input_path (ac : AudioConverter) (mimetype mediaId : string) : string :=
  path_join (audioConversionDir ac)
            ("input_" +:+ mediaId +:+ "." +:+ getFileExtension mimetype).
Definition output_path (ac : AudioConverter) (mediaId : string) : string :=
  path_join (audioConversionDir ac) ("output_" +:+ mediaId +:+ ".mp3").

(** Line 691: the entry may be served. *)
Definition fresh_entry (ac : AudioConverter) (now : Z) (e : CacheInfo) : bool :=
  (now - timestamp e <? audioConversionTTL ac)%Z.

(** Lines 697-799: the conversion itself.  [now_end] is the clock when the
    engine reports the end of the run.  The file system is a map from paths
    to contents: writing and creating the cache directory succeed, reading
    fails exactly on a missing file, and a failed [unlink] is ignored as in
    the source. *)
Definition convert_with_engine (inputBuffer : Buffer) (mimetype mediaId : string)
    (run : EngineRun) (now_end : Z) (ac : AudioConverter)
    : AudioConverter * (Buffer + string) :=
  let inputPath := input_path ac mimetype mediaId in
  let outputPath := output_path ac mediaId in
  let ac1 := with_files (<[inputPath := inputBuffer]> (files ac)) ac in
  let ac2 := with_runs (ffmpeg_runs ac1 ++ [(inputPath, outputPath)]) ac1 in
  match run with
  | EngineEnd output =>
      let ac3 := with_files (<[outputPath := output]> (files ac2)) ac2 in
      let ac4 := with_cache
                   (<[mediaId := mkCacheInfo outputPath now_end (length inputBuffer)
                                             (length output)]>
                      (audioConversionCache ac3)) ac3 in
      (with_files (delete inputPath (files ac4)) ac4, inl output)
  | EngineError message =>
      (with_files (delete outputPath (delete inputPath (files ac2))) ac2,
       inr ("Audio conversion failed: " +:+ message))
  | EngineTimeout =>
      (ac2, inr "Audio conversion timeout after 60 seconds")
  end.

(** Lines 681-801. *)
Definition convertAudioToMp3 (inputBuffer : Buffer) (mimetype mediaId : string)
    (now : Z) (run : EngineRun) (now_end : Z) (ac : AudioConverter)
    : AudioConverter * (Buffer + string) :=
  if negb (ffmpegAvailable ac) then
    (ac, inr "FFmpeg is not available on this server. Please install FFmpeg to enable audio conversion.")
  else
    match audioConversionCache ac !! mediaId with
    | Some e =>
        if fresh_entry ac now e then
          match files ac !! filePath e with
          | Some cached => (ac, inl cached)
          | None => (ac, inr ("ENOENT: no such file or directory, open " +:+ filePath e))
          end
        else convert_with_engine inputBuffer mimetype mediaId run now_end ac
    | None => convert_with_engine inputBuffer mimetype mediaId run now_end ac
    end.

(** Lines 622-644: expired entries leave the index whether or not their
    file could be unlinked. *)
Definition expired (ac : AudioConverter) (now : Z) (e : CacheInfo) : bool :=
  (audioConversionTTL ac <? now - timestamp e)%Z.

Definition cleanupAudioCache (now : Z) (ac : AudioConverter) : AudioConverter :=
  let gone := filter (fun kv => expired ac now (snd kv) = true)
                     (map_to_list (audioConversionCache ac)) in
  with_files (foldr (fun kv fs => delete (filePath (snd kv)) fs) (files ac) gone)
    (with_cache (filter (fun kv => expired ac now (snd kv) = false)
                        (audioConversionCache ac)) ac).

(** The converters a server process can be in; the file system may also
    change under the converter. *)
Inductive converter_reachable : AudioConverter -> Prop :=
| converter_new dir available fs :
    converter_reachable (new_converter dir available fs)
| converter_convert ac buf mimetype mediaId now run now_end :
    converter_reachable ac ->
    converter_reachable (fst (convertAudioToMp3 buf mimetype mediaId now run now_end ac))
| converter_cleanup ac now :
    converter_reachable ac -> converter_reachable (cleanupAudioCache now ac)
| converter_fs ac fs :
    converter_reachable ac -> converter_reachable (with_files fs ac).

(** ** Notions used in the statements *)

(** The ids earlier calls of [getOrCreateSession] returned: each call
    prints the id it returns (line 336). *)
Fixpoint created_ids (t : list Effect) : list SessionId :=
  match t with
  | [] => []
  | Console (LogCreatedSession sid _) :: t' => sid :: created_ids t'
  | _ :: t' => created_ids t'
  end.

(** [quiet st st']: going from [st] to [st'] draws no id, registers
    nothing new and frees no record. *)
Record quiet (st st' : Manager) : Prop := mkQuiet {
  quiet_stream : uuid_stream st' = uuid_stream st;
  quiet_calls : uuid_calls st' = uuid_calls st;
  quiet_sessions : sessions st' ⊆ sessions st;
  quiet_users : userSessions st' ⊆ userSessions st;
  quiet_heap : length (heap st) ≤ length (heap st');
  quiet_created : created_ids (trace st') = created_ids (trace st)
}.

(** The registry only holds ids the generator handed out, and records that
    exist. *)
Record registry_ok (st : Manager) : Prop := mkRegistryOk {
  ok_stream : Inj (=) (=) (uuid_stream st);
  ok_sessions : forall sid l,
    sessions st !! sid = Some l -> sid ∈ issued st /\ l < length (heap st);
  ok_users : forall uid sid, userSessions st !! uid = Some sid -> sid ∈ issued st;
  ok_created : created_ids (trace st) = issued st
}.


(** Any work of the event loop. *)
Definition run_calls (cs : list Call) (st : Manager) : Manager :=
  foldl (fun s c => exec c s) st cs.

(** [finishes (st, t) st_end]: the reconnection suspended as [t] in [st]
    returns in [st_end]; before each of its resumptions the event loop may
    have run other work. *)
Inductive finishes : Manager * ReconnectTask -> Manager -> Prop :=
| finishes_now st :
    finishes (st, ReconnectReturned) st
| finishes_later st t cs o st_end :
    t <> ReconnectReturned ->
    finishes (reconnectSession_resume t o (run_calls cs st)) st_end ->
    finishes (st, t) st_end.

(** The field of the record at [l]. *)
Definition field {A} (f : Session -> A) (l : Loc) (st : Manager) : option A :=
  f <$> heap st !! l.

(** [reconnectSession] up to the point where the record has been reset
    (line 205). *)
Definition reconnect_until_reset (sid : SessionId) (init fb : bool) (teardown : Outcome)
    (st : Manager) : Manager * ReconnectTask :=
  let '(st1, t1) := reconnectSession_start sid init fb st in
  match t1 with
  | ReconnectAwaitTeardown _ _ _ _ => reconnectSession_resume t1 teardown st1
  | _ => (st1, t1)
  end.

(** ** Scenarios *)

Definition demo_uuid (n : nat) : SessionId := "session-" +:+ pretty n.

(** User ["u"] creates a session at time 1000 ... *)
Definition st_created : Manager :=
  exec (CallGetOrCreateSession "u" "device" 1000) (new_manager demo_uuid true).

(** ... starts it at time 2000, the engine comes up ... *)
Definition st_started : Manager :=
  fst (startSession (Some "session-0") 2000 [Resolved; Resolved; Resolved] [] st_created).

(** ... the user scans the code: authenticated at 130000, ready at 132000. *)
Definition st_ready : Manager :=
  engine_event 0 (EvReady (Some "491700000000")) 132000
    (engine_event 0 EvAuthenticated 130000 st_started).

(** The same user asks for a session again while the first one is ready:
    the old session is being torn down, the new one is current. *)
Definition st_superseded : Manager :=
  exec (CallGetOrCreateSession "u" "device" 200000) st_ready.

(** Recognisers for the effects the statements count. *)
Definition is_teardown (c : Engine) (e : Effect) : bool :=
  match e with ClientDestroy c' => Nat.eqb c c' | _ => false end.
Definition is_rm (sid : SessionId) (e : Effect) : bool :=
  match e with FsRm p => String.eqb p (session_data_path sid) | _ => false end.
Definition is_emit (sid : SessionId) (event : string) (e : Effect) : bool :=
  match e with Emit s ev _ => String.eqb s sid && String.eqb ev event | _ => false end.
Definition is_anti_bot (e : Effect) : bool :=
  match e with Console (LogAntiBot _ _) => true | _ => false end.
Definition count_effects (p : Effect -> bool) (t : list Effect) : nat :=
  length (filter (fun e => p e = true) t).

(** The states in which the specification expects an engine handle, once
    [DISCONNECTED] is counted among them. *)
Definition engine_attached (q : LifecycleState) : bool :=
  match q with
  | CREATED => false
  | INITIALIZING | AUTHENTICATED | READY | DISCONNECTED => true
  end.

(** The record of the first session of the scenario after its engine
    reported a disconnect at time 137000. *)
Definition disconnected_record : Session :=
  fst (on_disconnected "session-0" 2000 137000 "LOGOUT"
    (fst (on_ready "session-0" 2000 132000 (Some "491700000000")
      (fst (on_authenticated "session-0" 2000 130000
        (set_client (Some 0) (new_session "u" "device" 1000))))))).

(** The same start as in the scenario, but authenticated at 5000 and ready
    at 6000. *)
Definition st_ready_quickly : Manager :=
  engine_event 0 (EvReady (Some "491700000000")) 6000
    (engine_event 0 EvAuthenticated 5000 st_started).

(** The rest of a [destroySession] call that was started without [await]. *)
Definition destroySession_finish (t : DestroyTask) (teardown rm : Outcome) (st : Manager)
    : Manager :=
  let '(st1, t1) := match t with
                    | DestroyAwaitTeardown _ _ => destroySession_resume t teardown st
                    | _ => (st, t)
                    end in
  fst (destroySession_resume t1 rm st1).

(** The pending calls of a sweep settle one after the other; [os] gives the
    outcomes of each call's teardown and directory removal. *)
Fixpoint settle_destroys (ts : list (SessionId * DestroyTask))
    (os : list (Outcome * Outcome)) (st : Manager) : Manager :=
  match ts, os with
  | (_, t) :: ts', (teardown, rm) :: os' =>
      settle_destroys ts' os' (destroySession_finish t teardown rm st)
  | _, _ => st
  end.

Definition destroy_sid (t : DestroyTask) : option SessionId :=
  match t with
  | DestroyAwaitTeardown sid _ | DestroyAwaitRm sid _ => Some sid
  | DestroyReturned => None
  end.

(** What the route answers for a record that has an engine attached. *)
Definition already_started_response (st : Manager) (sid : SessionId) (r : Session)
    : Response :=
  if bool_decide (userSessions st !! userId r = Some sid)
  then Json 200 "Session already started"
  else JsonError 410 "This session has been replaced by a newer session"
                 (userSessions st !! userId r).

Definition is_client_new (e : Effect) : bool :=
  match e with ClientNew _ _ _ => true | _ => false end.

(** What a conversion that goes to the engine hands back. *)
Definition engine_result (run : EngineRun) : Buffer + string :=
  match run with
  | EngineEnd output => inl output
  | EngineError message => inr ("Audio conversion failed: " +:+ message)
  | EngineTimeout => inr "Audio conversion timeout after 60 seconds"
  end.

(** What reading a cached artifact hands back. *)
Definition read_cached (ac : AudioConverter) (e : CacheInfo) : Buffer + string :=
  match files ac !! filePath e with
  | Some cached => inl cached
  | None => inr ("ENOENT: no such file or directory, open " +:+ filePath e)
  end.

(** A converter with one entry for ["msg-1"], converted at time 1000. *)
Definition ac_cached : AudioConverter :=
  fst (convertAudioToMp3 [Byte.x00; Byte.x01] "audio/ogg; codecs=opus" "msg-1"
         900 (EngineEnd [Byte.xff]) 1000 (new_converter "audio_cache" true ∅)).

(** The session of the scenario one millisecond past 24 hours after its
    last activity. *)
Definition a_day_later : Z := 130000 + SESSION_TIMEOUT + 1.

(** * Further parts of the code *)

(** ** AudioConverter: format tables (lines 646-678) *)

Definition audioFormatsNeedingConversion : list string :=
  ["audio/ogg"; "audio/opus"; "audio/webm"; "audio/aac"; "audio/m4a";
   "audio/wav"; "audio/flac"].

(** [mimetype.toLowerCase().split(';')[0].trim()] *)
Definition base_mimetype (mimetype : string) : string :=
  trim (before_semicolon (toLowerCase mimetype)).

(** [array.includes(s)] *)
Definition includes (s : string) (l : list string) : bool :=
  existsb (String.eqb s) l.

(** Lines 647-661. *)
Definition needsAudioConversion (mimetype : string) : bool :=
  includes (base_mimetype mimetype) audioFormatsNeedingConversion.

(** Lines 664-672. *)
Definition getSupportedFormats (ac : AudioConverter) (mimetype : string) : list string :=
  "original" ::
  (if String.prefix "audio/" mimetype && ffmpegAvailable ac then ["mp3"] else []).

(** Lines 675-678. *)
Definition isValidFormat (ac : AudioConverter) (format mimetype : string) : bool :=
  includes format (getSupportedFormats ac mimetype).

(** ** The media download route: choice of what is sent
    (media.routes.js, lines 153-203)

    The part of the handler that follows the download of the media: the
    check of the requested format, the conversion, and the body, content
    type and [X-Converted] header of the response.  The file name and the
    other headers are left out. *)
Record Delivery := mkDelivery {
  contentType : string;
  body : Buffer;
  xConverted : bool
}.

Inductive MediaResponse :=
| MediaSent (d : Delivery)
| MediaUnsupported (format mimetype : string) (supportedFormats : list string).

Definition deliver_media (format mimetype : string) (data : Buffer) (messageId : string)
    (now : Z) (run : EngineRun) (now_end : Z) (ac : AudioConverter)
    : AudioConverter * MediaResponse :=
  if negb (isValidFormat ac format mimetype) then
    (ac, MediaUnsupported format mimetype (getSupportedFormats ac mimetype))
  else
    let send (ac' : AudioConverter) (finalMimetype : string) (buffer : Buffer) :=
      (ac', MediaSent (mkDelivery finalMimetype buffer
                         (String.eqb format "mp3" && String.eqb finalMimetype "audio/mpeg"
                          && negb (String.eqb mimetype "audio/mpeg")))) in
    if String.eqb format "mp3" && String.prefix "audio/" mimetype
       && negb (String.eqb mimetype "audio/mpeg") then
      match convertAudioToMp3 data mimetype messageId now run now_end ac with
      | (ac', inl convertedBuffer) => send ac' "audio/mpeg" convertedBuffer
      | (ac', inr _) => send ac' mimetype data
      end
    else send ac mimetype data.

(** ** AudioConverter: any sequence of calls *)

Inductive ConverterCall :=
| CallConvert (buf : Buffer) (mimetype mediaId : string) (now : Z) (run : EngineRun)
              (now_end : Z)
| CallCleanupAudioCache (now : Z).

Definition converter_exec (c : ConverterCall) (ac : AudioConverter) : AudioConverter :=
  match c with
  | CallConvert buf mimetype mediaId now run now_end =>
      fst (convertAudioToMp3 buf mimetype mediaId now run now_end ac)
  | CallCleanupAudioCache now => cleanupAudioCache now ac
  end.

Definition converter_run (cs : list ConverterCall) (ac : AudioConverter) : AudioConverter :=
  foldl (fun a c => converter_exec c a) ac cs.

(** ** Notions used in the further statements *)

(** The fields of a record that say whose it is. *)
Definition same_owner (r r' : Session) : Prop :=
  userId r' = userId r /\ deviceInfo r' = deviceInfo r.

(** [steady st st']: every record of [st] is still there in [st'], at the
    same address and with the same owner. *)
Definition steady (st st' : Manager) : Prop :=
  forall l r, heap st !! l = Some r ->
    exists r', heap st' !! l = Some r' /\ same_owner r r'.

(** The registry is consistent: every registered id has a record, no two
    ids share a record, and the id registered for a user is the id of a
    record of that user whenever it is registered at all. *)
Record registry_consistent (st : Manager) : Prop := mkRegistryConsistent {
  rc_resolves : forall sid l, sessions st !! sid = Some l -> is_Some (heap st !! l);
  rc_no_alias : forall s1 s2 l,
    sessions st !! s1 = Some l -> sessions st !! s2 = Some l -> s1 = s2;
  rc_owner : forall u sid l r,
    userSessions st !! u = Some sid -> get_session st sid = Some (l, r) -> userId r = u
}.

(** ** Health of a session

    [isSessionHealthy] (SessionManager.js, lines 146-166).  [probe] is the
    outcome of the race between [client.getState()] and the five-second
    timer, consulted only if the probe is made.  The function writes nothing
    but a console line when the probe fails. *)
Definition isSessionHealthy (sid : SessionId) (probe : Outcome) (st : Manager) : bool :=
  match get_session st sid with
  | Some (_, r) =>
      if bool_decide (is_Some (client r)) && isReady r && negb (reconnecting r) then
        match probe with
        | Resolved => true
        | Rejected _ => false
        end
      else false
  | None => false
  end.

(** One turn of the loop of [checkSessionHealth] (lines 94-138), for the
    entry [sid]: what the turn decides, and the manager and the task its
    call of [reconnectSession(sessionId)] leaves, if it makes one.  The
    callbacks are never passed.  [probe] is the outcome of the race with the
    ten-second timer.  Console lines of the turn itself are left out.  The
    loop runs over the entries of the session map: an id that is not
    registered has no turn, and the manager is returned as it is. *)
Inductive HealthVerdict :=
| HealthSkippedOld | HealthSkippedRecent | HealthPassed | HealthReconnect.

Definition checkSessionHealth_turn (sid : SessionId) (now : Z) (probe : Outcome)
    (st : Manager) : Manager * HealthVerdict * option ReconnectTask :=
  match get_session st sid with
  | Some (_, r) =>
      if negb (bool_decide (userSessions st !! userId r = Some sid)) then
        (st, HealthSkippedOld, None)
      else if (now - lastActivity r <? 5 * 60 * 1000)%Z then
        (st, HealthSkippedRecent, None)
      else if negb (bool_decide (is_Some (client r))) || negb (isReady r) then
        let '(st1, t) := reconnectSession_start sid false false st in
        (st1, HealthReconnect, Some t)
      else
        match probe with
        | Resolved => (st, HealthPassed, None)
        | Rejected _ =>
            let '(st1, t) := reconnectSession_start sid false false st in
            (st1, HealthReconnect, Some t)
        end
  | None => (st, HealthSkippedOld, None)
  end.

(** ** The send-message route (media.routes.js, lines 499-547)

    The route up to the point where the message is handed to the engine,
    with nothing else scheduled while the probe is awaited.  A field of the
    request body that is missing is [None]; console lines of the route are
    left out.  The reconnection of line 530 is started and not awaited: its
    task is returned with the response. *)
Inductive SendGuard :=
| SendRefused (r : Response)
| SendProceeds (c : Engine) (chatId message : string).

Definition given (field : option string) : option string :=
  match field with
  | Some s => if truthy s then Some s else None
  | None => None
  end.

(** [to.includes('@')] *)
Fixpoint includes_at (s : string) : bool :=
  match s with
  | EmptyString => false
  | String a s' => Ascii.eqb a "@" || includes_at s'
  end.

(** Lines 542-545. *)
Definition chat_id (to : string) : string :=
  if includes_at to then to else to +:+ "@c.us".

Definition unhealthy_response : Response :=
  JsonError 503
    "Session is not healthy, reconnection in progress. Please try again in a moment."
    None.

Definition sendMessage_guard (sid : SessionId) (to message : option string)
    (probe : Outcome) (now : Z) (st : Manager)
    : Manager * SendGuard * option ReconnectTask :=
  if negb (truthy sid) then
    (st, SendRefused (JsonError 400 "Session ID required" None), None)
  else
    match given to with
    | None => (st, SendRefused (JsonError 400 "Recipient (to) required" None), None)
    | Some recipient =>
        match given message with
        | None => (st, SendRefused (JsonError 400 "Message required" None), None)
        | Some text =>
            match get_session st sid with
            | None => (st, SendRefused (JsonError 404 "Session not found" None), None)
            | Some (l, r) =>
                match client r with
                | Some c =>
                    if negb (isReady r) then
                      (st, SendRefused (JsonError 400 "WhatsApp client not ready" None),
                       None)
                    else if isSessionHealthy sid probe st then
                      (update l (set_lastActivity now) st,
                       SendProceeds c (chat_id recipient) text, None)
                    else
                      let '(st1, t) := reconnectSession_start sid false false st in
                      (st1, SendRefused unhealthy_response, Some t)
                | None =>
                    (st, SendRefused (JsonError 400 "WhatsApp client not ready" None),
                     None)
                end
            end
        end
    end.

(** The calls of the two initialisers among the effects. *)
Definition is_init_call (e : Effect) : bool :=
  match e with
  | CallInitializeClient _ | CallInitializeClientFallback _ => true
  | _ => false
  end.

(** The effects [es] have been added, none of them a call of an
    initialiser. *)
Definition adds_no_init_call (st st' : Manager) : Prop :=
  exists es, trace st' = trace st ++ es /\ count_effects is_init_call es = 0.

(** The record a reconnection without callbacks leaves behind. *)
Definition reset_record (r : Session) : Session :=
  set_reconnecting false (reset_session r).

(** ** Graceful shutdown (server.js, [shutdown], lines 111-125)

    [destroySession] is called on every id registered when the shutdown
    begins, and the calls are awaited together; [os] gives, per call, the
    outcomes of its teardown and of its directory removal.  The pending
    calls settle in the order in which they were made. *)
Fixpoint shutdown_start (ids : list SessionId) (st : Manager)
    : Manager * list (SessionId * DestroyTask) :=
  match ids with
  | [] => (st, [])
  | sid :: rest =>
      let '(st1, t) := destroySession_start sid st in
      let '(st2, ts) := shutdown_start rest st1 in
      (st2, (sid, t) :: ts)
  end.

Definition shutdown (os : list (Outcome * Outcome)) (st : Manager) : Manager :=
  let '(st1, ts) := shutdown_start (map_to_list (sessions st)).*1 st in
  settle_destroys ts os st1.

(** A pending call that will unregister its session when its teardown
    resolves, or whose session is unregistered already. *)
Definition unregisters (st : Manager) (p : SessionId * DestroyTask) : Prop :=
  sessions st !! fst p = None
  \/ exists l, snd p = DestroyAwaitTeardown (fst p) l /\ l < length (heap st).
(** * Properties *)

(** ** Steps that leave the registry's keys and the generator alone *)

Lemma created_ids_app t1 t2 :
  created_ids (t1 ++ t2) = created_ids t1 ++ created_ids t2.
Proof.
  induction t1 as [|e t1 IH]; [done|].
  destruct e as [[]| | | | | | | | |]; simpl; by rewrite ?IH.
Qed.

Lemma quiet_refl st : quiet st st.
Proof. by split. Qed.

Lemma quiet_trans st1 st2 st3 : quiet st1 st2 -> quiet st2 st3 -> quiet st1 st3.
Proof.
  intros [] []; split; try congruence; try (etrans; eassumption).
Qed.

Lemma quiet_effects es st : created_ids es = [] -> quiet st (effects es st).
Proof.
  intros H; split; simpl; try done.
  by rewrite created_ids_app, H, app_nil_r.
Qed.

Lemma quiet_effect e st : created_ids [e] = [] -> quiet st (effect e st).
Proof. apply quiet_effects. Qed.

Lemma quiet_console l st :
  (forall sid uid, l <> LogCreatedSession sid uid) -> quiet st (console l st).
Proof.
  intros H. apply quiet_effects. destruct l; try done. by destruct (H sid uid).
Qed.

Lemma quiet_emit_if_io sid ev args st : quiet st (emit_if_io sid ev args st).
Proof.
  unfold emit_if_io. destruct (io st); [by apply quiet_effect | apply quiet_refl].
Qed.

Lemma quiet_update l f st : quiet st (update l f st).
Proof. split; simpl; try done. by rewrite length_alter. Qed.

Lemma quiet_with_heap_insert l s st : quiet st (with_heap (<[l := s]> (heap st)) st).
Proof. split; simpl; try done. by rewrite length_insert. Qed.

Lemma quiet_with_engines e st : quiet st (with_engines e st).
Proof. by split. Qed.

Lemma quiet_with_io b st : quiet st (with_io b st).
Proof. by split. Qed.

Lemma quiet_delete_session sid st :
  quiet st (with_sessions (delete sid (sessions st)) st).
Proof. split; simpl; try done. apply delete_subseteq. Qed.

Lemma quiet_delete_user uid st :
  quiet st (with_userSessions (delete uid (userSessions st)) st).
Proof. split; simpl; try done. apply delete_subseteq. Qed.

(** Chains the builders of a step: each layer of the resulting manager is
    one of the quiet ones above. *)
Ltac quiet_chain :=
  repeat first
    [ apply quiet_refl
    | eapply quiet_trans; [|first
        [ apply quiet_update | apply quiet_emit_if_io | apply quiet_with_heap_insert
        | apply quiet_with_engines | apply quiet_with_io | apply quiet_delete_session
        | apply quiet_delete_user
        | apply quiet_console; intros; discriminate
        | apply quiet_effect; reflexivity
        | apply quiet_effects; reflexivity ]] ].

Lemma quiet_destroy_remove sid l st : quiet st (fst (destroy_remove sid l st)).
Proof.
  unfold destroy_remove. destruct (heap st !! l); cbn [fst snd]; quiet_chain.
Qed.

Lemma quiet_destroySession_start sid st : quiet st (fst (destroySession_start sid st)).
Proof.
  unfold destroySession_start.
  destruct (get_session st sid) as [[l r]|]; [|apply quiet_refl].
  destruct (client r); [cbn [fst snd]; quiet_chain | apply quiet_destroy_remove].
Qed.

Lemma quiet_destroySession_resume t o st :
  quiet st (fst (destroySession_resume t o st)).
Proof.
  unfold destroySession_resume.
  destruct t as [sid l|sid l|]; cbn [fst snd]; [| |apply quiet_refl].
  - destruct o; [apply quiet_destroy_remove | cbn [fst snd]; quiet_chain].
  - destruct o; quiet_chain.
Qed.

Lemma quiet_reconnect_reset sid l init fb st :
  quiet st (fst (reconnect_reset sid l init fb st)).
Proof. unfold reconnect_reset. destruct init; cbn [fst snd]; quiet_chain. Qed.

Lemma quiet_reconnect_failed sid l fb e st :
  quiet st (fst (reconnect_failed sid l fb e st)).
Proof. unfold reconnect_failed. destruct fb; cbn [fst snd]; quiet_chain. Qed.

Lemma quiet_reconnectSession_start sid init fb st :
  quiet st (fst (reconnectSession_start sid init fb st)).
Proof.
  unfold reconnectSession_start.
  destruct (get_session st sid) as [[l r]|]; [|cbn [fst snd]; quiet_chain].
  destruct (reconnecting r); [cbn [fst snd]; quiet_chain|].
  unfold reconnect_attempt, reconnect_mark.
  destruct (client r); cbn [fst snd].
  - quiet_chain.
  - eapply quiet_trans; [|apply quiet_reconnect_reset]. quiet_chain.
Qed.

Lemma quiet_reconnectSession_resume t o st :
  quiet st (fst (reconnectSession_resume t o st)).
Proof.
  unfold reconnectSession_resume.
  destruct t as [sid l init fb|sid l fb|sid l|]; cbn [fst snd]; [| | |apply quiet_refl].
  - eapply quiet_trans; [|apply quiet_reconnect_reset]. destruct o; quiet_chain.
  - destruct o; [cbn [fst snd]; quiet_chain | apply quiet_reconnect_failed].
  - destruct o; cbn [fst snd]; quiet_chain.
Qed.

Lemma quiet_attach_engine sid l t0 fb st : quiet st (snd (attach_engine sid l t0 fb st)).
Proof. unfold attach_engine; cbn [fst snd]. quiet_chain. Qed.

Lemma quiet_init_give_up sid l e st : quiet st (fst (init_give_up sid l e st)).
Proof. unfold init_give_up; cbn [fst snd]. quiet_chain. Qed.

Lemma quiet_initializeClient_start sid now st :
  quiet st (fst (initializeClient_start sid now st)).
Proof.
  unfold initializeClient_start.
  destruct (get_session st sid) as [[l r]|]; cbn [fst snd]; quiet_chain.
Qed.

Lemma quiet_initializeClientFallback_start sid st :
  quiet st (fst (initializeClientFallback_start sid st)).
Proof.
  unfold initializeClientFallback_start.
  destruct (get_session st sid) as [[l r]|]; cbn [fst snd]; quiet_chain.
Qed.

Lemma quiet_initialize_resume t o now st :
  quiet st (fst (initialize_resume t o now st)).
Proof.
  unfold initialize_resume.
  destruct t as [sid l t0|sid l t0|sid l t0 c|sid l t0 e|sid l|sid l c|c|e]; cbn [fst snd];
    try apply quiet_refl.
  - destruct o; cbn [fst snd]; quiet_chain.
  - pose proof (quiet_attach_engine sid l t0 false st) as H.
    destruct (attach_engine sid l t0 false st) as [c st1]; cbn [fst snd] in *.
    eapply quiet_trans; [exact H|]. quiet_chain.
  - destruct o; cbn [fst snd]; [quiet_chain|].
    match goal with |- context [heap ?s !! l ≫= client] =>
      destruct (heap s !! l ≫= client) end; cbn [fst snd].
    + quiet_chain.
    + eapply quiet_trans; [|apply quiet_init_give_up]. quiet_chain.
  - apply quiet_init_give_up.
  - destruct o; cbn [fst snd]; [|quiet_chain].
    match goal with |- context [attach_engine sid l now true ?s] =>
      pose proof (quiet_attach_engine sid l now true s) as H;
      destruct (attach_engine sid l now true s) as [c st1] end; cbn [fst snd] in *.
    eapply quiet_trans; [|eapply quiet_trans; [exact H|]]; quiet_chain.
  - destruct o; cbn [fst snd]; quiet_chain.
Qed.

Lemma quiet_startSession_start req st : quiet st (fst (startSession_start req st)).
Proof.
  unfold startSession_start.
  destruct req as [sid|]; [|apply quiet_refl].
  destruct (negb (truthy sid)); [apply quiet_refl|].
  destruct (get_session _ sid) as [[l r]|]; [|cbn [fst snd]; quiet_chain].
  destruct (negb _); [cbn [fst snd]; quiet_chain|].
  destruct (client r); cbn [fst snd]; quiet_chain.
Qed.

Lemma quiet_startSession_resume t o now st :
  quiet st (fst (fst (startSession_resume t o now st))).
Proof.
  unfold startSession_resume.
  destruct t as [sid|sid|sid|r].
  - pose proof (quiet_initializeClient_start sid now st) as H.
    by destruct (initializeClient_start sid now st).
  - destruct o; [cbn [fst snd]; quiet_chain|].
    match goal with |- context [initializeClientFallback_start sid ?s] =>
      pose proof (quiet_initializeClientFallback_start sid s) as H;
      destruct (initializeClientFallback_start sid s) end; cbn [fst snd] in *.
    eapply quiet_trans; [|exact H]. quiet_chain.
  - destruct o; cbn [fst snd]; quiet_chain.
  - apply quiet_refl.
Qed.

Lemma handler_creates_nothing env now ev s :
  created_ids (snd (handler_of env now ev s)) = [].
Proof.
  unfold handler_of.
  destruct (env_fallback env), ev as [[u|e]|w| | | | |]; try reflexivity;
    unfold on_ready, on_authenticated, on_disconnected, timeSinceReady;
    repeat case_match; reflexivity.
Qed.

Lemma quiet_engine_event c ev now st : quiet st (engine_event c ev now st).
Proof.
  unfold engine_event.
  destruct (engines st !! c) as [env|]; [|apply quiet_refl].
  destruct (heap st !! env_session env) as [s|]; [|apply quiet_refl].
  pose proof (handler_creates_nothing env now ev s) as H.
  destruct (handler_of env now ev s) as [s' es]; cbn [snd] in H.
  eapply quiet_trans; [apply quiet_with_heap_insert | by apply quiet_effects].
Qed.

Lemma quiet_sweep_loop reap line entries st :
  (forall sid r sid' uid, line sid r <> LogCreatedSession sid' uid) ->
  quiet st (fst (sweep_loop reap line entries st)).
Proof.
  intros Hline. revert st.
  induction entries as [|[sid l] rest IH]; intros st; [apply quiet_refl|].
  cbn [sweep_loop].
  destruct (get_session st sid) as [[l' r]|]; [|apply IH].
  destruct (reap r); [|apply IH].
  match goal with |- context [destroySession_start sid ?s] =>
    pose proof (quiet_destroySession_start sid s) as H;
    destruct (destroySession_start sid s) as [st1 t] end; cbn [fst] in H.
  specialize (IH st1). destruct (sweep_loop reap line rest st1) as [st2 ts].
  cbn [fst] in *.
  eapply quiet_trans; [|exact IH]. eapply quiet_trans; [|exact H].
  apply quiet_console. intros; apply Hline.
Qed.

Lemma quiet_cleanupInactiveSessions now st :
  quiet st (fst (cleanupInactiveSessions now st)).
Proof. apply quiet_sweep_loop. discriminate. Qed.

Lemma quiet_cleanupUnfinishedSessions now st :
  quiet st (fst (cleanupUnfinishedSessions now st)).
Proof.
  unfold cleanupUnfinishedSessions.
  match goal with |- context [sweep_loop ?p ?f ?es st] =>
    pose proof (quiet_sweep_loop p f es st) as H;
    destruct (sweep_loop p f es st) as [st1 ts] end; cbn [fst] in *.
  eapply quiet_trans; [apply H; discriminate|].
  case_bool_decide; quiet_chain.
Qed.

Lemma quiet_touch_activity sid now st : quiet st (touch_activity sid now st).
Proof.
  unfold touch_activity. destruct (get_session st sid) as [[l r]|]; quiet_chain.
Qed.

Lemma quiet_debug_cleanup sid uid st : quiet st (debug_cleanup sid uid st).
Proof.
  unfold debug_cleanup.
  eapply quiet_trans; [|apply quiet_console; discriminate].
  split; simpl; try done; apply delete_subseteq.
Qed.

(** Every step but [getOrCreateSession] is quiet. *)
Lemma quiet_exec c st :
  (forall uid dev now, c <> CallGetOrCreateSession uid dev now) ->
  quiet st (exec c st).
Proof.
  intros Hc. destruct c; cbn [exec].
  - by destruct (Hc uid dev now).
  - apply quiet_destroySession_start.
  - apply quiet_destroySession_resume.
  - apply quiet_reconnectSession_start.
  - apply quiet_reconnectSession_resume.
  - apply quiet_initializeClient_start.
  - apply quiet_initializeClientFallback_start.
  - apply quiet_initialize_resume.
  - apply quiet_startSession_start.
  - apply quiet_startSession_resume.
  - apply quiet_engine_event.
  - apply quiet_cleanupInactiveSessions.
  - apply quiet_cleanupUnfinishedSessions.
  - apply quiet_touch_activity.
  - apply quiet_debug_cleanup.
  - apply quiet_with_io.
Qed.

(** ** The registry invariant *)

Lemma registry_ok_quiet st st' : quiet st st' -> registry_ok st -> registry_ok st'.
Proof.
  intros [Hs Hc Hm Hu Hh Ht] [Hinj Hses Husr Hcr].
  assert (Hi : issued st' = issued st) by (unfold issued; by rewrite Hs, Hc).
  split.
  - by rewrite Hs.
  - intros sid l Hl. rewrite Hi.
    eapply lookup_weaken in Hl; [|exact Hm].
    destruct (Hses _ _ Hl). split; [done|lia].
  - intros uid sid Hl. rewrite Hi. eapply Husr, lookup_weaken; eauto.
  - by rewrite Hi, Ht.
Qed.

Lemma issued_next st :
  issued (with_uuid_calls (S (uuid_calls st)) st)
  = issued st ++ [uuid_stream st (uuid_calls st)].
Proof.
  unfold issued, with_uuid_calls; cbn [uuid_calls uuid_stream].
  by rewrite seq_S, fmap_app.
Qed.

Lemma fresh_not_issued st :
  Inj (=) (=) (uuid_stream st) -> uuid_stream st (uuid_calls st) ∉ issued st.
Proof.
  intros Hinj Hin. unfold issued in Hin.
  apply list_elem_of_fmap in Hin as (n & Heq & Hn).
  apply Hinj in Heq. subst n. apply elem_of_seq in Hn. lia.
Qed.

Lemma quiet_supersede uid st : quiet st (fst (supersede uid st)).
Proof.
  unfold supersede.
  destruct (userSessions st !! uid) as [existing|]; [|apply quiet_refl].
  destruct (truthy existing && _); [|apply quiet_refl].
  match goal with |- context [destroySession_start existing ?s] =>
    pose proof (quiet_destroySession_start existing s) as H;
    destruct (destroySession_start existing s) as [st1 t] end; cbn [fst] in *.
  eapply quiet_trans; [|apply quiet_delete_user].
  eapply quiet_trans; [|exact H]. quiet_chain.
Qed.

(** What [register_new] leaves behind. *)
Lemma register_new_spec uid dev now st :
  let sid := uuid_stream st (uuid_calls st) in
  let st' := snd (register_new uid dev now st) in
  fst (register_new uid dev now st) = sid /\
  sessions st' = <[sid := length (heap st)]> (sessions st) /\
  userSessions st' = <[uid := sid]> (userSessions st) /\
  heap st' = heap st ++ [new_session uid dev now] /\
  trace st' = trace st ++ [Console (LogCreatedSession sid uid)] /\
  uuid_stream st' = uuid_stream st /\
  issued st' = issued st ++ [sid].
Proof. cbn. repeat split. apply issued_next. Qed.

Lemma registry_ok_register_new uid dev now st :
  registry_ok st -> registry_ok (snd (register_new uid dev now st)).
Proof.
  intros [Hinj Hses Husr Hcr].
  destruct (register_new_spec uid dev now st) as (_ & Hs & Hu & Hh & Ht & Hg & Hi).
  split.
  - by rewrite Hg.
  - intros sid l. rewrite Hs, Hh, Hi, length_app. cbn [length].
    destruct (decide (uuid_stream st (uuid_calls st) = sid)) as [<-|Hne].
    + rewrite lookup_insert_eq. intros [= <-].
      split; [apply elem_of_app; right; apply list_elem_of_singleton; done|lia].
    + rewrite lookup_insert_ne by done. intros Hl.
      destruct (Hses _ _ Hl). split; [apply elem_of_app; by left|lia].
  - intros u sid. rewrite Hu, Hi.
    destruct (decide (uid = u)) as [<-|Hne].
    + rewrite lookup_insert_eq. intros [= <-].
      apply elem_of_app; right; apply list_elem_of_singleton; done.
    + rewrite lookup_insert_ne by done. intros Hl. specialize (Husr _ _ Hl).
      apply elem_of_app; by left.
  - rewrite Ht, Hi, created_ids_app, Hcr. done.
Qed.

Lemma getOrCreateSession_unfold uid dev now st :
  getOrCreateSession uid dev now st
  = (fst (register_new uid dev now (fst (supersede uid st))),
     snd (register_new uid dev now (fst (supersede uid st))),
     snd (supersede uid st)).
Proof.
  unfold getOrCreateSession. destruct (supersede uid st) as [st1 p]; cbn [fst snd].
  by destruct (register_new uid dev now st1).
Qed.

Lemma registry_ok_new gen io_set : Inj (=) (=) gen -> registry_ok (new_manager gen io_set).
Proof. intros Hinj. split; try done. Qed.

Lemma reachable_registry_ok st : reachable st -> registry_ok st.
Proof.
  induction 1 as [gen b Hinj|st c _ IH]; [by apply registry_ok_new|].
  destruct c; try (eapply registry_ok_quiet; [apply quiet_exec; discriminate|done]).
  cbn [exec]. rewrite getOrCreateSession_unfold; cbn [fst snd].
  apply registry_ok_register_new.
  eapply registry_ok_quiet; [apply quiet_supersede|done].
Qed.

(** C1. In any manager, two registered records of one user that are both
    the current session of that user are the same session; and in every
    manager a running server can be in, [getOrCreateSession(u, deviceInfo)]
    returns an id that no earlier call returned, leaves nothing of the
    mapping [u] had before, and has the new record in the session map and
    in the user map when it returns. *)
Theorem getOrCreateSession_fresh_and_registered
    (st : Manager) (u : UserId) (dev : DeviceInfo) (now : Z)
    (sid : SessionId) (st' : Manager) (pending : option DestroyTask) :
  reachable st ->
  getOrCreateSession u dev now st = (sid, st', pending) ->
  (forall m s1 s2 l1 l2 r1 r2,
     get_session m s1 = Some (l1, r1) -> get_session m s2 = Some (l2, r2) ->
     userId r1 = userId r2 ->
     isUserSessionCurrent m s1 = true -> isUserSessionCurrent m s2 = true ->
     s1 = s2)
  /\ sid = uuid_stream st (uuid_calls st)
  /\ (sid ∉ created_ids (trace st))
  /\ created_ids (trace st') = created_ids (trace st) ++ [sid]
  /\ (forall old, userSessions st !! u = Some old -> userSessions st' !! u <> Some old)
  /\ (exists l, sessions st' !! sid = Some l /\
                heap st' !! l = Some (new_session u dev now))
  /\ userSessions st' !! u = Some sid
  /\ isUserSessionCurrent st' sid = true.
Proof.
  intros Hreach Hcall.
  rewrite getOrCreateSession_unfold in Hcall.
  apply pair_equal_spec in Hcall as [Hcall _].
  apply pair_equal_spec in Hcall as [Hsid Hst'].
  pose proof (reachable_registry_ok _ Hreach) as Hok.
  pose proof (quiet_supersede u st) as Hq.
  pose proof (registry_ok_quiet _ _ Hq Hok) as Hok1.
  destruct (register_new_spec u dev now (fst (supersede u st)))
    as (Hid & Hs & Hu & Hh & Ht & Hg & Hi).
  rewrite Hsid in Hid. rewrite Hst' in Hs, Hu, Hh, Ht, Hg, Hi.
  rewrite (quiet_stream _ _ Hq), (quiet_calls _ _ Hq) in Hid.
  assert (Hfresh : sid ∉ issued st).
  { rewrite Hid. apply fresh_not_issued, Hok. }
  assert (Hsidq : uuid_stream (fst (supersede u st)) (uuid_calls (fst (supersede u st))) = sid).
  { by rewrite (quiet_stream _ _ Hq), (quiet_calls _ _ Hq). }
  rewrite Hsidq in Hs, Hu, Ht, Hi.
  assert (Hlook : sessions st' !! sid = Some (length (heap (fst (supersede u st))))).
  { rewrite Hs. apply lookup_insert_eq. }
  assert (Hrec : heap st' !! length (heap (fst (supersede u st)))
                 = Some (new_session u dev now)).
  { rewrite Hh. by rewrite lookup_app_r, Nat.sub_diag by lia. }
  assert (Hcur : userSessions st' !! u = Some sid).
  { rewrite Hu. apply lookup_insert_eq. }
  split; [|repeat split].
  - intros m s1 s2 l1 l2 r1 r2 H1 H2 Hsame.
    unfold isUserSessionCurrent. rewrite H1, H2, !bool_decide_eq_true. congruence.
  - done.
  - by rewrite (ok_created _ Hok).
  - rewrite Ht, created_ids_app, (quiet_created _ _ Hq). done.
  - intros old Hold. rewrite Hcur. intros [= ->].
    apply Hfresh. eapply ok_users; eauto.
  - eauto.
  - done.
  - unfold isUserSessionCurrent, get_session. rewrite Hlook, Hrec. cbn.
    by rewrite Hcur, bool_decide_eq_true.
Qed.

Lemma demo_uuid_inj : Inj (=) (=) demo_uuid.
Proof.
  intros x y H. unfold demo_uuid in H. cbn in H.
  injection H as H. by apply (inj pretty).
Qed.

Lemma st_created_reachable : reachable st_created.
Proof. apply reachable_exec, reachable_new, demo_uuid_inj. Qed.

Lemma getOrCreateSession_fresh_and_registered_witness :
  ("session-1" ∉ created_ids (trace st_created))
  /\ userSessions st_created !! "u" = Some "session-0"
  /\ userSessions (exec (CallGetOrCreateSession "u" "tablet" 5000) st_created) !! "u"
     = Some "session-1".
Proof.
  pose proof (getOrCreateSession_fresh_and_registered st_created "u" "tablet" 5000
                "session-1"
                (exec (CallGetOrCreateSession "u" "tablet" 5000) st_created)
                (Some (DestroyAwaitRm "session-0" 0))
                st_created_reachable eq_refl)
    as (_ & _ & Hfresh & _ & _ & _ & Hcur & _).
  split; [exact Hfresh|]. split; [reflexivity|exact Hcur].
Defined.

(** When the teardown that [getOrCreateSession] left pending for the old
    session resolves, line 275 deletes the entry of the record's user, which
    by then is the entry of the new session: the user is left without a
    current session, and a start request on the new session is refused. *)
Example pending_teardown_unmaps_new_session :
  let st := fst (destroySession_resume (DestroyAwaitTeardown "session-0" 0) Resolved
                   st_superseded) in
  userSessions st_superseded !! "u" = Some "session-1"
  /\ userSessions st !! "u" = None
  /\ sessions st !! "session-1" = Some 1
  /\ snd (startSession_start (Some "session-1") st)
     = StartResponded (JsonError 410 "This session has been replaced by a newer session"
                                 None).
Proof. repeat split. Qed.

(** ** Engine handle and lifecycle state *)

Lemma handlers_keep_client sid t0 now :
  (forall d s, client (fst (on_qr sid t0 now d s)) = client s) /\
  (forall w s, client (fst (on_ready sid t0 now w s)) = client s) /\
  (forall s, client (fst (on_authenticated sid t0 now s)) = client s) /\
  (forall r s, client (fst (on_disconnected sid t0 now r s)) = client s).
Proof.
  split; [|split; [|split]].
  - intros [u|e] s; reflexivity.
  - intros w s. unfold on_ready. destruct (isReady s), w; reflexivity.
  - intros s. unfold on_authenticated. destruct (isAuthenticated s); reflexivity.
  - intros r s. reflexivity.
Qed.

(** The record of the scenario, once the engine reports a disconnect. *)
Lemma disconnected_record_in_scenario :
  heap (engine_event 0 (EvDisconnected "LOGOUT") 137000 st_ready) !! 0
  = Some disconnected_record.
Proof. reflexivity. Qed.

Lemma disconnected_record_tracked : tracked disconnected_record DISCONNECTED.
Proof.
  exact (tracked_disconnected _ "session-0" 2000%Z 137000%Z "LOGOUT"
    (tracked_ready _ _ "session-0" 2000%Z 132000%Z (Some "491700000000")
      (tracked_authenticated _ "session-0" 2000%Z 130000%Z
        (tracked_start _ 0 (tracked_created "u" "device" 1000%Z)))
      (or_intror eq_refl))).
Qed.




(** Reduces the builders of a manager under its projections. *)
Ltac mgr_simpl :=
  unfold emit_if_io, console, effect, effects, update,
    with_heap, with_sessions, with_userSessions, with_io, with_trace,
    with_uuid_calls, with_engines in *;
  cbn [heap sessions userSessions io trace uuid_stream uuid_calls engines fst snd] in *.

(** ** destroySession *)

Lemma get_session_Some st sid l r :
  get_session st sid = Some (l, r) <-> sessions st !! sid = Some l /\ heap st !! l = Some r.
Proof.
  unfold get_session. split.
  - destruct (sessions st !! sid) as [l'|]; [|done].
    destruct (heap st !! l') as [r'|] eqn:E; [|done]. by intros [= <- <-].
  - by intros [-> ->].
Qed.

Lemma get_session_None_of_sessions st sid :
  sessions st !! sid = None -> get_session st sid = None.
Proof. unfold get_session. by intros ->. Qed.

Lemma destroySession_unregistered sid teardown rm st :
  get_session st sid = None -> destroySession sid teardown rm st = st.
Proof. intros H. unfold destroySession, destroySession_start. by rewrite H. Qed.

(** The teardown resolves, or there is no engine to tear down: the record
    leaves both maps, the directory is removed and the terminal event is
    published, whatever [fs.rm] answers. *)
Lemma destroySession_resolved sid l r rm st :
  get_session st sid = Some (l, r) ->
  let st' := destroySession sid Resolved rm st in
  sessions st' = delete sid (sessions st) /\
  userSessions st' = delete (userId r) (userSessions st) /\
  heap st' = heap st /\
  trace st' =
    trace st
    ++ match client r with Some c => [ClientDestroy c] | None => [] end
    ++ [FsRm (session_data_path sid);
        Console (match rm with
                 | Resolved => LogDeletedFolder sid
                 | Rejected e => LogCouldNotDeleteFolder sid e
                 end)]
    ++ (if io st then [Emit sid "session_destroyed" []] else []).
Proof.
  intros Hget. pose proof Hget as [Hs Hh]%get_session_Some.
  unfold destroySession, destroySession_start. rewrite Hget.
  destruct (client r) as [c|];
    unfold destroySession_resume, destroy_remove; mgr_simpl; rewrite Hh; mgr_simpl;
    destruct rm, (io st); mgr_simpl; rewrite <- ?app_assoc; done.
Qed.

(** The teardown rejects: the outer catch prints the error and the function
    returns, with the record still in both maps. *)
Lemma destroySession_teardown_rejected sid l r c e rm st :
  get_session st sid = Some (l, r) -> client r = Some c ->
  destroySession sid (Rejected e) rm st
  = console (LogErrorDestroyingSession sid e) (effect (ClientDestroy c) st).
Proof.
  intros Hget Hc. unfold destroySession, destroySession_start.
  rewrite Hget, Hc. reflexivity.
Qed.

(** Once a call has removed the record, a second call changes nothing. *)
Lemma destroySession_again sid rm teardown2 rm2 st :
  destroySession sid teardown2 rm2 (destroySession sid Resolved rm st)
  = destroySession sid Resolved rm st.
Proof.
  destruct (get_session st sid) as [[l r]|] eqn:Hget.
  - apply destroySession_unregistered, get_session_None_of_sessions.
    destruct (destroySession_resolved sid l r rm st Hget) as (-> & _).
    apply lookup_delete_eq.
  - rewrite (destroySession_unregistered sid Resolved rm st Hget).
    by apply destroySession_unregistered.
Qed.

(** C3, at the failing input: the first session of the scenario is
    registered with engine 0 attached and a socket server present; its
    [destroy()] rejects.  [destroySession] prints the error and returns:
    the id is still in the session map, the user still maps to it, no
    directory removal was attempted and no ['session_destroyed'] event was
    published. *)
Theorem destroySession_failed_teardown_keeps_session :
  let st := destroySession "session-0" (Rejected "Target closed") Resolved st_ready in
  get_session st_ready "session-0" = Some (0, mkSession (Some 0) true true None "u" "device"
                                             130000 (Some "491700000000") false)
  /\ io st_ready = true
  /\ sessions st !! "session-0" = Some 0
  /\ userSessions st !! "u" = Some "session-0"
  /\ trace st = trace st_ready
                ++ [ClientDestroy 0;
                    Console (LogErrorDestroyingSession "session-0" "Target closed")]
  /\ count_effects (is_rm "session-0") (trace st) = 0
  /\ count_effects (is_emit "session-0" "session_destroyed") (trace st) = 0.
Proof. repeat split; reflexivity. Qed.

(** C4, at the failing input: the same session, whose [destroy()] rejects
    on the first call and resolves on the second.  The second call finds the
    record, tears the engine down again, and only then removes the record:
    two teardowns for two calls. *)
Theorem destroySession_twice_after_failed_teardown :
  let st1 := destroySession "session-0" (Rejected "Target closed") Resolved st_ready in
  let st2 := destroySession "session-0" Resolved Resolved st1 in
  get_session st1 "session-0" <> None
  /\ count_effects (is_teardown 0) (trace st_ready) = 0
  /\ count_effects (is_teardown 0) (trace st1) = 1
  /\ count_effects (is_teardown 0) (trace st2) = 2
  /\ trace st2 = trace st1
                 ++ [ClientDestroy 0; FsRm "data/session-0";
                     Console (LogDeletedFolder "session-0");
                     Emit "session-0" "session_destroyed" []]
  /\ sessions st2 !! "session-0" = None.
Proof. repeat split; try reflexivity. discriminate. Qed.

(** ** reconnectSession *)

Lemma heap_grows_exec c st : length (heap st) ≤ length (heap (exec c st)).
Proof.
  destruct c; try (apply quiet_heap, quiet_exec; discriminate).
  cbn [exec]. rewrite getOrCreateSession_unfold; cbn [fst snd].
  destruct (register_new_spec uid dev now (fst (supersede uid st)))
    as (_ & _ & _ & -> & _).
  rewrite length_app. pose proof (quiet_heap _ _ (quiet_supersede uid st)). lia.
Qed.

Lemma heap_grows_run_calls cs st : length (heap st) ≤ length (heap (run_calls cs st)).
Proof.
  revert st. induction cs as [|c cs IH]; intros st; [done|].
  cbn. etrans; [apply (heap_grows_exec c)|apply IH].
Qed.

Lemma field_update {A} (f : Session -> A) g l st :
  field f l (update l g st) = f <$> (g <$> heap st !! l).
Proof. unfold field, update; cbn. by rewrite list_lookup_alter_eq. Qed.

Lemma field_written {A} (f : Session -> A) g l st v :
  l < length (heap st) -> (forall s, f (g s) = v) ->
  field f l (update l g st) = Some v.
Proof.
  intros Hl Hv. rewrite field_update.
  destruct (lookup_lt_is_Some_2 _ _ Hl) as [s ->]. cbn. by rewrite Hv.
Qed.

Lemma reconnect_resume_returns t o st st' l :
  reconnect_loc t = Some l -> l < length (heap st) ->
  reconnectSession_resume t o st = (st', ReconnectReturned) ->
  field reconnecting l st' = Some false.
Proof.
  intros Hloc Hl.
  destruct t as [sid l' init fb|sid l' fb|sid l'|]; cbn in Hloc; [| | |done];
    injection Hloc as ->; unfold reconnectSession_resume.
  - unfold reconnect_reset. destruct init; [discriminate|].
    intros [= <-]. apply field_written; [|done].
    destruct o; mgr_simpl; destruct (io st); mgr_simpl; by rewrite length_alter.
  - destruct o.
    + intros [= <-]. by apply field_written.
    + unfold reconnect_failed. destruct fb; [discriminate|].
      intros [= <-]. apply field_written; [|done].
      mgr_simpl; by destruct (io st).
  - destruct o; intros [= <-]; apply field_written; try done.
    mgr_simpl; by destruct (io st).
Qed.

Lemma reconnect_resume_suspends t o st l :
  reconnect_loc t = Some l ->
  snd (reconnectSession_resume t o st) = ReconnectReturned \/
  reconnect_loc (snd (reconnectSession_resume t o st)) = Some l.
Proof.
  destruct t as [sid l' init fb|sid l' fb|sid l'|]; cbn; [| | |done]; intros [= ->].
  - unfold reconnect_reset. destruct init; cbn; auto.
  - destruct o; cbn; auto. unfold reconnect_failed. destruct fb; cbn; auto.
  - destruct o; cbn; auto.
Qed.

(** However the event loop interleaves other work, a reconnection that was
    let through has cleared the flag when it returns. *)
Lemma finishes_clears_flag p st_end :
  finishes p st_end ->
  forall l, l < length (heap (fst p)) ->
    match snd p with
    | ReconnectReturned => field reconnecting l (fst p) = Some false
    | t => reconnect_loc t = Some l
    end ->
    field reconnecting l st_end = Some false.
Proof.
  induction 1 as [st|st t cs o st_end Hne _ IH]; intros l Hl Hp; cbn in *; [done|].
  assert (Hloc : reconnect_loc t = Some l) by (by destruct t).
  pose proof (heap_grows_run_calls cs st) as Hgrow.
  pose proof (quiet_heap _ _ (quiet_reconnectSession_resume t o (run_calls cs st))) as Hq.
  apply IH; [lia|].
  destruct (reconnectSession_resume t o (run_calls cs st)) as [st' t'] eqn:E; cbn.
  destruct (reconnect_resume_suspends t o (run_calls cs st) l Hloc) as [Hr|Hr];
    rewrite E in Hr; cbn in Hr.
  - subst t'. eapply reconnect_resume_returns; [exact Hloc| |exact E]. lia.
  - by destruct t'.
Qed.

Lemma reconnectSession_start_proceeds st sid l r init fb :
  get_session st sid = Some (l, r) -> reconnecting r = false ->
  reconnectSession_start sid init fb st
  = reconnect_attempt sid l (client r) init fb (reconnect_mark sid l st).
Proof. intros Hget Hflag. unfold reconnectSession_start. by rewrite Hget, Hflag. Qed.

Lemma reconnect_mark_sets_flag st sid l r :
  heap st !! l = Some r ->
  field reconnecting l (reconnect_mark sid l st) = Some true.
Proof.
  intros Hh. unfold reconnect_mark. rewrite field_update. mgr_simpl. by rewrite Hh.
Qed.

(** Replays a run without interleaving, guessing the outcome of each
    awaited call. *)
Ltac replay_run :=
  solve
    [ apply finishes_now
    | eapply (finishes_later _ _ [] Resolved); [discriminate|];
      cbn [run_calls foldl reconnectSession_resume reconnect_reset reconnect_failed
           fst snd]; replay_run
    | eapply (finishes_later _ _ [] (Rejected _)); [discriminate|];
      cbn [run_calls foldl reconnectSession_resume reconnect_reset reconnect_failed
           fst snd]; replay_run ].

(** The sequential run is one way of finishing. *)
Lemma reconnectSession_finishes st sid l r init fb teardown primary fallback :
  get_session st sid = Some (l, r) -> reconnecting r = false ->
  finishes (reconnectSession_start sid init fb st)
           (reconnectSession sid init fb teardown primary fallback st).
Proof.
  intros Hget Hflag. unfold reconnectSession.
  rewrite (reconnectSession_start_proceeds _ _ _ _ _ _ Hget Hflag).
  unfold reconnect_attempt.
  destruct (client r) as [c|], init, fb, teardown, primary, fallback;
    cbn [reconnectSession_resume reconnect_reset reconnect_failed fst snd];
    replay_run.
Qed.

Lemma field_effects {A} (f : Session -> A) l es st :
  field f l (effects es st) = field f l st.
Proof. reflexivity. Qed.

Lemma field_emit_if_io {A} (f : Session -> A) l sid ev args st :
  field f l (emit_if_io sid ev args st) = field f l st.
Proof. unfold emit_if_io. by destruct (io st). Qed.

(** What the start of a call that was let through leaves behind. *)
Lemma reconnectSession_start_state st sid l r init fb :
  get_session st sid = Some (l, r) -> reconnecting r = false ->
  let p := reconnectSession_start sid init fb st in
  l < length (heap (fst p)) /\
  match snd p with
  | ReconnectReturned => field reconnecting l (fst p) = Some false
  | t => reconnect_loc t = Some l /\ field reconnecting l (fst p) = Some true
  end.
Proof.
  intros Hget Hflag p. pose proof Hget as [Hs Hh]%get_session_Some.
  assert (Hl : l < length (heap st)) by (apply lookup_lt_is_Some; eauto).
  split.
  { pose proof (quiet_heap _ _ (quiet_reconnectSession_start sid init fb st)). subst p. lia. }
  subst p. rewrite (reconnectSession_start_proceeds _ _ _ _ _ _ Hget Hflag).
  pose proof (reconnect_mark_sets_flag st sid l r Hh) as Hmark.
  unfold reconnect_attempt. destruct (client r) as [c|]; cbn [fst snd].
  - split; [done|]. exact Hmark.
  - unfold reconnect_reset. destruct init; cbn [fst snd].
    + split; [done|].
      change (effect ?e ?s) with (effects [e] s).
      rewrite field_effects, field_emit_if_io, field_update.
      unfold reconnect_mark. mgr_simpl. rewrite list_lookup_alter_eq, Hh. done.
    + apply field_written; [|done].
      unfold reconnect_mark. mgr_simpl. destruct (io st); mgr_simpl;
        by rewrite !length_alter.
Qed.

(** C5. A call that finds the record's [reconnecting] flag set returns at
    once: it prints one line and performs no teardown, reset or start.  A
    call that finds it clear sets it before anything else, holds it while it
    is suspended, and has cleared it whenever it returns: after the primary
    start, after the fallback start, or after both failed, and whatever else
    the event loop ran meanwhile. *)
Theorem reconnectSession_guarded_by_flag
    (st : Manager) (sid : SessionId) (l : Loc) (r : Session) (init fb : bool) :
  get_session st sid = Some (l, r) ->
  (reconnecting r = true ->
     reconnectSession_start sid init fb st
     = (console (LogAlreadyReconnecting sid) st, ReconnectReturned))
  /\ (reconnecting r = false ->
      field reconnecting l (reconnect_mark sid l st) = Some true
      /\ reconnectSession_start sid init fb st
         = reconnect_attempt sid l (client r) init fb (reconnect_mark sid l st)
      /\ (snd (reconnectSession_start sid init fb st) <> ReconnectReturned ->
          field reconnecting l (fst (reconnectSession_start sid init fb st)) = Some true)
      /\ (forall st_end,
            finishes (reconnectSession_start sid init fb st) st_end ->
            field reconnecting l st_end = Some false)
      /\ (forall teardown primary fallback,
            field reconnecting l
              (reconnectSession sid init fb teardown primary fallback st) = Some false)).
Proof.
  intros Hget. split.
  - intros Hflag. unfold reconnectSession_start. by rewrite Hget, Hflag.
  - intros Hflag. pose proof Hget as [Hs Hh]%get_session_Some.
    destruct (reconnectSession_start_state st sid l r init fb Hget Hflag) as [Hl Hp].
    assert (Hfin : forall st_end,
               finishes (reconnectSession_start sid init fb st) st_end ->
               field reconnecting l st_end = Some false).
    { intros st_end Hf. eapply finishes_clears_flag; [exact Hf|exact Hl|].
      destruct (snd (reconnectSession_start sid init fb st)); tauto. }
    split; [by eapply reconnect_mark_sets_flag|].
    split; [by apply reconnectSession_start_proceeds|].
    split; [|split; [exact Hfin|]].
    + intros Hne. destruct (snd (reconnectSession_start sid init fb st)); tauto.
    + intros teardown primary fallback.
      apply Hfin. by eapply reconnectSession_finishes.
Qed.

Lemma reconnectSession_guarded_by_flag_witness :
  get_session st_ready "session-0"
  = Some (0, mkSession (Some 0) true true None "u" "device" 130000
                       (Some "491700000000") false)
  /\ field reconnecting 0
       (reconnectSession "session-0" true true
          Resolved (Rejected "Initialization timeout after 45 seconds")
          (Rejected "Fallback initialization timeout after 20 seconds") st_ready)
     = Some false.
Proof.
  split; [reflexivity|].
  exact (proj2 (proj2 (proj2 (proj2
           (proj2 (reconnectSession_guarded_by_flag st_ready "session-0" 0 _ true true
                     eq_refl) eq_refl))))
         Resolved (Rejected "Initialization timeout after 45 seconds")
         (Rejected "Fallback initialization timeout after 20 seconds")).
Defined.

(** ** Authentication across a reconnection *)


Lemma heap_emit_if_io sid ev args st : heap (emit_if_io sid ev args st) = heap st.
Proof. unfold emit_if_io. by destruct (io st). Qed.

(** Lines 202-205 on the record at [l]. *)
Lemma reconnect_reset_heap sid l init fb st r0 :
  heap st !! l = Some r0 ->
  heap (fst (reconnect_reset sid l init fb st)) !! l
  = Some (if init then reset_session r0 else set_reconnecting false (reset_session r0)).
Proof.
  intros Hh. unfold reconnect_reset.
  destruct init; cbn [fst].
  - change (heap (effect ?e ?s)) with (heap s).
    rewrite heap_emit_if_io. unfold update; cbn [heap with_heap].
    by rewrite list_lookup_alter_eq, Hh.
  - unfold update at 1; cbn [heap with_heap].
    change (heap (console ?e ?s)) with (heap s).
    rewrite heap_emit_if_io. unfold update; cbn [heap with_heap].
    by rewrite !list_lookup_alter_eq, Hh.
Qed.

Lemma reconnect_reset_fields sid l init fb st r0 :
  heap st !! l = Some r0 ->
  let st1 := fst (reconnect_reset sid l init fb st) in
  field isAuthenticated l st1 = Some false
  /\ field isReady l st1 = Some false
  /\ field client l st1 = Some None
  /\ field qrCode l st1 = Some None.
Proof.
  intros Hh st1. subst st1. unfold field.
  rewrite (reconnect_reset_heap sid l init fb st r0 Hh).
  destruct init; by repeat split.
Qed.



(** ** The disconnect handler *)

(** The handler clears [isReady] and touches nothing else; the anti-bot
    line is printed exactly when the record was ready, the reason is
    ["LOGOUT"], and less than 120000 ms have passed since [startTime], the
    moment [initializeClient] was entered. *)
Lemma on_disconnected_spec sid startTime now reason s :
  let s' := fst (on_disconnected sid startTime now reason s) in
  let es := snd (on_disconnected sid startTime now reason s) in
  s' = set_isReady false s
  /\ isAuthenticated s' = isAuthenticated s
  /\ (count_effects is_anti_bot es = 1 <->
      isReady s = true /\ reason = "LOGOUT" /\ (now - startTime < 120000)%Z)
  /\ (count_effects is_anti_bot es = 0 \/ count_effects is_anti_bot es = 1).
Proof.
  cbn. split; [done|]. split; [done|].
  unfold on_disconnected, timeSinceReady.
  destruct (isReady s); cbn; [|split; [split; [done|by intros [? _]]|by left]].
  destruct (String.eqb_spec reason "LOGOUT") as [->|Hne]; cbn.
  - destruct (Z.ltb_spec (now - startTime) 120000); cbn.
    + split; [|by right]. split; [done|]. done.
    + split; [|by left]. split; [done|]. intros (_ & _ & ?); lia.
  - split; [|by left]. split; [done|]. by intros (_ & ? & _).
Qed.

(** C7, at the failing input: [initializeClient] is entered at 2000, the
    user scans the code and the session is ready at 132000, and the engine
    reports [disconnected("LOGOUT")] at 137000, five seconds after the
    session became ready.  The handler clears [isReady] and keeps
    [isAuthenticated], but measures 135000 ms (from [startTime]) and does not
    print the anti-bot line. *)
Theorem logout_soon_after_late_ready_not_flagged :
  let st := engine_event 0 (EvDisconnected "LOGOUT") 137000 st_ready in
  (env_startTime <$> engines st_ready !! 0) = Some 2000%Z
  /\ last (trace st_ready) = Some (Emit "session-0" "ready" ["491700000000"; "session-0"])
  /\ trace st_ready !! 14 = Some (client_log "session-0" 2000 132000 "Client is ready")
  /\ field isReady 0 st_ready = Some true
  /\ (137000 - 132000 < 120000)%Z
  /\ field isReady 0 st = Some false
  /\ field isAuthenticated 0 st = Some true
  /\ trace st = trace st_ready
                ++ [client_log "session-0" 2000 137000 "Disconnected: LOGOUT";
                    Console (LogDisconnectedAfter "session-0" (Some 135000%Z) "LOGOUT");
                    Console (LogDisconnectedState "session-0" true true);
                    Emit "session-0" "disconnected" ["LOGOUT"]]
  /\ count_effects is_anti_bot (trace st) = 0.
Proof. repeat split; try reflexivity. Qed.

(** The line is printed when the session was ready soon after the start. *)
Example logout_soon_after_quick_ready_flagged :
  count_effects is_anti_bot
    (trace (engine_event 0 (EvDisconnected "LOGOUT") 11000 st_ready_quickly)) = 1.
Proof. reflexivity. Qed.

(** ** The start route *)

(** C8, refuted as stated: in the scenario the first session has engine 0
    attached when the user asks for a session again; a start request on the
    first session is then answered with status 410, not with success. *)
Lemma start_on_superseded_session_refused :
  get_session st_superseded "session-0"
  = Some (0, mkSession (Some 0) true true None "u" "device" 130000
                       (Some "491700000000") false)
  /\ snd (startSession_start (Some "session-0") st_superseded)
     = StartResponded (JsonError 410 "This session has been replaced by a newer session"
                                 (Some "session-1")).
Proof. split; reflexivity. Qed.

Lemma count_effects_app p t1 t2 :
  count_effects p (t1 ++ t2) = count_effects p t1 + count_effects p t2.
Proof. unfold count_effects. by rewrite filter_app, length_app. Qed.

Lemma startSession_start_attached st sid l r c :
  get_session st sid = Some (l, r) -> client r = Some c -> sid <> "" ->
  startSession_start (Some sid) st
  = (console (LogStartSession sid
                (if bool_decide (userSessions st !! userId r = Some sid)
                 then "already has a client"
                 else "Ignoring start-session for old session"))
       (console (LogStartSession sid "Starting session") st),
     StartResponded (already_started_response st sid r)).
Proof.
  intros Hget Hc Hne. unfold startSession_start, already_started_response.
  assert (Ht : truthy sid = true).
  { unfold truthy. apply negb_true_iff. by apply String.eqb_neq. }
  rewrite Ht. cbn [negb].
  assert (Hg : get_session (console (LogStartSession sid "Starting session") st) sid
               = Some (l, r)) by exact Hget.
  rewrite Hg, Hc.
  change (userSessions (console _ st)) with (userSessions st).
  by case_bool_decide.
Qed.

(** C8, amended: a start request on a session that has an engine attached
    never creates an engine and leaves the handle in place; it is answered
    with success ("Session already started") when the session is the current
    one of its user, and with status 410 when it has been superseded.  A
    second request straight after the first is answered the same way. *)
Theorem startSession_with_engine_attached
    (st : Manager) (sid : SessionId) (l : Loc) (r : Session) (c : Engine) :
  get_session st sid = Some (l, r) -> client r = Some c -> sid <> "" ->
  let p1 := startSession_start (Some sid) st in
  let p2 := startSession_start (Some sid) (fst p1) in
  snd p1 = StartResponded (already_started_response st sid r)
  /\ (userSessions st !! userId r = Some sid ->
      snd p1 = StartResponded (Json 200 "Session already started"))
  /\ (userSessions st !! userId r <> Some sid ->
      snd p1 = StartResponded
                 (JsonError 410 "This session has been replaced by a newer session"
                            (userSessions st !! userId r)))
  /\ snd p2 = snd p1
  /\ engines (fst p2) = engines st
  /\ count_effects is_client_new (trace (fst p2)) = count_effects is_client_new (trace st)
  /\ heap (fst p2) = heap st
  /\ field client l (fst p2) = Some (Some c)
  /\ sessions (fst p2) = sessions st
  /\ userSessions (fst p2) = userSessions st.
Proof.
  intros Hget Hc Hne p1 p2. pose proof Hget as [Hs Hh]%get_session_Some.
  assert (H1 : p1 = startSession_start (Some sid) st) by done.
  rewrite (startSession_start_attached st sid l r c Hget Hc Hne) in H1.
  assert (Hget1 : get_session (fst p1) sid = Some (l, r)) by (by rewrite H1).
  assert (H2 : p2 = startSession_start (Some sid) (fst p1)) by done.
  rewrite (startSession_start_attached (fst p1) sid l r c Hget1 Hc Hne) in H2.
  assert (Hu : userSessions (fst p1) = userSessions st) by (by rewrite H1).
  rewrite H2, H1. cbn [fst snd].
  split; [done|]. split.
  { intros Hcur. unfold already_started_response. by rewrite bool_decide_eq_true_2. }
  split.
  { intros Hcur. unfold already_started_response. by rewrite bool_decide_eq_false_2. }
  split.
  { unfold already_started_response. mgr_simpl. done. }
  split; [done|]. split.
  { mgr_simpl. rewrite !count_effects_app.
    change (count_effects is_client_new [Console ?x]) with 0. lia. }
  split; [done|]. split; [|done].
  unfold field. mgr_simpl. rewrite Hh. cbn. by rewrite Hc.
Qed.

Lemma startSession_with_engine_attached_witness :
  snd (startSession_start (Some "session-0") st_ready)
  = StartResponded (Json 200 "Session already started")
  /\ engines (fst (startSession_start (Some "session-0")
                     (fst (startSession_start (Some "session-0") st_ready))))
     = engines st_ready.
Proof.
  pose proof (startSession_with_engine_attached st_ready "session-0" 0 _ 0
                eq_refl eq_refl ltac:(discriminate))
    as (_ & H200 & _ & _ & Heng & _).
  split; [exact (H200 eq_refl)|exact Heng].
Defined.

(** A start request on a current session without an engine creates one. *)
Example startSession_creates_engine :
  length (engines st_created) = 0 /\ length (engines st_started) = 1
  /\ field client 0 st_started = Some (Some 0).
Proof. repeat split. Qed.

(** ** The audio conversion cache *)

Lemma convertAudioToMp3_available buf mime k now run now_end ac :
  ffmpegAvailable (fst (convertAudioToMp3 buf mime k now run now_end ac))
  = ffmpegAvailable ac.
Proof.
  unfold convertAudioToMp3, convert_with_engine.
  destruct (negb (ffmpegAvailable ac)); [done|].
  destruct (audioConversionCache ac !! k) as [e|];
    [destruct (fresh_entry ac now e); [by destruct (files ac !! filePath e)|]|];
    by destruct run.
Qed.

Lemma convertAudioToMp3_unavailable buf mime k now run now_end ac :
  ffmpegAvailable ac = false ->
  fst (convertAudioToMp3 buf mime k now run now_end ac) = ac.
Proof. intros H. unfold convertAudioToMp3. by rewrite H. Qed.

(** Only a converter with a working engine ever holds a cache entry. *)
Lemma cache_needs_engine ac :
  converter_reachable ac ->
  forall k e, audioConversionCache ac !! k = Some e -> ffmpegAvailable ac = true.
Proof.
  induction 1 as [dir b fs|ac buf mime k' now run now_end _ IH|ac now _ IH|ac fs _ IH];
    intros k e Hk.
  - done.
  - rewrite convertAudioToMp3_available.
    destruct (ffmpegAvailable ac) eqn:Hav; [done|].
    rewrite convertAudioToMp3_unavailable in Hk by done. by eapply IH.
  - unfold cleanupAudioCache in Hk. cbn in Hk.
    apply map_lookup_filter_Some in Hk as [Hk _]. cbn. by eapply IH.
  - by eapply IH.
Qed.

Lemma convert_with_engine_spec buf mime k run now_end ac :
  let ac' := fst (convert_with_engine buf mime k run now_end ac) in
  snd (convert_with_engine buf mime k run now_end ac) = engine_result run
  /\ ffmpeg_runs ac' = ffmpeg_runs ac ++ [(input_path ac mime k, output_path ac k)]
  /\ (forall output, run = EngineEnd output ->
        audioConversionCache ac' !! k
        = Some (mkCacheInfo (output_path ac k) now_end (length buf) (length output))
        /\ files ac' !! output_path ac k = Some output).
Proof.
  assert (Hpaths : input_path ac mime k <> output_path ac k).
  { unfold input_path, output_path, path_join. intros E.
    apply (inj (String.app _)) in E. cbn in E. discriminate E. }
  unfold convert_with_engine. cbn zeta.
  destruct run as [out|msg|]; cbn;
    (split; [reflexivity|]); (split; [reflexivity|]); intros o Ho; try discriminate Ho.
  injection Ho as <-. split.
  - by rewrite lookup_insert_eq.
  - by rewrite lookup_delete_ne, lookup_insert_eq.
Qed.

(** C9. With an entry for [k] in the cache: while the entry is younger than
    the TTL, [convertAudioToMp3] answers with what reading the entry's file
    gives and leaves the converter as it was, so the engine is not run; once
    the entry is older than the TTL, whatever the file system holds, the
    engine is run once on the new input and the answer is the engine's, a
    successful run replacing the entry. *)
Theorem convertAudioToMp3_cache_policy
    (ac : AudioConverter) (k : string) (e : CacheInfo)
    (buf : Buffer) (mime : string) (now : Z) (run : EngineRun) (now_end : Z) :
  converter_reachable ac ->
  audioConversionCache ac !! k = Some e ->
  let res := convertAudioToMp3 buf mime k now run now_end ac in
  ((now - timestamp e < audioConversionTTL ac)%Z ->
     res = (ac, read_cached ac e)
     /\ ffmpeg_runs (fst res) = ffmpeg_runs ac
     /\ (forall cached, files ac !! filePath e = Some cached -> snd res = inl cached))
  /\ ((audioConversionTTL ac < now - timestamp e)%Z ->
      ffmpeg_runs (fst res) = ffmpeg_runs ac ++ [(input_path ac mime k, output_path ac k)]
      /\ snd res = engine_result run
      /\ (forall output, run = EngineEnd output ->
            snd res = inl output /\
            audioConversionCache (fst res) !! k
            = Some (mkCacheInfo (output_path ac k) now_end (length buf) (length output)))).
Proof.
  intros Hreach Hk res.
  pose proof (cache_needs_engine ac Hreach k e Hk) as Hav.
  subst res. unfold convertAudioToMp3. rewrite Hav, Hk. cbn [negb].
  unfold fresh_entry. split; intros Hage.
  - destruct (Z.ltb_spec (now - timestamp e) (audioConversionTTL ac)); [|lia].
    unfold read_cached.
    destruct (files ac !! filePath e) as [cached|]; cbn; repeat split; try done.
    by intros ? [= <-].
  - destruct (Z.ltb_spec (now - timestamp e) (audioConversionTTL ac)); [lia|].
    destruct (convert_with_engine_spec buf mime k run now_end ac) as (Hres & Hruns & Hend).
    split; [exact Hruns|]. split; [exact Hres|].
    intros output ->. split; [exact Hres|]. by apply Hend.
Qed.

Lemma ac_cached_reachable : converter_reachable ac_cached.
Proof. apply converter_convert, converter_new. Qed.

Lemma convertAudioToMp3_cache_policy_witness :
  convertAudioToMp3 [Byte.x07] "audio/ogg" "msg-1" 5000 EngineTimeout 5000 ac_cached
  = (ac_cached, inl [Byte.xff])
  /\ snd (convertAudioToMp3 [Byte.x07] "audio/ogg" "msg-1" 7201001
            (EngineEnd [Byte.xee]) 7201500 ac_cached)
     = inl [Byte.xee].
Proof.
  pose proof (convertAudioToMp3_cache_policy ac_cached "msg-1"
                (mkCacheInfo "audio_cache/output_msg-1.mp3" 1000 2 1)
                [Byte.x07] "audio/ogg" 5000 EngineTimeout 5000
                ac_cached_reachable eq_refl) as [Hfresh _].
  pose proof (convertAudioToMp3_cache_policy ac_cached "msg-1"
                (mkCacheInfo "audio_cache/output_msg-1.mp3" 1000 2 1)
                [Byte.x07] "audio/ogg" 7201001 (EngineEnd [Byte.xee]) 7201500
                ac_cached_reachable eq_refl) as [_ Hold].
  split.
  - exact (proj1 (Hfresh ltac:(reflexivity))).
  - exact (proj1 (proj2 (Hold ltac:(reflexivity)))).
Defined.

(** An entry exactly as old as the TTL is neither served nor swept. *)
Example entry_at_ttl :
  snd (convertAudioToMp3 [Byte.x07] "audio/ogg" "msg-1" 7201000
         (EngineEnd [Byte.xee]) 7201500 ac_cached) = inl [Byte.xee]
  /\ audioConversionCache (cleanupAudioCache 7201000 ac_cached) !! "msg-1"
     = audioConversionCache ac_cached !! "msg-1".
Proof. split; reflexivity. Qed.

(** ** The sweeps *)

Lemma destroySession_start_frame sid st :
  let st' := fst (destroySession_start sid st) in
  heap st' = heap st /\
  (forall sid', sid' <> sid -> sessions st' !! sid' = sessions st !! sid') /\
  (snd (destroySession_start sid st) = DestroyReturned \/
   destroy_sid (snd (destroySession_start sid st)) = Some sid).
Proof.
  unfold destroySession_start.
  destruct (get_session st sid) as [[l r]|]; [|cbn; auto].
  destruct (client r) as [c|]; [cbn; auto|].
  unfold destroy_remove. destruct (heap st !! l); cbn; [|auto].
  repeat split; auto. intros sid' Hne. by rewrite lookup_delete_ne.
Qed.

Lemma destroySession_resume_frame t o st :
  let st' := fst (destroySession_resume t o st) in
  heap st' = heap st /\
  (forall sid', destroy_sid t <> Some sid' -> sessions st' !! sid' = sessions st !! sid') /\
  (snd (destroySession_resume t o st) = DestroyReturned \/
   destroy_sid (snd (destroySession_resume t o st)) = destroy_sid t).
Proof.
  destruct t as [sid l|sid l|]; cbn; [| |auto].
  - destruct o; [|cbn; auto].
    unfold destroy_remove. destruct (heap st !! l); cbn; [|auto].
    repeat split; auto. intros sid' Hne. rewrite lookup_delete_ne; [done|congruence].
  - destruct o; unfold emit_if_io; cbn; destruct (io st); cbn; auto.
Qed.

Lemma destroySession_finish_frame t teardown rm st :
  let st' := destroySession_finish t teardown rm st in
  heap st' = heap st /\
  (forall sid', destroy_sid t <> Some sid' -> sessions st' !! sid' = sessions st !! sid').
Proof.
  unfold destroySession_finish.
  assert (Hstep : forall t0 o st0,
    heap (fst (destroySession_resume t0 o st0)) = heap st0 /\
    forall sid', destroy_sid t0 <> Some sid' ->
      sessions (fst (destroySession_resume t0 o st0)) !! sid' = sessions st0 !! sid').
  { intros t0 o st0. destruct (destroySession_resume_frame t0 o st0) as (? & ? & _). auto. }
  destruct t as [sid l|sid l|].
  - destruct (destroySession_resume_frame (DestroyAwaitTeardown sid l) teardown st)
      as (Hh & Hs & Ht).
    destruct (destroySession_resume (DestroyAwaitTeardown sid l) teardown st) as [st1 t1].
    cbn [fst snd] in *. destruct (Hstep t1 rm st1) as [Hh1 Hs1].
    split; [congruence|]. intros sid' Hne. rewrite Hs1, Hs; [done|done|].
    destruct Ht as [-> | ->]; [done|exact Hne].
  - apply Hstep.
  - apply Hstep.
Qed.

(** The loop, on any list of entries without repeated ids. *)
Lemma sweep_loop_spec reap line entries st :
  NoDup entries.*1 ->
  let st' := fst (sweep_loop reap line entries st) in
  let ts := snd (sweep_loop reap line entries st) in
  heap st' = heap st
  /\ (forall sid, sid ∈ ts.*1 <->
        sid ∈ entries.*1 /\ exists l r, get_session st sid = Some (l, r) /\ reap r = true)
  /\ (forall sid, sid ∉ ts.*1 -> sessions st' !! sid = sessions st !! sid)
  /\ (forall sid t, (sid, t) ∈ ts -> t = DestroyReturned \/ destroy_sid t = Some sid).
Proof.
  revert st. induction entries as [|[sid l0] rest IH]; intros st Hnd.
  { cbn. split; [done|]. split; [|split; [done|]].
    - intros sid. split; [intros H|intros [H _]]; by apply elem_of_nil in H.
    - intros ? ? H. by apply elem_of_nil in H. }
  cbn [fmap list_fmap fst] in Hnd. apply NoDup_cons in Hnd as [Hnotin Hnd].
  cbn [sweep_loop].
  assert (Hskip : forall st0,
    (forall sid', sid' ∈ rest.*1 -> get_session st0 sid' = get_session st sid') ->
    heap st0 = heap st ->
    (forall sid', sid' <> sid -> sessions st0 !! sid' = sessions st !! sid') ->
    let st' := fst (sweep_loop reap line rest st0) in
    let ts := snd (sweep_loop reap line rest st0) in
    heap st' = heap st
    /\ (forall sid', sid' ∈ ts.*1 <->
          sid' ∈ rest.*1 /\ exists l r, get_session st sid' = Some (l, r) /\ reap r = true)
    /\ (forall sid', sid' <> sid -> sid' ∉ ts.*1 -> sessions st' !! sid' = sessions st !! sid')
    /\ (forall sid' t, (sid', t) ∈ ts -> t = DestroyReturned \/ destroy_sid t = Some sid')).
  { intros st0 Hsame Hheap Hses.
    destruct (IH st0 Hnd) as (Hh & Hin & Hout & Htask).
    split; [congruence|]. split; [|split; [|exact Htask]].
    - intros sid'. rewrite Hin. split.
      + intros [Hr (l & r & Hg & Hp)]. split; [done|]. exists l, r. by rewrite <- Hsame.
      + intros [Hr (l & r & Hg & Hp)]. split; [done|]. exists l, r. by rewrite Hsame.
    - intros sid' Hne Hn. rewrite Hout by done. by apply Hses. }
  destruct (get_session st sid) as [[l r]|] eqn:Hget.
  - destruct (reap r) eqn:Hreap.
    + pose proof (destroySession_start_frame sid (console (line sid r) st))
        as (Hh1 & Hs1 & Ht1).
      destruct (destroySession_start sid (console (line sid r) st)) as [st1 t] eqn:E.
      cbn [fst snd] in Hh1, Hs1, Ht1.
      assert (Hsame : forall sid', sid' ∈ rest.*1 -> get_session st1 sid' = get_session st sid').
      { intros sid' Hr. unfold get_session. rewrite Hs1, Hh1; [done|].
        intros ->. by apply Hnotin. }
      destruct (Hskip st1 Hsame Hh1 Hs1) as (Hh & Hin & Hout & Htask).
      destruct (sweep_loop reap line rest st1) as [st2 ts]. cbn [fst snd] in *.
      rewrite !fmap_cons. cbn [fst].
      split; [exact Hh|]. split; [|split].
      * intros sid'. rewrite elem_of_cons, Hin, elem_of_cons. split.
        -- intros [->|[Hr Hx]]; [|by auto]. split; [by left|]. by exists l, r.
        -- intros [[->|Hr] Hx]; [by left|right; by auto].
      * intros sid' Hn. rewrite elem_of_cons in Hn. apply Hout; tauto.
      * intros sid' t' Hin'. apply elem_of_cons in Hin' as [[= -> ->]|Hin'];
          [exact Ht1|by eapply Htask].
    + destruct (Hskip st (fun _ _ => eq_refl) eq_refl (fun _ _ => eq_refl))
        as (Hh & Hin & Hout & Htask).
      rewrite !fmap_cons. cbn [fst].
      split; [exact Hh|]. split; [|split; [|exact Htask]].
      * intros sid'. rewrite Hin, elem_of_cons. split; [intros [? ?]; by auto|].
        intros [[->|Hr] (l' & r' & Hg & Hp)]; [|by eauto].
        rewrite Hget in Hg. injection Hg as <- <-. congruence.
      * intros sid' Hn. destruct (decide (sid' = sid)) as [->|Hne]; [|by apply Hout].
        apply IH; [done|]. exact Hn.
  - destruct (Hskip st (fun _ _ => eq_refl) eq_refl (fun _ _ => eq_refl))
      as (Hh & Hin & Hout & Htask).
    rewrite !fmap_cons. cbn [fst].
    split; [exact Hh|]. split; [|split; [|exact Htask]].
    + intros sid'. rewrite Hin, elem_of_cons. split; [intros [? ?]; by auto|].
      intros [[->|Hr] (l' & r' & Hg & Hp)]; [|by eauto]. congruence.
    + intros sid' Hn. destruct (decide (sid' = sid)) as [->|Hne]; [|by apply Hout].
      apply IH; [done|]. exact Hn.
Qed.

Lemma settle_destroys_frame ts os st sid :
  (forall sid0 t, (sid0, t) ∈ ts -> t = DestroyReturned \/ destroy_sid t = Some sid0) ->
  sid ∉ ts.*1 ->
  heap (settle_destroys ts os st) = heap st /\
  sessions (settle_destroys ts os st) !! sid = sessions st !! sid.
Proof.
  revert os st. induction ts as [|[sid0 t] ts IH]; intros os st Htask Hn; [done|].
  destruct os as [|[teardown rm] os]; [done|]. cbn [settle_destroys].
  rewrite fmap_cons, not_elem_of_cons in Hn. destruct Hn as [Hne Hn].
  destruct (destroySession_finish_frame t teardown rm st) as [Hh Hs].
  destruct (IH os (destroySession_finish t teardown rm st)) as [Hh' Hs'].
  { intros ? ? ?. apply Htask. by right. }
  { exact Hn. }
  split; [congruence|]. rewrite Hs', Hs; [done|].
  destruct (Htask sid0 t) as [-> | ->]; [by left|done|]. cbn in *. congruence.
Qed.

Lemma unfinished_spec now r :
  unfinished now r = true <->
  isReady r = false /\ isAuthenticated r = false /\ (15 * 60 * 1000 < now - lastActivity r)%Z.
Proof.
  unfold unfinished, UNFINISHED_SESSION_TIMEOUT.
  rewrite !andb_true_iff, !negb_true_iff, Z.ltb_lt. tauto.
Qed.

Lemma sweep_of_registry reap line st sid l r :
  get_session st sid = Some (l, r) ->
  let st' := fst (sweep_loop reap line (map_to_list (sessions st)) st) in
  let ts := snd (sweep_loop reap line (map_to_list (sessions st)) st) in
  (sid ∈ ts.*1 <-> reap r = true)
  /\ (reap r = false -> sessions st' !! sid = Some l)
  /\ heap st' = heap st
  /\ (forall sid0 t, (sid0, t) ∈ ts -> t = DestroyReturned \/ destroy_sid t = Some sid0).
Proof.
  intros Hget. pose proof Hget as [Hs Hh]%get_session_Some.
  destruct (sweep_loop_spec reap line (map_to_list (sessions st)) st
              (NoDup_fst_map_to_list _)) as (Hheap & Hin & Hout & Htask).
  cbn zeta. split; [|split; [|split; [exact Hheap|exact Htask]]].
  - rewrite Hin. split.
    + intros [_ (l' & r' & Hg & Hp)]. congruence.
    + intros Hp. split; [|by eauto].
      apply list_elem_of_fmap. exists (sid, l). split; [done|].
      by apply elem_of_map_to_list.
  - intros Hp. rewrite Hout; [done|].
    rewrite Hin. intros [_ (l' & r' & Hg & Hp')]. congruence.
Qed.

(** C10. For a registered session, the unfinished-session sweep calls
    [destroySession] on it exactly when it is neither ready nor
    authenticated and has been idle for more than 15 minutes.  A session that
    is ready or authenticated is passed over however long it has been idle:
    it is still registered after the sweep, also once the teardowns the
    sweep started have settled; the 24-hour sweep is the one that reaps it,
    once it has been idle for more than 24 hours. *)
Theorem cleanupUnfinishedSessions_only_unfinished
    (st : Manager) (now : Z) (sid : SessionId) (l : Loc) (r : Session) :
  get_session st sid = Some (l, r) ->
  let st' := fst (cleanupUnfinishedSessions now st) in
  let ts := snd (cleanupUnfinishedSessions now st) in
  (sid ∈ ts.*1 <->
     isReady r = false /\ isAuthenticated r = false /\
     (15 * 60 * 1000 < now - lastActivity r)%Z)
  /\ (isReady r = true \/ isAuthenticated r = true ->
      (sid ∉ ts.*1)
      /\ get_session st' sid = Some (l, r)
      /\ (forall os, get_session (settle_destroys ts os st') sid = Some (l, r)))
  /\ (sid ∈ (snd (cleanupInactiveSessions now st)).*1 <->
      (24 * 60 * 60 * 1000 < now - lastActivity r)%Z).
Proof.
  intros Hget. pose proof Hget as [Hs Hh]%get_session_Some.
  pose proof (sweep_of_registry (unfinished now)
                (fun sid r => LogCleaningUnfinished sid (now - lastActivity r)%Z)
                st sid l r Hget) as (Hin & Hout & Hheap & Htask).
  pose proof (sweep_of_registry (inactive now) (fun sid _ => LogCleaningInactive sid)
                st sid l r Hget) as (Hin' & _).
  unfold cleanupUnfinishedSessions, cleanupInactiveSessions.
  destruct (sweep_loop (unfinished now) _ (map_to_list (sessions st)) st) as [st1 ts].
  cbn [fst snd] in *.
  split; [by rewrite Hin, unfinished_spec|]. split.
  - intros Hdone.
    assert (Hp : unfinished now r = false).
    { unfold unfinished. destruct Hdone as [-> | ->]; [done|].
      by rewrite andb_false_r. }
    assert (Hn : sid ∉ ts.*1) by (rewrite Hin; congruence).
    split; [exact Hn|].
    set (st2 := if bool_decide (0 < length ts)
                then console (LogCleanedUnfinished (length ts)) st1 else st1).
    assert (Hsame : heap st2 = heap st1 /\ sessions st2 = sessions st1).
    { subst st2. by case_bool_decide. }
    destruct Hsame as [Hh2 Hs2]. split.
    + apply get_session_Some. by rewrite Hs2, Hh2, Hout, Hheap.
    + intros os. destruct (settle_destroys_frame ts os st2 sid Htask Hn) as [Hh' Hs'].
      apply get_session_Some. by rewrite Hs', Hh', Hs2, Hh2, Hout, Hheap.
  - rewrite Hin'. unfold inactive, SESSION_TIMEOUT. by rewrite Z.ltb_lt.
Qed.

Lemma cleanupUnfinishedSessions_only_unfinished_witness :
  ("session-0" ∉ (snd (cleanupUnfinishedSessions a_day_later st_ready)).*1)
  /\ "session-0" ∈ (snd (cleanupInactiveSessions a_day_later st_ready)).*1.
Proof.
  pose proof (cleanupUnfinishedSessions_only_unfinished st_ready a_day_later
                "session-0" 0 _ eq_refl) as (_ & Hkeep & Hday).
  split.
  - exact (proj1 (Hkeep (or_introl eq_refl))).
  - apply Hday. reflexivity.
Defined.

(** The sweeps on the scenario: a created session that was never started
    goes after 15 minutes, a ready one only after 24 hours. *)
Example sweeps_on_scenario :
  (snd (cleanupUnfinishedSessions (1000 + 900001) st_created)).*1 = ["session-0"]
  /\ (snd (cleanupUnfinishedSessions (1000 + 900000) st_created)).*1 = []
  /\ (snd (cleanupUnfinishedSessions a_day_later st_ready)).*1 = []
  /\ (snd (cleanupInactiveSessions a_day_later st_ready)).*1 = ["session-0"].
Proof. repeat split. Qed.

(** * Further properties *)

(** ** Format tables *)

Lemma lower_ascii_idemp a : lower_ascii (lower_ascii a) = lower_ascii a.
Proof. by destruct a as [[] [] [] [] [] [] [] []]. Qed.

Lemma toLowerCase_idemp s : toLowerCase (toLowerCase s) = toLowerCase s.
Proof. induction s as [|a s IH]; [done|]. cbn. by rewrite lower_ascii_idemp, IH. Qed.

Lemma lower_ascii_semicolon a :
  Ascii.eqb (lower_ascii a) ";" = Ascii.eqb a ";".
Proof. by destruct a as [[] [] [] [] [] [] [] []]. Qed.

Lemma app_cons a s t : String a s +:+ t = String a (s +:+ t).
Proof. reflexivity. Qed.

Lemma toLowerCase_app s t : toLowerCase (s +:+ t) = toLowerCase s +:+ toLowerCase t.
Proof.
  induction s as [|a s IH]; [done|].
  rewrite app_cons. cbn [toLowerCase]. by rewrite app_cons, IH.
Qed.

Lemma before_semicolon_parameters s p :
  before_semicolon (toLowerCase (s +:+ ";" +:+ p)) = before_semicolon (toLowerCase s).
Proof.
  induction s as [|a s IH]; [done|].
  rewrite app_cons. cbn [toLowerCase before_semicolon].
  rewrite lower_ascii_semicolon. destruct (Ascii.eqb a ";"); [done|]. by rewrite IH.
Qed.

(** X1. [needsAudioConversion] looks only at the media type itself: neither
    the case of the letters nor parameters after a semicolon change its
    answer. *)
Theorem needsAudioConversion_ignores_case_and_parameters (mimetype params : string) :
  needsAudioConversion (toLowerCase mimetype) = needsAudioConversion mimetype
  /\ needsAudioConversion (mimetype +:+ ";" +:+ params) = needsAudioConversion mimetype.
Proof.
  unfold needsAudioConversion, base_mimetype. split.
  - by rewrite toLowerCase_idemp.
  - by rewrite before_semicolon_parameters.
Qed.

(** X2. Every media type that needs conversion has its own file extension:
    the input file of the conversion is named after the subtype, never with
    the catch-all extension. *)
Theorem needsAudioConversion_extension (mimetype : string) :
  needsAudioConversion mimetype = true ->
  "audio/" +:+ getFileExtension mimetype = base_mimetype mimetype
  /\ getFileExtension mimetype <> "audio".
Proof.
  unfold needsAudioConversion, getFileExtension, base_mimetype, includes.
  remember (toLowerCase mimetype) as lm eqn:Hlm. clear Hlm.
  intros H.
  assert (Hgoal : "audio/" +:+
            match assoc lm extensions with
            | Some e => e
            | None => match assoc (trim (before_semicolon lm)) extensions with
                      | Some e => e
                      | None => "audio"
                      end
            end = trim (before_semicolon lm)).
  { cbn [assoc extensions].
    repeat match goal with
           | |- context [String.eqb lm ?k] =>
               destruct (String.eqb_spec lm k) as [->|?];
               [vm_compute in H |- *; first [reflexivity | discriminate H]|]
           end.
    remember (trim (before_semicolon lm)) as b eqn:Hb. clear Hb.
    cbn [existsb audioFormatsNeedingConversion] in H.
    repeat match type of H with
           | context [String.eqb b ?k] =>
               destruct (String.eqb_spec b k) as [Hb|?]; [rewrite Hb; reflexivity|]
           end.
    discriminate H. }
  split; [exact Hgoal|].
  intros Heq. rewrite Heq in Hgoal. rewrite <- Hgoal in H. vm_compute in H. discriminate H.
Qed.

Lemma needsAudioConversion_extension_witness :
  getFileExtension "Audio/OGG; codecs=opus" = "ogg".
Proof.
  pose proof (needsAudioConversion_extension "Audio/OGG; codecs=opus" eq_refl) as [H _].
  apply (inj (String.app "audio/")). exact H.
Defined.

Lemma includes_true s l : includes s l = true <-> s ∈ l.
Proof.
  unfold includes. rewrite existsb_exists. split.
  - intros (x & Hin & Heq). apply String.eqb_eq in Heq as ->. by apply list_elem_of_In.
  - intros Hin. exists s. split; [by apply list_elem_of_In|apply String.eqb_refl].
Qed.

Lemma isValidFormat_iff (ac : AudioConverter) (format mimetype : string) :
  isValidFormat ac format mimetype = true <->
  format = "original" \/
  (format = "mp3" /\ String.prefix "audio/" mimetype = true /\ ffmpegAvailable ac = true).
Proof.
  unfold isValidFormat, getSupportedFormats. rewrite includes_true, elem_of_cons.
  destruct (String.prefix "audio/" mimetype), (ffmpegAvailable ac); cbn [andb].
  - rewrite list_elem_of_singleton. tauto.
  - rewrite elem_of_nil. split; [tauto|]. intros [?|(_ & _ & ?)]; [tauto|discriminate].
  - rewrite elem_of_nil. split; [tauto|]. intros [?|(_ & ? & _)]; [tauto|discriminate].
  - rewrite elem_of_nil. split; [tauto|]. intros [?|(_ & ? & _)]; [tauto|discriminate].
Qed.

(** X3. ["original"] is a valid format for every media type and every
    converter; ["mp3"] is valid exactly when the media type begins with
    ["audio/"] and the converter found an engine; nothing else is valid. *)
Theorem isValidFormat_spec (ac : AudioConverter) (format mimetype : string) :
  isValidFormat ac format mimetype = true <->
  format = "original" \/
  (format = "mp3" /\ String.prefix "audio/" mimetype = true /\ ffmpegAvailable ac = true).
Proof. apply isValidFormat_iff. Qed.

(** ** The media download route *)

(** X4. The download route never fails because a conversion failed: for a
    valid format it always sends something, either the converted artifact
    (content type [audio/mpeg], [X-Converted] true, and only for format
    ["mp3"] on a converter with an engine) or the original bytes under the
    original content type with [X-Converted] false.  It touches the
    converter only when it converts. *)
Theorem deliver_media_never_fails_on_conversion
    (format mimetype : string) (data : Buffer) (messageId : string)
    (now : Z) (run : EngineRun) (now_end : Z) (ac : AudioConverter) :
  let conv := convertAudioToMp3 data mimetype messageId now run now_end ac in
  let res := deliver_media format mimetype data messageId now run now_end ac in
  match snd res with
  | MediaUnsupported f m formats =>
      isValidFormat ac format mimetype = false /\ fst res = ac
      /\ formats = getSupportedFormats ac mimetype
  | MediaSent d =>
      isValidFormat ac format mimetype = true /\
      ((xConverted d = true /\ contentType d = "audio/mpeg" /\ format = "mp3"
        /\ ffmpegAvailable ac = true /\ conv = (fst res, inl (body d)))
       \/ (xConverted d = false /\ contentType d = mimetype /\ body d = data
           /\ (fst res = ac \/ exists e, conv = (fst res, inr e))))
  end
  /\ (format <> "mp3" \/ ffmpegAvailable ac = false -> fst res = ac).
Proof.
  cbn zeta. unfold deliver_media.
  destruct (isValidFormat ac format mimetype) eqn:Hvalid; cbn [negb]; [|by auto].
  destruct (String.eqb_spec format "mp3") as [->|Hfmt]; cbn [andb].
  - apply isValidFormat_iff in Hvalid as [?|(_ & Hpre & Hav)]; [discriminate|].
    rewrite Hpre. cbn [andb].
    destruct (String.eqb_spec mimetype "audio/mpeg") as [->|Hmpeg]; cbn [negb andb fst snd].
    + split; [|by auto]. split; [done|]. right. auto.
    + destruct (convertAudioToMp3 data mimetype messageId now run now_end ac)
        as [ac' [out|e]] eqn:Hconv; cbn [fst snd].
      * split; [|intros [?|?]; congruence].
        split; [done|]. left.
        repeat split; try done.
      * split; [|intros [?|?]; congruence].
        split; [done|]. right.
        destruct (String.eqb_spec mimetype "audio/mpeg"); [done|].
        repeat split; eauto.
  - cbn [fst snd]. split; [|done]. split; [done|]. right. auto.
Qed.

(** ** The conversion cache, continued *)

Lemma convertAudioToMp3_static buf mime k now run now_end ac :
  let ac' := fst (convertAudioToMp3 buf mime k now run now_end ac) in
  audioConversionDir ac' = audioConversionDir ac
  /\ audioConversionTTL ac' = audioConversionTTL ac.
Proof.
  unfold convertAudioToMp3, convert_with_engine.
  destruct (negb (ffmpegAvailable ac)); [done|].
  destruct (audioConversionCache ac !! k) as [e|];
    [destruct (fresh_entry ac now e); [by destruct (files ac !! filePath e)|]|];
    by destruct run.
Qed.

(** Which entries a call of [convertAudioToMp3] leaves in the index. *)
Lemma convertAudioToMp3_index buf mime k now run now_end ac :
  let ac' := fst (convertAudioToMp3 buf mime k now run now_end ac) in
  audioConversionCache ac' = audioConversionCache ac
  \/ exists output,
       run = EngineEnd output /\ ffmpegAvailable ac = true /\
       (forall e, audioConversionCache ac !! k = Some e -> fresh_entry ac now e = false) /\
       audioConversionCache ac'
       = <[k := mkCacheInfo (output_path ac k) now_end (length buf) (length output)]>
           (audioConversionCache ac).
Proof.
  unfold convertAudioToMp3, convert_with_engine.
  destruct (ffmpegAvailable ac); cbn [negb]; [|by left].
  destruct (audioConversionCache ac !! k) as [e|] eqn:Hk.
  - destruct (fresh_entry ac now e) eqn:Hfresh;
      [destruct (files ac !! filePath e); by left|].
    destruct run as [output| |]; [|by left|by left].
    right. exists output. repeat split; try done. by intros ? [= <-].
  - destruct run as [output| |]; [|by left|by left].
    right. exists output. repeat split; done.
Qed.

(** X5. A conversion that does not end successfully leaves the index as it
    was, and a successful one changes the entry of its own key only: an
    entry appears in the index only when the engine has reported the end of
    the run. *)
Theorem convertAudioToMp3_index_frame
    (buf : Buffer) (mime k : string) (now : Z) (run : EngineRun) (now_end : Z)
    (ac : AudioConverter) :
  let ac' := fst (convertAudioToMp3 buf mime k now run now_end ac) in
  (forall k', k' <> k -> audioConversionCache ac' !! k' = audioConversionCache ac !! k')
  /\ ((forall output, run <> EngineEnd output) ->
      audioConversionCache ac' = audioConversionCache ac)
  /\ (forall e, audioConversionCache ac' !! k = Some e ->
        audioConversionCache ac !! k = Some e
        \/ exists output, run = EngineEnd output /\ snd (convertAudioToMp3 buf mime k now run now_end ac) = inl output
                          /\ e = mkCacheInfo (output_path ac k) now_end (length buf) (length output)).
Proof.
  cbn zeta.
  destruct (convertAudioToMp3_index buf mime k now run now_end ac)
    as [Hsame|(output & -> & Hav & Hstale & Hins)].
  - rewrite Hsame. repeat split; auto.
  - rewrite Hins. split; [|split].
    + intros k' Hne. by rewrite lookup_insert_ne.
    + intros Hno. by destruct (Hno output).
    + intros e. rewrite lookup_insert_eq. intros [= <-]. right. exists output.
      split; [done|]. split; [|done].
      unfold convertAudioToMp3. rewrite Hav. cbn [negb].
      destruct (audioConversionCache ac !! k) as [e0|] eqn:Hk; [|done].
      by rewrite (Hstale e0 eq_refl).
Qed.

Lemma cleanupAudioCache_lookup now ac k e :
  audioConversionCache (cleanupAudioCache now ac) !! k = Some e <->
  audioConversionCache ac !! k = Some e /\ expired ac now e = false.
Proof. unfold cleanupAudioCache. cbn. by rewrite map_lookup_filter_Some. Qed.

Lemma cleanupAudioCache_empty now ac :
  audioConversionCache ac = ∅ -> cleanupAudioCache now ac = ac.
Proof.
  intros Hempty. unfold cleanupAudioCache. rewrite Hempty.
  rewrite map_to_list_empty, map_filter_empty. cbn.
  destruct ac; cbn in *. by subst.
Qed.

(** X6. A converter that found no engine stays inert: whatever conversions
    and sweeps are asked of it, it never gains a cache entry, never touches
    the file system and never runs the engine, and every conversion is
    answered with the same error. *)
Theorem converter_without_engine_inert
    (dir : string) (fs : gmap string Buffer) (cs : list ConverterCall) :
  converter_run cs (new_converter dir false fs) = new_converter dir false fs
  /\ (forall buf mime k now run now_end,
        convertAudioToMp3 buf mime k now run now_end (converter_run cs (new_converter dir false fs))
        = (new_converter dir false fs,
           inr "FFmpeg is not available on this server. Please install FFmpeg to enable audio conversion.")).
Proof.
  assert (H : converter_run cs (new_converter dir false fs) = new_converter dir false fs).
  { induction cs as [|c cs IH] using rev_ind; [done|].
    unfold converter_run in *. rewrite foldl_app. cbn [foldl]. rewrite IH.
    destruct c; cbn [converter_exec].
    - reflexivity.
    - by apply cleanupAudioCache_empty. }
  split; [exact H|]. intros. by rewrite H.
Qed.

(** X7. A successful conversion is served from the cache afterwards: while
    the new entry is younger than the TTL, any further call for the same key
    returns the same artifact and leaves the converter untouched, whatever
    input it is given and whatever the engine would have done. *)
Theorem convertAudioToMp3_then_cached
    (ac : AudioConverter) (buf : Buffer) (mime k : string) (now : Z)
    (output : Buffer) (now_end : Z)
    (buf' : Buffer) (mime' : string) (now' : Z) (run' : EngineRun) (now_end' : Z) :
  ffmpegAvailable ac = true ->
  (forall e, audioConversionCache ac !! k = Some e -> fresh_entry ac now e = false) ->
  (now' - now_end < audioConversionTTL ac)%Z ->
  let first := convertAudioToMp3 buf mime k now (EngineEnd output) now_end ac in
  snd first = inl output
  /\ convertAudioToMp3 buf' mime' k now' run' now_end' (fst first) = (fst first, inl output).
Proof.
  intros Hav Hstale Hage first.
  assert (Hfirst : first = convert_with_engine buf mime k (EngineEnd output) now_end ac).
  { subst first. unfold convertAudioToMp3. rewrite Hav. cbn [negb].
    destruct (audioConversionCache ac !! k) as [e|] eqn:Hk; [|done].
    by rewrite (Hstale e eq_refl). }
  destruct (convert_with_engine_spec buf mime k (EngineEnd output) now_end ac)
    as (Hres & _ & Hend).
  destruct (Hend output eq_refl) as [Hentry Hfile].
  rewrite <- Hfirst in Hres, Hentry, Hfile.
  split; [exact Hres|].
  pose proof (convertAudioToMp3_available buf mime k now (EngineEnd output) now_end ac) as Hav'.
  pose proof (convertAudioToMp3_static buf mime k now (EngineEnd output) now_end ac)
    as [_ Httl].
  fold first in Hav', Httl. cbn zeta in Httl.
  unfold convertAudioToMp3 at 1. rewrite Hav', Hav, Hentry. cbn [negb].
  unfold fresh_entry. cbn [timestamp filePath]. rewrite Httl.
  destruct (Z.ltb_spec (now' - now_end) (audioConversionTTL ac)); [|lia].
  by rewrite Hfile.
Qed.

Lemma convertAudioToMp3_then_cached_witness :
  convertAudioToMp3 [Byte.x07] "audio/wav" "msg-1" 5000 (EngineError "boom") 5000 ac_cached
  = (ac_cached, inl [Byte.xff]).
Proof.
  exact (proj2 (convertAudioToMp3_then_cached
                  (new_converter "audio_cache" true ∅) [Byte.x00; Byte.x01]
                  "audio/ogg; codecs=opus" "msg-1" 900 [Byte.xff] 1000
                  [Byte.x07] "audio/wav" 5000 (EngineError "boom") 5000
                  eq_refl ltac:(intros e He; discriminate He) ltac:(reflexivity))).
Defined.

Lemma string_length_app s t :
  String.length (s +:+ t) = String.length s + String.length t.
Proof. induction s as [|a s IH]; [done|]. rewrite app_cons. cbn. by rewrite IH. Qed.

Lemma string_app_inj_r s1 s2 t : s1 +:+ t = s2 +:+ t -> s1 = s2.
Proof.
  revert s2. induction s1 as [|a s1 IH]; intros [|b s2] H.
  - done.
  - apply (f_equal String.length) in H. rewrite !string_length_app in H.
    cbn in H. lia.
  - apply (f_equal String.length) in H. rewrite !string_length_app in H.
    cbn in H. lia.
  - rewrite !app_cons in H. injection H as -> H. f_equal. by apply IH.
Qed.

Lemma output_path_inj ac k1 k2 : output_path ac k1 = output_path ac k2 -> k1 = k2.
Proof.
  unfold output_path, path_join. intros H.
  apply (inj (String.app _)) in H. apply (inj (String.app "/")) in H.
  apply (inj (String.app "output_")) in H. by apply string_app_inj_r in H.
Qed.

Lemma cleanupAudioCache_static now ac :
  audioConversionDir (cleanupAudioCache now ac) = audioConversionDir ac
  /\ audioConversionTTL (cleanupAudioCache now ac) = audioConversionTTL ac.
Proof. done. Qed.

Lemma reachable_cache_paths ac :
  converter_reachable ac ->
  audioConversionTTL ac = AUDIO_CONVERSION_TTL
  /\ forall k e, audioConversionCache ac !! k = Some e -> filePath e = output_path ac k.
Proof.
  induction 1 as [dir b fs|ac buf mime k' now run now_end _ [IHt IHp]
                 |ac now _ [IHt IHp]|ac fs _ [IHt IHp]].
  - split; [done|]. intros k e Hk. done.
  - destruct (convertAudioToMp3_static buf mime k' now run now_end ac) as [Hdir Httl].
    cbn zeta in *. split; [congruence|].
    assert (Hout : forall k, output_path (fst (convertAudioToMp3 buf mime k' now run now_end ac)) k
                             = output_path ac k).
    { intros k. unfold output_path. by rewrite Hdir. }
    intros k e Hk. rewrite Hout.
    destruct (convertAudioToMp3_index buf mime k' now run now_end ac)
      as [Hsame|(output & _ & _ & _ & Hins)]; cbn zeta in *.
    + rewrite Hsame in Hk. by apply IHp.
    + rewrite Hins in Hk. destruct (decide (k' = k)) as [->|Hne].
      * rewrite lookup_insert_eq in Hk. by injection Hk as <-.
      * rewrite lookup_insert_ne in Hk by done. by apply IHp.
  - split; [done|]. intros k e Hk.
    apply cleanupAudioCache_lookup in Hk as [Hk _]. by apply IHp.
  - split; [done|]. exact IHp.
Qed.

Lemma reachable_cache_entries (ac : AudioConverter) :
  converter_reachable ac ->
  audioConversionTTL ac = (2 * 60 * 60 * 1000)%Z
  /\ (forall k e, audioConversionCache ac !! k = Some e ->
        filePath e = path_join (audioConversionDir ac) ("output_" +:+ k +:+ ".mp3"))
  /\ (forall k1 k2 e1 e2,
        audioConversionCache ac !! k1 = Some e1 ->
        audioConversionCache ac !! k2 = Some e2 ->
        filePath e1 = filePath e2 -> k1 = k2).
Proof.
  intros Hreach. destruct (reachable_cache_paths ac Hreach) as [Httl Hpath].
  split; [exact Httl|]. split; [exact Hpath|].
  intros k1 k2 e1 e2 H1 H2 Heq.
  rewrite (Hpath _ _ H1), (Hpath _ _ H2) in Heq. by apply (output_path_inj ac).
Qed.



Lemma unlink_all_lookup (gone : list (string * CacheInfo)) (fs : gmap string Buffer) p :
  foldr (fun kv fs => delete (filePath (snd kv)) fs) fs gone !! p
  = if bool_decide (p ∈ (fun kv => filePath (snd kv)) <$> gone) then None else fs !! p.
Proof.
  induction gone as [|kv gone IH]; [done|]. cbn [foldr]. rewrite fmap_cons.
  destruct (decide (filePath (snd kv) = p)) as [<-|Hne].
  - rewrite lookup_delete_eq. rewrite bool_decide_eq_true_2; [done|]. by left.
  - rewrite lookup_delete_ne by done. rewrite IH.
    case_bool_decide as Hin; case_bool_decide as Hin'; try done.
    + exfalso. apply Hin'. by right.
    + exfalso. apply elem_of_cons in Hin' as [?|?]; [congruence|done].
Qed.



(** ** Records keep their owner *)

Lemma same_owner_refl r : same_owner r r.
Proof. by split. Qed.

Lemma same_owner_trans r1 r2 r3 : same_owner r1 r2 -> same_owner r2 r3 -> same_owner r1 r3.
Proof. intros [] []; split; congruence. Qed.

Lemma steady_refl st : steady st st.
Proof. intros l r H. exists r. split; [done|apply same_owner_refl]. Qed.

Lemma steady_trans st1 st2 st3 : steady st1 st2 -> steady st2 st3 -> steady st1 st3.
Proof.
  intros H12 H23 l r H. destruct (H12 l r H) as (r2 & H2 & Ho2).
  destruct (H23 l r2 H2) as (r3 & H3 & Ho3). exists r3. split; [done|].
  by eapply same_owner_trans.
Qed.

Lemma steady_same_heap st st' : heap st' = heap st -> steady st st'.
Proof. intros Hh l r H. exists r. rewrite Hh. split; [done|apply same_owner_refl]. Qed.

Lemma steady_update l f st :
  (forall s, same_owner s (f s)) -> steady st (update l f st).
Proof.
  intros Hf l' r H. unfold update; cbn [heap with_heap].
  destruct (decide (l = l')) as [->|Hne].
  - exists (f r). rewrite list_lookup_alter_eq, H. split; [done|apply Hf].
  - exists r. rewrite list_lookup_alter_ne by done. split; [done|apply same_owner_refl].
Qed.

Lemma steady_emit_if_io sid ev args st : steady st (emit_if_io sid ev args st).
Proof. apply steady_same_heap. unfold emit_if_io. by destruct (io st). Qed.

Lemma steady_effects es st : steady st (effects es st).
Proof. by apply steady_same_heap. Qed.
Lemma steady_effect e st : steady st (effect e st).
Proof. by apply steady_same_heap. Qed.
Lemma steady_console line st : steady st (console line st).
Proof. by apply steady_same_heap. Qed.
Lemma steady_with_sessions m st : steady st (with_sessions m st).
Proof. by apply steady_same_heap. Qed.
Lemma steady_with_userSessions m st : steady st (with_userSessions m st).
Proof. by apply steady_same_heap. Qed.
Lemma steady_with_engines e st : steady st (with_engines e st).
Proof. by apply steady_same_heap. Qed.
Lemma steady_with_io b st : steady st (with_io b st).
Proof. by apply steady_same_heap. Qed.

(** Chains the builders of a step, as [quiet_chain] does. *)
Ltac steady_chain :=
  repeat first
    [ apply steady_refl
    | eapply steady_trans; [|first
        [ apply steady_update; intros ?; by split
        | apply steady_emit_if_io | apply steady_effects | apply steady_effect
        | apply steady_console | apply steady_with_sessions
        | apply steady_with_userSessions | apply steady_with_engines
        | apply steady_with_io ]] ].

Lemma steady_destroy_remove sid l st : steady st (fst (destroy_remove sid l st)).
Proof.
  unfold destroy_remove. destruct (heap st !! l); cbn [fst]; steady_chain.
Qed.

Lemma steady_destroySession_start sid st : steady st (fst (destroySession_start sid st)).
Proof.
  unfold destroySession_start.
  destruct (get_session st sid) as [[l r]|]; [|apply steady_refl].
  destruct (client r); [cbn [fst]; steady_chain | apply steady_destroy_remove].
Qed.

Lemma steady_destroySession_resume t o st :
  steady st (fst (destroySession_resume t o st)).
Proof.
  unfold destroySession_resume.
  destruct t as [sid l|sid l|]; cbn [fst]; [| |apply steady_refl].
  - destruct o; [apply steady_destroy_remove | cbn [fst]; steady_chain].
  - destruct o; steady_chain.
Qed.

Lemma steady_reconnect_reset sid l init fb st :
  steady st (fst (reconnect_reset sid l init fb st)).
Proof. unfold reconnect_reset. destruct init; cbn [fst]; steady_chain. Qed.

Lemma steady_reconnect_failed sid l fb e st :
  steady st (fst (reconnect_failed sid l fb e st)).
Proof. unfold reconnect_failed. destruct fb; cbn [fst]; steady_chain. Qed.

Lemma steady_reconnectSession_start sid init fb st :
  steady st (fst (reconnectSession_start sid init fb st)).
Proof.
  unfold reconnectSession_start.
  destruct (get_session st sid) as [[l r]|]; [|cbn [fst]; steady_chain].
  destruct (reconnecting r); [cbn [fst]; steady_chain|].
  unfold reconnect_attempt, reconnect_mark.
  destruct (client r); cbn [fst].
  - steady_chain.
  - eapply steady_trans; [|apply steady_reconnect_reset]. steady_chain.
Qed.

Lemma steady_reconnectSession_resume t o st :
  steady st (fst (reconnectSession_resume t o st)).
Proof.
  unfold reconnectSession_resume.
  destruct t as [sid l init fb|sid l fb|sid l|]; cbn [fst]; [| | |apply steady_refl].
  - eapply steady_trans; [|apply steady_reconnect_reset]. destruct o; steady_chain.
  - destruct o; [cbn [fst]; steady_chain | apply steady_reconnect_failed].
  - destruct o; cbn [fst]; steady_chain.
Qed.

Lemma steady_attach_engine sid l t0 fb st : steady st (snd (attach_engine sid l t0 fb st)).
Proof. unfold attach_engine; cbn [snd]. steady_chain. Qed.

Lemma steady_init_give_up sid l e st : steady st (fst (init_give_up sid l e st)).
Proof. unfold init_give_up; cbn [fst]. steady_chain. Qed.

Lemma steady_initializeClient_start sid now st :
  steady st (fst (initializeClient_start sid now st)).
Proof.
  unfold initializeClient_start.
  destruct (get_session st sid) as [[l r]|]; cbn [fst]; steady_chain.
Qed.

Lemma steady_initializeClientFallback_start sid st :
  steady st (fst (initializeClientFallback_start sid st)).
Proof.
  unfold initializeClientFallback_start.
  destruct (get_session st sid) as [[l r]|]; cbn [fst]; steady_chain.
Qed.

Lemma steady_initialize_resume t o now st :
  steady st (fst (initialize_resume t o now st)).
Proof.
  unfold initialize_resume.
  destruct t as [sid l t0|sid l t0|sid l t0 c|sid l t0 e|sid l|sid l c|c|e]; cbn [fst snd];
    try apply steady_refl.
  - destruct o; cbn [fst snd]; steady_chain.
  - pose proof (steady_attach_engine sid l t0 false st) as H.
    destruct (attach_engine sid l t0 false st) as [c st1]; cbn [fst snd] in *.
    eapply steady_trans; [exact H|]. steady_chain.
  - destruct o; cbn [fst snd]; [steady_chain|].
    match goal with |- context [heap ?s !! l ≫= client] =>
      destruct (heap s !! l ≫= client) end; cbn [fst snd].
    + steady_chain.
    + eapply steady_trans; [|apply steady_init_give_up]. steady_chain.
  - apply steady_init_give_up.
  - destruct o; cbn [fst snd]; [|steady_chain].
    match goal with |- context [attach_engine sid l now true ?s] =>
      pose proof (steady_attach_engine sid l now true s) as H;
      destruct (attach_engine sid l now true s) as [c st1] end; cbn [fst snd] in *.
    eapply steady_trans; [|eapply steady_trans; [exact H|]]; steady_chain.
  - destruct o; cbn [fst snd]; steady_chain.
Qed.

Lemma steady_startSession_start req st : steady st (fst (startSession_start req st)).
Proof.
  unfold startSession_start.
  destruct req as [sid|]; [|apply steady_refl].
  destruct (negb (truthy sid)); [apply steady_refl|].
  destruct (get_session _ sid) as [[l r]|]; [|cbn [fst]; steady_chain].
  destruct (negb _); [cbn [fst]; steady_chain|].
  destruct (client r); cbn [fst]; steady_chain.
Qed.

Lemma steady_startSession_resume t o now st :
  steady st (fst (fst (startSession_resume t o now st))).
Proof.
  unfold startSession_resume.
  destruct t as [sid|sid|sid|r].
  - pose proof (steady_initializeClient_start sid now st) as H.
    by destruct (initializeClient_start sid now st).
  - destruct o; [cbn [fst]; steady_chain|].
    match goal with |- context [initializeClientFallback_start sid ?s] =>
      pose proof (steady_initializeClientFallback_start sid s) as H;
      destruct (initializeClientFallback_start sid s) end; cbn [fst] in *.
    eapply steady_trans; [|exact H]. steady_chain.
  - destruct o; cbn [fst]; steady_chain.
  - apply steady_refl.
Qed.

Lemma handler_keeps_owner env now ev s : same_owner s (fst (handler_of env now ev s)).
Proof.
  unfold handler_of.
  destruct (env_fallback env), ev as [[u|e]|w| | | | |]; try (by split);
    unfold on_ready, on_authenticated;
    repeat case_match; by split.
Qed.

Lemma steady_engine_event c ev now st : steady st (engine_event c ev now st).
Proof.
  unfold engine_event.
  destruct (engines st !! c) as [env|]; [|apply steady_refl].
  destruct (heap st !! env_session env) as [s|] eqn:Hs; [|apply steady_refl].
  pose proof (handler_keeps_owner env now ev s) as Ho.
  destruct (handler_of env now ev s) as [s' es]; cbn [fst] in Ho.
  eapply steady_trans; [|apply steady_effects].
  intros l r Hl. cbn [heap with_heap].
  destruct (decide (env_session env = l)) as [<-|Hne].
  - exists s'. rewrite list_lookup_insert_eq by (by eapply lookup_lt_Some).
    split; [done|]. congruence.
  - exists r. rewrite list_lookup_insert_ne by done. split; [done|apply same_owner_refl].
Qed.

Lemma steady_sweep_loop reap line entries st :
  steady st (fst (sweep_loop reap line entries st)).
Proof.
  revert st. induction entries as [|[sid l] rest IH]; intros st; [apply steady_refl|].
  cbn [sweep_loop].
  destruct (get_session st sid) as [[l' r]|]; [|apply IH].
  destruct (reap r); [|apply IH].
  match goal with |- context [destroySession_start sid ?s] =>
    pose proof (steady_destroySession_start sid s) as H;
    destruct (destroySession_start sid s) as [st1 t] end; cbn [fst] in H.
  specialize (IH st1). destruct (sweep_loop reap line rest st1) as [st2 ts].
  cbn [fst] in *.
  eapply steady_trans; [|exact IH]. eapply steady_trans; [|exact H]. steady_chain.
Qed.

Lemma steady_cleanupUnfinishedSessions now st :
  steady st (fst (cleanupUnfinishedSessions now st)).
Proof.
  unfold cleanupUnfinishedSessions.
  match goal with |- context [sweep_loop ?p ?f ?es st] =>
    pose proof (steady_sweep_loop p f es st) as H;
    destruct (sweep_loop p f es st) as [st1 ts] end; cbn [fst] in *.
  eapply steady_trans; [exact H|]. case_bool_decide; steady_chain.
Qed.

Lemma steady_supersede uid st : steady st (fst (supersede uid st)).
Proof.
  unfold supersede.
  destruct (userSessions st !! uid) as [existing|]; [|apply steady_refl].
  destruct (truthy existing && _); [|apply steady_refl].
  match goal with |- context [destroySession_start existing ?s] =>
    pose proof (steady_destroySession_start existing s) as H;
    destruct (destroySession_start existing s) as [st1 t] end; cbn [fst] in *.
  eapply steady_trans; [|apply steady_with_userSessions].
  eapply steady_trans; [|exact H]. steady_chain.
Qed.

Lemma steady_register_new uid dev now st : steady st (snd (register_new uid dev now st)).
Proof.
  destruct (register_new_spec uid dev now st) as (_ & _ & _ & Hh & _).
  intros l r Hl. exists r. rewrite Hh. split; [|apply same_owner_refl].
  by apply lookup_app_l_Some.
Qed.

Lemma steady_exec c st : steady st (exec c st).
Proof.
  destruct c; cbn [exec].
  - rewrite getOrCreateSession_unfold; cbn [fst snd].
    eapply steady_trans; [apply steady_supersede|apply steady_register_new].
  - apply steady_destroySession_start.
  - apply steady_destroySession_resume.
  - apply steady_reconnectSession_start.
  - apply steady_reconnectSession_resume.
  - apply steady_initializeClient_start.
  - apply steady_initializeClientFallback_start.
  - apply steady_initialize_resume.
  - apply steady_startSession_start.
  - apply steady_startSession_resume.
  - apply steady_engine_event.
  - apply steady_sweep_loop.
  - apply steady_cleanupUnfinishedSessions.
  - unfold touch_activity. destruct (get_session st sid) as [[l r]|]; steady_chain.
  - unfold debug_cleanup. steady_chain.
  - apply steady_with_io.
Qed.

(** X10. No step of the server ever frees a session record or changes whose
    it is: after any call, every record is still at its address with the
    [userId] and [deviceInfo] it was created with. *)
Theorem records_keep_owner (c : Call) (st : Manager) (l : Loc) (r : Session) :
  heap st !! l = Some r ->
  exists r', heap (exec c st) !! l = Some r'
             /\ userId r' = userId r /\ deviceInfo r' = deviceInfo r.
Proof. apply steady_exec. Qed.

Lemma records_keep_owner_witness :
  exists r', heap (exec (CallReconnectStart "session-0" false false) st_ready) !! 0 = Some r'
             /\ userId r' = "u" /\ deviceInfo r' = "device".
Proof.
  exact (records_keep_owner (CallReconnectStart "session-0" false false) st_ready 0 _ eq_refl).
Defined.

(** ** The registry stays consistent *)

Lemma registry_consistent_quiet st st' :
  quiet st st' -> steady st st' -> registry_ok st' ->
  registry_consistent st -> registry_consistent st'.
Proof.
  intros Hq Hs Hok [Hres Hal Hown]. split.
  - intros sid l Hl. apply lookup_lt_is_Some_2. by destruct (ok_sessions _ Hok _ _ Hl).
  - intros s1 s2 l H1 H2.
    eapply lookup_weaken in H1; [|apply Hq]. eapply lookup_weaken in H2; [|apply Hq].
    eauto.
  - intros u sid l r Hu Hg. apply get_session_Some in Hg as [Hl Hr].
    eapply lookup_weaken in Hu; [|apply Hq]. eapply lookup_weaken in Hl; [|apply Hq].
    destruct (Hres _ _ Hl) as [r0 Hr0].
    destruct (Hs _ _ Hr0) as (r' & Hr' & Ho & _).
    assert (r' = r) by congruence. subst r'. rewrite Ho.
    eapply Hown; [exact Hu|]. unfold get_session. by rewrite Hl, Hr0.
Qed.

Lemma registry_consistent_register_new uid dev now st :
  registry_ok st -> registry_consistent st ->
  registry_consistent (snd (register_new uid dev now st)).
Proof.
  intros Hok [Hres Hal Hown].
  pose proof (registry_ok_register_new uid dev now st Hok) as Hok'.
  destruct (register_new_spec uid dev now st) as (_ & Hs & Hu & Hh & _ & _ & _).
  pose proof (fresh_not_issued st (ok_stream _ Hok)) as Hfresh.
  split.
  - intros sid l Hl. apply lookup_lt_is_Some_2. by destruct (ok_sessions _ Hok' _ _ Hl).
  - intros s1 s2 l. rewrite Hs.
    destruct (decide (uuid_stream st (uuid_calls st) = s1)) as [<-|N1];
      destruct (decide (uuid_stream st (uuid_calls st) = s2)) as [<-|N2];
      rewrite ?lookup_insert_eq, ?lookup_insert_ne by done; try done.
    + intros [= <-] H2. destruct (ok_sessions _ Hok _ _ H2). lia.
    + intros H1 [= <-]. destruct (ok_sessions _ Hok _ _ H1). lia.
    + apply Hal.
  - intros u sid l r. rewrite Hu. intros Hl Hg.
    apply get_session_Some in Hg as [Hsl Hr]. rewrite Hs in Hsl. rewrite Hh in Hr.
    destruct (decide (uid = u)) as [<-|Hne].
    + rewrite lookup_insert_eq in Hl. injection Hl as <-.
      rewrite lookup_insert_eq in Hsl. injection Hsl as <-.
      rewrite lookup_app_r, Nat.sub_diag in Hr by done. by injection Hr as <-.
    + rewrite lookup_insert_ne in Hl by done.
      assert (uuid_stream st (uuid_calls st) <> sid)
        by (intros <-; apply Hfresh; eapply ok_users; eauto).
      rewrite lookup_insert_ne in Hsl by done.
      destruct (ok_sessions _ Hok _ _ Hsl) as [_ Hlt].
      rewrite lookup_app_l in Hr by done.
      eapply Hown; [exact Hl|]. unfold get_session. by rewrite Hsl, Hr.
Qed.

Lemma registry_consistent_reachable (st : Manager) :
  reachable st -> registry_consistent st.
Proof.
  intros Hreach. pose proof (reachable_registry_ok st Hreach) as Hok.
  induction Hreach as [gen b Hinj|st c Hreach IH].
  - split; cbn; intros *; try by rewrite lookup_empty.
  - specialize (IH (reachable_registry_ok _ Hreach)).
    pose proof (reachable_registry_ok _ Hreach) as Hok0.
    assert ((exists uid dev now, c = CallGetOrCreateSession uid dev now)
            \/ forall uid dev now, c <> CallGetOrCreateSession uid dev now)
      as [(uid & dev & now & ->)|Hc] by (destruct c; eauto).
    + cbn [exec] in *. rewrite getOrCreateSession_unfold in *; cbn [fst snd] in *.
      pose proof (quiet_supersede uid st) as Hq.
      pose proof (registry_ok_quiet _ _ Hq Hok0) as Hok1.
      apply registry_consistent_register_new; [done|].
      eapply registry_consistent_quiet; eauto using steady_supersede.
    + eapply registry_consistent_quiet; [| |exact Hok|exact IH].
      * by apply quiet_exec.
      * apply steady_exec.
Qed.

(** X11. In every state the server can reach, the registry is consistent:
    a registered id always has a record, two ids never share one, and the
    id held as a user's current session, while registered, names a record
    created for that very user. *)
Theorem reachable_registry_consistent (st : Manager) :
  reachable st -> registry_consistent st.
Proof. apply registry_consistent_reachable. Qed.

Lemma reachable_registry_consistent_witness : registry_consistent st_created.
Proof. exact (reachable_registry_consistent st_created st_created_reachable). Defined.

(** ** Runs of the routes are runs of the event loop *)

Lemma reachable_initialize_run os now t st :
  reachable st -> reachable (fst (initialize_run os now t st)).
Proof.
  revert t st. induction os as [|o os IH]; intros t st Hreach.
  - by destruct t.
  - assert (Hstep : reachable (fst (initialize_resume t o now st)))
      by apply (reachable_exec st (CallInitializeResume t o now) Hreach).
    specialize (IH (snd (initialize_resume t o now st)) _ Hstep).
    destruct t; cbn [initialize_run]; try done;
      destruct (initialize_resume _ o now st); exact IH.
Qed.

Lemma reachable_startSession req now primary fallback st :
  reachable st -> reachable (fst (startSession req now primary fallback st)).
Proof.
  intros Hreach. unfold startSession.
  pose proof (reachable_exec st (CallStartSessionStart req) Hreach) as H1.
  cbn [exec] in H1. destruct (startSession_start req st) as [st1 t1]. cbn [fst] in H1.
  destruct t1 as [sid| | |]; try done.
  pose proof (reachable_exec st1 (CallStartSessionResume (StartAwaitDelay sid) Resolved now) H1)
    as H2.
  cbn [exec] in H2.
  destruct (startSession_resume (StartAwaitDelay sid) Resolved now st1) as [[st2 t2] it].
  cbn [fst] in H2.
  assert (H3 : reachable (fst (match it with
                               | Some i => initialize_run primary now i st2
                               | None => (st2, InitRejected "")
                               end)))
    by (destruct it; [by apply reachable_initialize_run|done]).
  destruct (match it with Some i => _ | None => _ end) as [st3 it3]. cbn [fst] in H3.
  pose proof (reachable_exec st3 (CallStartSessionResume t2 (init_outcome it3) now) H3) as H4.
  cbn [exec] in H4.
  destruct (startSession_resume t2 (init_outcome it3) now st3) as [[st4 t4] i4].
  cbn [fst] in H4.
  destruct t4 as [|?|sid'|?]; try done. destruct i4 as [i|]; [|done].
  pose proof (reachable_initialize_run fallback now i st4 H4) as H5.
  destruct (initialize_run fallback now i st4) as [st5 it5]. cbn [fst] in H5.
  pose proof (reachable_exec st5
                (CallStartSessionResume (StartAwaitFallback sid') (init_outcome it5) now) H5)
    as H6.
  cbn [exec] in H6.
  by destruct (startSession_resume (StartAwaitFallback sid') (init_outcome it5) now st5)
    as [[st6 t6] ?].
Qed.

Lemma st_started_reachable : reachable st_started.
Proof. apply reachable_startSession, st_created_reachable. Qed.

Lemma st_ready_reachable : reachable st_ready.
Proof.
  apply (reachable_exec _ (CallEngineEvent _ _ _)),
        (reachable_exec _ (CallEngineEvent _ _ _)), st_started_reachable.
Qed.

(** ** What superseding a session does *)

Lemma get_session_console line st sid : get_session (console line st) sid = get_session st sid.
Proof. reflexivity. Qed.

(** [supersede] on a user who has a registered current session. *)
Lemma supersede_registered u old l r st :
  userSessions st !! u = Some old -> truthy old = true ->
  get_session st old = Some (l, r) -> userId r = u ->
  let st1 := fst (supersede u st) in
  heap st1 = heap st
  /\ userSessions st1 = delete u (userSessions st)
  /\ uuid_stream st1 = uuid_stream st /\ uuid_calls st1 = uuid_calls st
  /\ match client r with
     | Some c => sessions st1 = sessions st
                 /\ snd (supersede u st) = Some (DestroyAwaitTeardown old l)
     | None => sessions st1 = delete old (sessions st)
               /\ snd (supersede u st) = Some (DestroyAwaitRm old l)
               /\ FsRm (session_data_path old) ∈ trace st1
     end.
Proof.
  intros Hu Ht Hg Ho. apply get_session_Some in Hg as Hg'. destruct Hg' as [Hl Hr].
  unfold supersede. rewrite Hu, Ht. cbn [andb].
  rewrite bool_decide_true by (by rewrite Hl).
  unfold destroySession_start. rewrite get_session_console, Hg.
  destruct (client r) as [c|].
  - cbn. repeat split; done.
  - unfold destroy_remove. cbn [heap console effect effects with_trace]. rewrite Hr.
    cbn. rewrite Ho. repeat split; try done.
    + apply map_eq. intros k. destruct (decide (k = u)) as [->|?].
      * by rewrite !lookup_delete_eq.
      * by rewrite !lookup_delete_ne.
    + set_solver.
Qed.

(** [supersede] leaves the other users and the other sessions alone. *)
Lemma supersede_others u st :
  registry_consistent st ->
  let st1 := fst (supersede u st) in
  heap st1 = heap st
  /\ (forall u', u' <> u -> userSessions st1 !! u' = userSessions st !! u')
  /\ (forall sid', userSessions st !! u <> Some sid' ->
                   sessions st1 !! sid' = sessions st !! sid').
Proof.
  intros Hc. cbn zeta.
  destruct (userSessions st !! u) as [old|] eqn:Hu;
    [|unfold supersede; rewrite Hu; by repeat split].
  destruct (truthy old && bool_decide (is_Some (sessions st !! old))) eqn:Hg;
    [|unfold supersede; rewrite Hu, Hg; by repeat split].
  apply andb_true_iff in Hg as [Ht Hreg]. apply bool_decide_eq_true in Hreg as [l Hl].
  destruct (rc_resolves _ Hc _ _ Hl) as [r Hr].
  assert (Hg : get_session st old = Some (l, r)) by (apply get_session_Some; done).
  assert (Ho : userId r = u) by (eapply rc_owner; eauto).
  destruct (supersede_registered u old l r st Hu Ht Hg Ho) as (Hh & Hus & _ & _ & Hcase).
  split; [done|]. split.
  - intros u' Hne. by rewrite Hus, lookup_delete_ne.
  - intros sid' Hne. destruct (client r).
    + by destruct Hcase as [-> _].
    + destruct Hcase as (-> & _). rewrite lookup_delete_ne; [done|congruence].
Qed.

(** X12. Creating a session for one user leaves every other user's current
    session as it was: the same id is registered for them, and it still
    resolves to the same record with the same contents. *)
Theorem getOrCreateSession_other_users
    (st : Manager) (u u' : UserId) (dev : DeviceInfo) (now : Z) :
  reachable st -> u' <> u ->
  let st' := exec (CallGetOrCreateSession u dev now) st in
  userSessions st' !! u' = userSessions st !! u'
  /\ forall sid' l r,
       userSessions st !! u' = Some sid' -> get_session st sid' = Some (l, r) ->
       get_session st' sid' = Some (l, r).
Proof.
  intros Hreach Hne. cbn [exec]. rewrite getOrCreateSession_unfold; cbn [fst snd].
  pose proof (reachable_registry_ok _ Hreach) as Hok.
  pose proof (registry_consistent_reachable _ Hreach) as Hc.
  pose proof (quiet_supersede u st) as Hq.
  destruct (supersede_others u st Hc) as (Hh & Hus & Hss).
  destruct (register_new_spec u dev now (fst (supersede u st)))
    as (_ & Hs & Hu & Hh' & _ & _ & _).
  rewrite (quiet_stream _ _ Hq), (quiet_calls _ _ Hq) in Hs, Hu.
  split; [rewrite Hu, lookup_insert_ne by done; by apply Hus|].
  intros sid' l r Hu' Hg. apply get_session_Some in Hg as Hg'. destruct Hg' as [Hl Hr].
  apply get_session_Some. rewrite Hs, Hh', Hh. split.
  - rewrite lookup_insert_ne.
    + rewrite Hss; [done|]. intros Hu0.
      apply Hne. transitivity (userId r); [symmetry|]; eapply rc_owner; eauto.
    + intros <-. apply (fresh_not_issued st (ok_stream _ Hok)). eapply ok_users; eauto.
  - apply lookup_app_l_Some. done.
Qed.

Lemma getOrCreateSession_other_users_witness :
  userSessions (exec (CallGetOrCreateSession "v" "phone" 3000) st_created) !! "u"
  = Some "session-0"
  /\ get_session (exec (CallGetOrCreateSession "v" "phone" 3000) st_created) "session-0"
     = Some (0, new_session "u" "device" 1000).
Proof.
  destruct (getOrCreateSession_other_users st_created "v" "u" "phone" 3000
              st_created_reachable ltac:(done)) as [Hu Hg].
  split; [exact Hu|]. exact (Hg "session-0" 0 _ eq_refl eq_refl).
Defined.

(** The new id, the manager and the pending task of a call that supersedes
    the registered session [old] of [u]. *)
Lemma getOrCreateSession_supersedes st u dev now old l r :
  reachable st ->
  userSessions st !! u = Some old -> truthy old = true ->
  get_session st old = Some (l, r) ->
  let res := getOrCreateSession u dev now st in
  let sid := fst (fst res) in
  let st' := snd (fst res) in
  sid = uuid_stream st (uuid_calls st) /\ sid <> old
  /\ userSessions st' = <[u := sid]> (userSessions st)
  /\ heap st' = heap st ++ [new_session u dev now]
  /\ userId r = u
  /\ match client r with
     | Some c => sessions st' = <[sid := length (heap st)]> (sessions st)
                 /\ snd res = Some (DestroyAwaitTeardown old l)
     | None => sessions st' = <[sid := length (heap st)]> (delete old (sessions st))
               /\ snd res = Some (DestroyAwaitRm old l)
               /\ FsRm (session_data_path old) ∈ trace st'
     end.
Proof.
  intros Hreach Hu Ht Hg. cbn zeta. rewrite getOrCreateSession_unfold; cbn [fst snd].
  pose proof (reachable_registry_ok _ Hreach) as Hok.
  pose proof (registry_consistent_reachable _ Hreach) as Hc.
  assert (Ho : userId r = u) by (eapply rc_owner; eauto).
  destruct (supersede_registered u old l r st Hu Ht Hg Ho) as (Hh & Hus & Hst & Hca & Hcase).
  destruct (register_new_spec u dev now (fst (supersede u st)))
    as (Hid & Hs & Hu' & Hh' & Htr & _ & _).
  rewrite Hid, Hs, Hu', Hh', Htr, Hh, Hus, Hst, Hca. clear Hid Hs Hu' Hh' Htr.
  split; [done|]. split.
  { intros Heq. apply (fresh_not_issued st (ok_stream _ Hok)). rewrite Heq.
    eapply ok_users; eauto. }
  split; [by rewrite insert_delete_eq|]. split; [done|]. split; [done|].
  destruct (client r).
  - destruct Hcase as [-> ->]. done.
  - destruct Hcase as (-> & -> & Hin). repeat split; try done. set_solver.
Qed.

(** X13. A user whose current session has no engine asks for a session
    again: when the call returns, the old id is no longer registered and the
    removal of its data folder has been issued; and once that removal has
    answered, whatever the answer, the new session is still the user's
    current one. *)
Theorem getOrCreateSession_replaces_idle_session
    (st : Manager) (u : UserId) (dev : DeviceInfo) (now : Z)
    (old : SessionId) (l : Loc) (r : Session) (rm : Outcome) :
  reachable st ->
  userSessions st !! u = Some old -> truthy old = true ->
  get_session st old = Some (l, r) -> client r = None ->
  let res := getOrCreateSession u dev now st in
  let sid := fst (fst res) in
  let st' := snd (fst res) in
  snd res = Some (DestroyAwaitRm old l)
  /\ sessions st' !! old = None
  /\ FsRm (session_data_path old) ∈ trace st'
  /\ let st'' := fst (destroySession_resume (DestroyAwaitRm old l) rm st') in
     userSessions st'' !! u = Some sid /\ isUserSessionCurrent st'' sid = true.
Proof.
  intros Hreach Hu Ht Hg Hc.
  destruct (getOrCreateSession_supersedes st u dev now old l r Hreach Hu Ht Hg)
    as (Hid & Hne & Hus & Hh & Ho & Hcase).
  rewrite Hc in Hcase. destruct Hcase as (Hs & Hp & Hin). cbn zeta.
  set (res := getOrCreateSession u dev now st) in *.
  split; [done|]. split; [|split; [done|]].
  { rewrite Hs, lookup_insert_ne, lookup_delete_eq; done. }
  assert (Hfr : forall st0,
    userSessions (fst (destroySession_resume (DestroyAwaitRm old l) rm st0)) = userSessions st0
    /\ sessions (fst (destroySession_resume (DestroyAwaitRm old l) rm st0)) = sessions st0
    /\ heap (fst (destroySession_resume (DestroyAwaitRm old l) rm st0)) = heap st0).
  { intros st0. cbn. destruct rm; unfold emit_if_io; cbn; destruct (io st0); done. }
  destruct (Hfr (snd (fst res))) as (Hu2 & Hs2 & Hh2).
  assert (Hcur : userSessions (snd (fst res)) !! u = Some (fst (fst res)))
    by (rewrite Hus; apply lookup_insert_eq).
  split; [by rewrite Hu2|].
  unfold isUserSessionCurrent, get_session. rewrite Hs2, Hh2, Hu2, Hs, Hh.
  rewrite lookup_insert_eq, lookup_app_r, Nat.sub_diag by done. cbn.
  by rewrite Hcur, bool_decide_eq_true.
Qed.

Lemma getOrCreateSession_replaces_idle_session_witness :
  sessions (exec (CallGetOrCreateSession "u" "tablet" 5000) st_created) !! "session-0" = None
  /\ userSessions
       (fst (destroySession_resume (DestroyAwaitRm "session-0" 0) (Rejected "EBUSY")
               (exec (CallGetOrCreateSession "u" "tablet" 5000) st_created))) !! "u"
     = Some "session-1".
Proof.
  destruct (getOrCreateSession_replaces_idle_session st_created "u" "tablet" 5000
              "session-0" 0 _ (Rejected "EBUSY") st_created_reachable
              eq_refl eq_refl eq_refl eq_refl) as (_ & Hgone & _ & Hcur & _).
  split; [exact Hgone|exact Hcur].
Defined.

(** X14. A user whose current session has an engine asks for a session
    again: when the call returns, the old id is still registered and its
    teardown is pending; when that teardown resolves, the entry of the user
    is deleted although it names the new session by then, so the user has no
    current session and a start request on the new session is refused as
    replaced. *)
Theorem getOrCreateSession_pending_teardown
    (st : Manager) (u : UserId) (dev : DeviceInfo) (now : Z)
    (old : SessionId) (l : Loc) (r : Session) (c : Engine) :
  reachable st ->
  userSessions st !! u = Some old -> truthy old = true ->
  get_session st old = Some (l, r) -> client r = Some c ->
  truthy (uuid_stream st (uuid_calls st)) = true ->
  let res := getOrCreateSession u dev now st in
  let sid := fst (fst res) in
  let st' := snd (fst res) in
  snd res = Some (DestroyAwaitTeardown old l)
  /\ sessions st' !! old = Some l
  /\ userSessions st' !! u = Some sid
  /\ let st'' := fst (destroySession_resume (DestroyAwaitTeardown old l) Resolved st') in
     userSessions st'' !! u = None
     /\ is_Some (sessions st'' !! sid)
     /\ snd (startSession_start (Some sid) st'')
        = StartResponded
            (JsonError 410 "This session has been replaced by a newer session" None).
Proof.
  intros Hreach Hu Ht Hg Hc Hts.
  pose proof (reachable_registry_ok _ Hreach) as Hok.
  destruct (getOrCreateSession_supersedes st u dev now old l r Hreach Hu Ht Hg)
    as (Hid & Hne & Hus & Hh & Ho & Hcase).
  rewrite Hc in Hcase. destruct Hcase as (Hs & Hp). cbn zeta.
  set (res := getOrCreateSession u dev now st) in *.
  apply get_session_Some in Hg as [Hl Hr].
  assert (Hlt : l < length (heap st)) by (by eapply lookup_lt_Some).
  split; [done|]. split; [by rewrite Hs, lookup_insert_ne|].
  split; [rewrite Hus; apply lookup_insert_eq|].
  assert (Hr' : heap (snd (fst res)) !! l = Some r)
    by (rewrite Hh; by apply lookup_app_l_Some).
  cbn [destroySession_resume]. unfold destroy_remove. rewrite Hr'. cbn [fst].
  cbn [userSessions sessions effect effects with_trace with_userSessions with_sessions].
  rewrite Ho, Hus, Hs.
  split; [apply lookup_delete_eq|]. split.
  { rewrite lookup_delete_ne, lookup_insert_eq by done. eauto. }
  unfold startSession_start. rewrite Hid at 1. rewrite Hts. cbn [negb].
  rewrite get_session_console.
  unfold get_session at 1. cbn [sessions heap effect effects with_trace with_userSessions
    with_sessions console userSessions].
  rewrite lookup_delete_ne, lookup_insert_eq, Hh by done.
  rewrite lookup_app_r, Nat.sub_diag by done. cbn [lookup list_lookup new_session userId].
  rewrite lookup_delete_eq. rewrite bool_decide_false by done. reflexivity.
Qed.

Lemma getOrCreateSession_pending_teardown_witness :
  sessions st_superseded !! "session-0" = Some 0
  /\ userSessions
       (fst (destroySession_resume (DestroyAwaitTeardown "session-0" 0) Resolved
               st_superseded)) !! "u" = None.
Proof.
  assert (Hreach : reachable st_ready) by exact st_ready_reachable.
  destruct (getOrCreateSession_pending_teardown st_ready "u" "device" 200000
              "session-0" 0 _ 0 Hreach eq_refl eq_refl eq_refl eq_refl eq_refl)
    as (_ & Hreg & _ & Hnone & _).
  split; [exact Hreg|exact Hnone].
Defined.

(** ** Engine events *)

Lemma handler_keeps_links env now ev s :
  let s' := fst (handler_of env now ev s) in
  client s' = client s /\ reconnecting s' = reconnecting s
  /\ userId s' = userId s /\ deviceInfo s' = deviceInfo s.
Proof.
  unfold handler_of.
  destruct (env_fallback env), ev as [[u|e]|w| | | | |]; try (by repeat split);
    unfold on_ready, on_authenticated; repeat case_match; by repeat split.
Qed.

Lemma engine_event_frame_engines c ev now st :
  engines (engine_event c ev now st) = engines st.
Proof.
  unfold engine_event. destruct (engines st !! c) as [env|]; [|done].
  destruct (heap st !! env_session env) as [s|]; [|done].
  by destruct (handler_of env now ev s).
Qed.

(** X15. An event of an engine neither registers nor unregisters anything
    and creates no engine; of the records it can only change the one its
    handlers were registered for, and of that one never the engine handle,
    the [reconnecting] flag or the owner. *)
Theorem engine_event_frame (c : Engine) (ev : EngineEvent) (now : Z) (st : Manager) :
  let st' := engine_event c ev now st in
  sessions st' = sessions st /\ userSessions st' = userSessions st
  /\ engines st' = engines st
  /\ length (heap st') = length (heap st)
  /\ forall l r, heap st !! l = Some r ->
       exists r', heap st' !! l = Some r'
         /\ client r' = client r /\ reconnecting r' = reconnecting r
         /\ userId r' = userId r /\ deviceInfo r' = deviceInfo r
         /\ (env_session <$> engines st !! c <> Some l -> r' = r).
Proof.
  unfold engine_event.
  destruct (engines st !! c) as [env|] eqn:He;
    [|repeat split; try done; intros l r Hl; exists r; by repeat split].
  destruct (heap st !! env_session env) as [s|] eqn:Hs;
    [|repeat split; try done; intros l r Hl; exists r; by repeat split].
  pose proof (handler_keeps_links env now ev s) as Hk.
  destruct (handler_of env now ev s) as [s' es]. cbn [fst] in Hk.
  cbn [sessions userSessions engines heap effects with_trace with_heap].
  repeat split; try done; [by rewrite length_insert|].
  intros l r Hl. destruct (decide (env_session env = l)) as [<-|Hne].
  - exists s'. rewrite list_lookup_insert_eq by (by eapply lookup_lt_Some).
    assert (r = s) by congruence. subst r.
    destruct Hk as (? & ? & ? & ?). repeat split; try done.
  - exists r. rewrite list_lookup_insert_ne by done. by repeat split.
Qed.

Lemma count_effects_log p sid t0 now m t :
  count_effects p (t ++ [client_log sid t0 now m]) = count_effects p t + (if p (client_log sid t0 now m) then 1 else 0).
Proof.
  rewrite count_effects_app. f_equal. unfold count_effects.
  rewrite filter_cons, filter_nil. by destruct (p _); case_decide.
Qed.



(** ** Reconnection without callbacks *)

Lemma reset_after_mark r :
  set_reconnecting false (reset_session (set_reconnecting true r))
  = set_reconnecting false (reset_session r).
Proof. by destruct r. Qed.

Lemma adds_no_init_call_trans st1 st2 st3 :
  adds_no_init_call st1 st2 -> adds_no_init_call st2 st3 -> adds_no_init_call st1 st3.
Proof.
  intros (e1 & H1 & C1) (e2 & H2 & C2). exists (e1 ++ e2).
  rewrite H2, H1, app_assoc, count_effects_app. split; [done|lia].
Qed.

Lemma adds_no_init_call_count st st' :
  adds_no_init_call st st' ->
  count_effects is_init_call (trace st') = count_effects is_init_call (trace st).
Proof. intros (es & -> & Hc). rewrite count_effects_app. lia. Qed.

Lemma adds_no_init_call_elem st st' e :
  adds_no_init_call st st' -> e ∈ trace st -> e ∈ trace st'.
Proof. intros (es & -> & _) Hin. apply elem_of_app. by left. Qed.

Lemma emit_if_io_frame sid ev args st :
  sessions (emit_if_io sid ev args st) = sessions st
  /\ userSessions (emit_if_io sid ev args st) = userSessions st
  /\ engines (emit_if_io sid ev args st) = engines st
  /\ adds_no_init_call st (emit_if_io sid ev args st).
Proof.
  unfold emit_if_io. destruct (io st); repeat split; try done.
  - by eexists [_].
  - exists []. by rewrite app_nil_r.
Qed.

(** With no [initializeClient] passed, the reset is the end of the call. *)
Lemma reconnect_reset_no_callbacks sid l fb st r0 :
  heap st !! l = Some r0 ->
  let p := reconnect_reset sid l false fb st in
  snd p = ReconnectReturned
  /\ heap (fst p) = <[l := reset_record r0]> (heap st)
  /\ sessions (fst p) = sessions st /\ userSessions (fst p) = userSessions st
  /\ engines (fst p) = engines st
  /\ adds_no_init_call st (fst p).
Proof.
  intros Hh. unfold reconnect_reset. cbn [fst snd].
  split; [done|]. split.
  { unfold update at 1. cbn [heap with_heap]. change (heap (console ?e ?s)) with (heap s).
    rewrite heap_emit_if_io. unfold update. cbn [heap with_heap].
    apply list_eq. intros i. destruct (decide (i = l)) as [->|Hne].
    - rewrite !list_lookup_alter_eq, Hh, list_lookup_insert_eq by (by eapply lookup_lt_Some).
      done.
    - by rewrite !list_lookup_alter_ne, list_lookup_insert_ne. }
  destruct (emit_if_io_frame sid "reconnecting" [sid; "Session reconnecting..."]
              (update l reset_session st)) as (Hs & Hu & He & Hc).
  cbn [sessions userSessions engines update with_heap console effect effects with_trace].
  rewrite Hs, Hu, He. repeat split; try done.
  eapply adds_no_init_call_trans; [exact Hc|]. by eexists [_].
Qed.

Lemma reconnect_mark_frame sid l st :
  sessions (reconnect_mark sid l st) = sessions st
  /\ userSessions (reconnect_mark sid l st) = userSessions st
  /\ engines (reconnect_mark sid l st) = engines st
  /\ heap (reconnect_mark sid l st) = alter (set_reconnecting true) l (heap st)
  /\ adds_no_init_call st (reconnect_mark sid l st).
Proof. repeat split; try done. by eexists [_]. Qed.

Lemma reconnect_no_callbacks_rest sid l fb o st r1 :
  heap st !! l = Some r1 ->
  let p := reconnectSession_resume (ReconnectAwaitTeardown sid l false fb) o st in
  snd p = ReconnectReturned
  /\ heap (fst p) = <[l := reset_record r1]> (heap st)
  /\ sessions (fst p) = sessions st /\ userSessions (fst p) = userSessions st
  /\ engines (fst p) = engines st
  /\ adds_no_init_call st (fst p).
Proof.
  intros Hh. cbn [reconnectSession_resume].
  destruct o as [|e].
  - by apply reconnect_reset_no_callbacks.
  - destruct (reconnect_reset_no_callbacks sid l fb
                (console (LogErrorDestroyingOldClient sid e) st) r1 Hh)
      as (? & ? & ? & ? & ? & Hc).
    repeat split; try done.
    eapply adds_no_init_call_trans; [|exact Hc]. by eexists [_].
Qed.

(** A call without callbacks that is let through, up to its end. *)
Lemma reconnect_no_callbacks_run sid l r teardown primary fallback st :
  get_session st sid = Some (l, r) -> reconnecting r = false ->
  let st' := reconnectSession sid false false teardown primary fallback st in
  heap st' = <[l := reset_record r]> (heap st)
  /\ sessions st' = sessions st /\ userSessions st' = userSessions st
  /\ engines st' = engines st
  /\ adds_no_init_call st st'
  /\ forall c, client r = Some c -> ClientDestroy c ∈ trace st'.
Proof.
  intros Hg Hflag. cbn zeta. unfold reconnectSession.
  rewrite (reconnectSession_start_proceeds _ _ _ _ _ _ Hg Hflag).
  apply get_session_Some in Hg as [Hl Hr].
  assert (Hlt : l < length (heap st)) by (by eapply lookup_lt_Some).
  destruct (reconnect_mark_frame sid l st) as (Hs & Hu & He & Hh & Ht).
  assert (Hr1 : heap (reconnect_mark sid l st) !! l = Some (set_reconnecting true r))
    by (by rewrite Hh, list_lookup_alter_eq, Hr).
  assert (Hins : <[l := reset_record (set_reconnecting true r)]>
                   (alter (set_reconnecting true) l (heap st))
                 = <[l := reset_record r]> (heap st)).
  { unfold reset_record. rewrite reset_after_mark. apply list_eq. intros i.
    destruct (decide (i = l)) as [->|Hne].
    - by rewrite !list_lookup_insert_eq by (by rewrite ?length_alter).
    - by rewrite !list_lookup_insert_ne, list_lookup_alter_ne. }
  unfold reconnect_attempt. destruct (client r) as [c|].
  - cbn [fst snd].
    destruct (reconnect_no_callbacks_rest sid l false teardown
                (effect (ClientDestroy c) (reconnect_mark sid l st))
                (set_reconnecting true r) Hr1) as (Ht1 & Hh1 & Hs1 & Hu1 & He1 & Hc1).
    destruct (reconnectSession_resume (ReconnectAwaitTeardown sid l false false) teardown
                (effect (ClientDestroy c) (reconnect_mark sid l st))) as [st2 t2].
    cbn [fst snd] in *. subst t2. cbn [reconnectSession_resume fst].
    rewrite Hh1, Hs1, Hu1, He1.
    change (heap (effect ?e ?s)) with (heap s). rewrite Hh, Hins.
    repeat split; try done.
    + eapply adds_no_init_call_trans; [exact Ht|].
      eapply adds_no_init_call_trans; [|exact Hc1]. by eexists [_].
    + intros c' [= <-]. eapply adds_no_init_call_elem; [exact Hc1|].
      apply elem_of_app. right. by apply list_elem_of_singleton.
  - destruct (reconnect_reset_no_callbacks sid l false (reconnect_mark sid l st)
                (set_reconnecting true r) Hr1) as (Ht1 & Hh1 & Hs1 & Hu1 & He1 & Hc1).
    destruct (reconnect_reset sid l false false (reconnect_mark sid l st)) as [st2 t2].
    cbn [fst snd] in *. subst t2. cbn [reconnectSession_resume fst].
    rewrite Hh1, Hs1, Hu1, He1, Hh, Hins. repeat split; try done.
    eapply adds_no_init_call_trans; [exact Ht|exact Hc1].
Qed.

(** X17. Every caller of [reconnectSession] in the server passes no
    callbacks.  Such a call on a registered session that is not already
    reconnecting, run to its end, leaves the record without engine handle,
    not ready, not authenticated, without QR code and with the flag cleared;
    it registers and unregisters nothing, creates no engine and calls
    neither initialiser; the old engine, if there was one, has been asked to
    shut down. *)
Theorem reconnectSession_without_callbacks
    (sid : SessionId) (l : Loc) (r : Session) (teardown primary fallback : Outcome)
    (st : Manager) :
  get_session st sid = Some (l, r) -> reconnecting r = false ->
  let st' := reconnectSession sid false false teardown primary fallback st in
  heap st' = <[l := set_reconnecting false (reset_session r)]> (heap st)
  /\ sessions st' = sessions st /\ userSessions st' = userSessions st
  /\ engines st' = engines st
  /\ count_effects is_init_call (trace st') = count_effects is_init_call (trace st)
  /\ forall c, client r = Some c -> ClientDestroy c ∈ trace st'.
Proof.
  intros Hg Hflag.
  destruct (reconnect_no_callbacks_run sid l r teardown primary fallback st Hg Hflag)
    as (Hh & Hs & Hu & He & Hc & Hd).
  repeat split; try done. by apply adds_no_init_call_count.
Qed.

Lemma reconnectSession_without_callbacks_witness :
  field client 0 (reconnectSession "session-0" false false (Rejected "gone") Resolved
                    Resolved st_ready) = Some None
  /\ ClientDestroy 0 ∈ trace (reconnectSession "session-0" false false (Rejected "gone")
                                Resolved Resolved st_ready).
Proof.
  destruct (reconnectSession_without_callbacks "session-0" 0 _ (Rejected "gone") Resolved
              Resolved st_ready eq_refl eq_refl) as (Hh & _ & _ & _ & _ & Hd).
  split; [unfold field; rewrite Hh; reflexivity|exact (Hd 0 eq_refl)].
Defined.

(** ** The send-message route and the health check *)

Lemma includes_at_app s t : includes_at t = true -> includes_at (s +:+ t) = true.
Proof.
  intros Ht. induction s as [|a s IH]; [done|].
  rewrite app_cons. cbn [includes_at]. rewrite IH. apply orb_true_r.
Qed.

Lemma chat_id_includes_at recipient : includes_at (chat_id recipient) = true.
Proof.
  unfold chat_id. destruct (includes_at recipient) eqn:E; [done|].
  by apply includes_at_app.
Qed.

Lemma isSessionHealthy_spec sid probe st :
  isSessionHealthy sid probe st = true <->
  exists l r c, get_session st sid = Some (l, r) /\ client r = Some c
                /\ isReady r = true /\ reconnecting r = false /\ probe = Resolved.
Proof.
  unfold isSessionHealthy. split.
  - destruct (get_session st sid) as [[l r]|]; [|done].
    destruct (client r) as [c|] eqn:Hc; [|by rewrite bool_decide_false by (by intros [? ?])].
    destruct (isReady r) eqn:Hr, (reconnecting r) eqn:Hf, probe; cbn;
      rewrite ?andb_false_r; try done.
    intros _. by exists l, r, c.
  - intros (l & r & c & -> & Hc & -> & -> & ->).
    rewrite bool_decide_true by (by rewrite Hc). done.
Qed.

(** X18. The send-message route hands a message to the engine exactly when
    the request names a session, a recipient and a text, the session is
    registered, has an engine, is ready and not reconnecting, and the probe
    of the engine answered; the chat id it hands over always contains an
    [@], the recipient's own if it has one. *)
Theorem sendMessage_guard_proceeds
    (sid : SessionId) (to message : option string) (probe : Outcome) (now : Z)
    (st : Manager) (c : Engine) (chatId text : string) :
  (snd (fst (sendMessage_guard sid to message probe now st)) = SendProceeds c chatId text
   <-> exists l r recipient,
         sid <> "" /\ given to = Some recipient /\ given message = Some text
         /\ get_session st sid = Some (l, r) /\ client r = Some c /\ isReady r = true
         /\ reconnecting r = false /\ probe = Resolved /\ chatId = chat_id recipient)
  /\ (forall recipient, includes_at (chat_id recipient) = true
                        /\ (includes_at recipient = true -> chat_id recipient = recipient)).
Proof.
  split; [|intros recipient; split; [apply chat_id_includes_at|by unfold chat_id; intros ->]].
  unfold sendMessage_guard. split.
  - destruct (truthy sid) eqn:Hsid; [|done]. cbn [negb].
    destruct (given to) as [recipient|]; [|done].
    destruct (given message) as [text'|]; [|done].
    destruct (get_session st sid) as [[l r]|] eqn:Hg; [|done].
    destruct (client r) as [c'|] eqn:Hc; [|done].
    destruct (isReady r) eqn:Hr; [|done]. cbn [negb].
    destruct (isSessionHealthy sid probe st) eqn:Hh.
    + cbn. intros [= -> <- ->].
      apply isSessionHealthy_spec in Hh as (l' & r' & c0 & Hg' & _ & _ & Hrec & Hp).
      assert (r' = r) by congruence. subst r'.
      exists l, r, recipient. repeat split; try done.
      intros ->. done.
    + by destruct (reconnectSession_start sid false false st).
  - intros (l & r & recipient & Hsid & -> & -> & Hg & Hc & Hr & Hrec & -> & ->).
    assert (truthy sid = true) as ->
      by (unfold truthy; apply negb_true_iff; by apply String.eqb_neq).
    cbn [negb]. rewrite Hg, Hc, Hr. cbn [negb].
    assert (isSessionHealthy sid Resolved st = true) as ->
      by (apply isSessionHealthy_spec; by exists l, r, c).
    done.
Qed.

Lemma not_ready_refused sid to message probe now st l r recipient text :
  truthy sid = true -> given to = Some recipient -> given message = Some text ->
  get_session st sid = Some (l, r) -> client r = None ->
  sendMessage_guard sid to message probe now st
  = (st, SendRefused (JsonError 400 "WhatsApp client not ready" None), None).
Proof.
  intros Hsid Hto Hm Hg Hc. unfold sendMessage_guard.
  by rewrite Hsid, Hto, Hm, Hg, Hc.
Qed.

Lemma reconnectSession_start_no_callbacks sid l r c st :
  get_session st sid = Some (l, r) -> reconnecting r = false -> client r = Some c ->
  reconnectSession_start sid false false st
  = (effect (ClientDestroy c) (reconnect_mark sid l st),
     ReconnectAwaitTeardown sid l false false).
Proof.
  intros Hg Hf Hc. rewrite (reconnectSession_start_proceeds _ _ _ _ _ _ Hg Hf).
  unfold reconnect_attempt. by rewrite Hc.
Qed.

(** The teardown a call without callbacks awaits is its last step. *)
Lemma reconnect_pending_teardown sid l r c teardown st :
  get_session st sid = Some (l, r) -> reconnecting r = false -> client r = Some c ->
  let st1 := effect (ClientDestroy c) (reconnect_mark sid l st) in
  let st2 := fst (reconnectSession_resume (ReconnectAwaitTeardown sid l false false)
                    teardown st1) in
  get_session st2 sid = Some (l, reset_record r)
  /\ userSessions st2 = userSessions st
  /\ adds_no_init_call st st2
  /\ ClientDestroy c ∈ trace st2.
Proof.
  intros Hg Hf Hc. cbn zeta. apply get_session_Some in Hg as [Hl Hr].
  destruct (reconnect_mark_frame sid l st) as (Hs & Hu & He & Hh & Ht).
  assert (Hr1 : heap (effect (ClientDestroy c) (reconnect_mark sid l st)) !! l
                = Some (set_reconnecting true r)).
  { change (heap (effect ?e ?s)) with (heap s). by rewrite Hh, list_lookup_alter_eq, Hr. }
  destruct (reconnect_no_callbacks_rest sid l false teardown _ _ Hr1)
    as (_ & Hh1 & Hs1 & Hu1 & _ & Hc1).
  split; [|split; [by rewrite Hu1|split]].
  - apply get_session_Some. rewrite Hs1, Hh1. split; [done|].
    rewrite list_lookup_insert_eq.
    + unfold reset_record. by rewrite reset_after_mark.
    + change (heap (effect ?e ?s)) with (heap s). rewrite Hh, length_alter.
      by eapply lookup_lt_Some.
  - eapply adds_no_init_call_trans; [exact Ht|].
    eapply adds_no_init_call_trans; [|exact Hc1]. by eexists [_].
  - eapply adds_no_init_call_elem; [exact Hc1|].
    apply elem_of_app. right. by apply list_elem_of_singleton.
Qed.

(** X19. A send request whose probe of the engine fails is answered 503,
    [reconnection in progress, please try again]; the reconnection it starts
    shuts the engine down and calls no initialiser, so that once the
    shutdown has answered, the session has no engine and every further send
    request on it is refused with 400, [WhatsApp client not ready]. *)
Theorem sendMessage_unhealthy_then_not_ready
    (sid : SessionId) (to message to' message' : option string) (e : string)
    (now now' : Z) (probe' teardown : Outcome)
    (st : Manager) (l : Loc) (r : Session) (c : Engine) :
  truthy sid = true ->
  is_Some (given to) -> is_Some (given message) ->
  is_Some (given to') -> is_Some (given message') ->
  get_session st sid = Some (l, r) ->
  client r = Some c -> isReady r = true -> reconnecting r = false ->
  let res := sendMessage_guard sid to message (Rejected e) now st in
  snd (fst res) = SendRefused unhealthy_response
  /\ snd res = Some (ReconnectAwaitTeardown sid l false false)
  /\ let st2 := fst (reconnectSession_resume (ReconnectAwaitTeardown sid l false false)
                       teardown (fst (fst res))) in
     count_effects is_init_call (trace st2) = count_effects is_init_call (trace st)
     /\ field client l st2 = Some None
     /\ sendMessage_guard sid to' message' probe' now' st2
        = (st2, SendRefused (JsonError 400 "WhatsApp client not ready" None), None).
Proof.
  intros Hsid [recipient Hto] [text Hm] [recipient' Hto'] [text' Hm'] Hg Hc Hr Hf.
  cbn zeta.
  assert (Hres : sendMessage_guard sid to message (Rejected e) now st
                 = (effect (ClientDestroy c) (reconnect_mark sid l st),
                    SendRefused unhealthy_response,
                    Some (ReconnectAwaitTeardown sid l false false))).
  { unfold sendMessage_guard. rewrite Hsid, Hto, Hm, Hg, Hc, Hr. cbn [negb].
    assert (isSessionHealthy sid (Rejected e) st = false) as ->.
    { apply not_true_is_false. rewrite isSessionHealthy_spec.
      by intros (? & ? & ? & _ & _ & _ & _ & ?). }
    by rewrite (reconnectSession_start_no_callbacks _ _ _ _ _ Hg Hf Hc). }
  rewrite Hres. cbn [fst snd].
  destruct (reconnect_pending_teardown sid l r c teardown st Hg Hf Hc)
    as (Hg2 & _ & Hn & _).
  split; [done|]. split; [done|]. split; [by apply adds_no_init_call_count|].
  split.
  - apply get_session_Some in Hg2 as [_ Hh2]. unfold field. by rewrite Hh2.
  - by eapply not_ready_refused.
Qed.

Lemma sendMessage_unhealthy_then_not_ready_witness :
  snd (fst (sendMessage_guard "session-0" (Some "4917") (Some "hello")
              (Rejected "Health check timeout") 300000 st_ready))
  = SendRefused unhealthy_response
  /\ snd (fst (sendMessage_guard "session-0" (Some "4917") (Some "hello") Resolved 301000
                 (fst (reconnectSession_resume
                         (ReconnectAwaitTeardown "session-0" 0 false false) Resolved
                         (fst (fst (sendMessage_guard "session-0" (Some "4917")
                                      (Some "hello") (Rejected "Health check timeout")
                                      300000 st_ready)))))))
     = SendRefused (JsonError 400 "WhatsApp client not ready" None).
Proof.
  destruct (sendMessage_unhealthy_then_not_ready "session-0" (Some "4917") (Some "hello")
              (Some "4917") (Some "hello") "Health check timeout" 300000 301000
              Resolved Resolved st_ready 0 _ 0 eq_refl
              ltac:(by eexists) ltac:(by eexists) ltac:(by eexists) ltac:(by eexists)
              eq_refl eq_refl eq_refl eq_refl) as (H503 & _ & _ & _ & H400).
  split; [exact H503|]. by rewrite H400.
Defined.

(** X20. The periodic health check, on a current session that has an engine
    but is not ready (say, one showing its QR code) and saw no activity for
    five minutes, shuts the engine down and resets the record; nothing
    restarts it: no initialiser is called, and the session is left as one
    that was never started, which a start request will initialise again. *)
Theorem checkSessionHealth_resets_waiting_session
    (sid : SessionId) (l : Loc) (r : Session) (c : Engine) (now : Z)
    (probe teardown : Outcome) (st : Manager) :
  truthy sid = true ->
  get_session st sid = Some (l, r) -> userSessions st !! userId r = Some sid ->
  client r = Some c -> isReady r = false -> reconnecting r = false ->
  (5 * 60 * 1000 <= now - lastActivity r)%Z ->
  let res := checkSessionHealth_turn sid now probe st in
  snd (fst res) = HealthReconnect
  /\ snd res = Some (ReconnectAwaitTeardown sid l false false)
  /\ let st2 := fst (reconnectSession_resume (ReconnectAwaitTeardown sid l false false)
                       teardown (fst (fst res))) in
     get_session st2 sid = Some (l, set_reconnecting false (reset_session r))
     /\ ClientDestroy c ∈ trace st2
     /\ count_effects is_init_call (trace st2) = count_effects is_init_call (trace st)
     /\ snd (startSession_start (Some sid) st2) = StartAwaitDelay sid.
Proof.
  intros Hsid Hg Hcur Hc Hr Hf Hidle. cbn zeta.
  assert (Hres : checkSessionHealth_turn sid now probe st
                 = (effect (ClientDestroy c) (reconnect_mark sid l st), HealthReconnect,
                    Some (ReconnectAwaitTeardown sid l false false))).
  { unfold checkSessionHealth_turn.
    rewrite Hg, bool_decide_true by done. cbn [negb].
    destruct (Z.ltb_spec (now - lastActivity r) (5 * 60 * 1000)) as [?|_]; [lia|].
    rewrite Hr. cbn [negb]. rewrite orb_true_r.
    by rewrite (reconnectSession_start_no_callbacks _ _ _ _ _ Hg Hf Hc). }
  rewrite Hres. cbn [fst snd].
  destruct (reconnect_pending_teardown sid l r c teardown st Hg Hf Hc)
    as (Hg2 & Hu2 & Hn & Hd).
  split; [done|]. split; [done|]. split; [done|]. split; [done|].
  split; [by apply adds_no_init_call_count|].
  unfold startSession_start. rewrite Hsid. cbn [negb].
  rewrite get_session_console, Hg2.
  change (userSessions (console ?x ?s)) with (userSessions s). rewrite Hu2.
  change (userId (reset_record r)) with (userId r). rewrite Hcur.
  rewrite bool_decide_true by done. reflexivity.
Qed.

Lemma checkSessionHealth_resets_waiting_session_witness :
  snd (fst (checkSessionHealth_turn "session-0" 400000 Resolved st_started))
  = HealthReconnect
  /\ field qrCode 0
       (fst (reconnectSession_resume (ReconnectAwaitTeardown "session-0" 0 false false)
               Resolved
               (fst (fst (checkSessionHealth_turn "session-0" 400000 Resolved st_started)))))
     = Some None.
Proof.
  destruct (checkSessionHealth_resets_waiting_session "session-0" 0 _ 0 400000 Resolved
              Resolved st_started eq_refl eq_refl eq_refl eq_refl eq_refl eq_refl
              ltac:(vm_compute; discriminate)) as (Hv & _ & Hg & _).
  split; [exact Hv|].
  apply get_session_Some in Hg as [_ Hh]. unfold field. by rewrite Hh.
Defined.

(** ** The start route, further *)

Lemma startSession_start_engines req st :
  engines (fst (startSession_start req st)) = engines st.
Proof.
  unfold startSession_start. destruct req as [sid|]; [|done].
  destruct (negb (truthy sid)); [done|].
  destruct (get_session _ sid) as [[l r]|]; [|done].
  destruct (negb _); [done|]. by destruct (client r).
Qed.

Lemma startSession_start_delay req st sid :
  snd (startSession_start req st) = StartAwaitDelay sid ->
  req = Some sid /\ truthy sid = true
  /\ exists l r, get_session st sid = Some (l, r) /\ client r = None
                 /\ userSessions st !! userId r = Some sid.
Proof.
  unfold startSession_start. destruct req as [sid'|]; [|done].
  destruct (truthy sid') eqn:Ht; [|done]. cbn [negb].
  rewrite get_session_console.
  destruct (get_session st sid') as [[l r]|] eqn:Hg; [|done].
  change (userSessions (console ?x ?s)) with (userSessions s).
  destruct (bool_decide (userSessions st !! userId r = Some sid')) eqn:Hb; [|done].
  apply bool_decide_eq_true in Hb. cbn [negb].
  destruct (client r) eqn:Hc; [done|]. cbn. intros [= <-]. eauto 10.
Qed.

(** X21. The start route creates an engine only for a session that is
    registered, is the current session of its user and has no engine yet:
    every other request leaves the engines as they are. *)
Theorem startSession_creates_engine_only_when_startable
    (req : option SessionId) (now : Z) (primary fallback : list Outcome) (st : Manager) :
  engines (fst (startSession req now primary fallback st)) <> engines st ->
  exists sid l r,
    req = Some sid /\ sid <> "" /\ get_session st sid = Some (l, r)
    /\ client r = None /\ userSessions st !! userId r = Some sid.
Proof.
  intros Hne. unfold startSession in Hne.
  pose proof (startSession_start_engines req st) as He.
  pose proof (startSession_start_delay req st) as Hd.
  destruct (startSession_start req st) as [st1 t1]. cbn [fst snd] in *.
  destruct t1 as [sid| | |]; try by destruct Hne.
  destruct (Hd sid eq_refl) as (-> & Ht & l & r & Hg & Hc & Hu).
  exists sid, l, r. repeat split; try done. intros ->. done.
Qed.

Lemma startSession_creates_engine_only_when_startable_witness :
  exists sid l r,
    Some "session-0" = Some sid /\ sid <> "" /\ get_session st_created sid = Some (l, r)
    /\ client r = None /\ userSessions st_created !! userId r = Some sid.
Proof.
  apply (startSession_creates_engine_only_when_startable (Some "session-0") 2000
           [Resolved; Resolved; Resolved] [] st_created).
  vm_compute. discriminate.
Defined.

Lemma lookup_update_eq l f st r :
  heap st !! l = Some r -> heap (update l f st) !! l = Some (f r).
Proof. intros H. unfold update. cbn. by rewrite list_lookup_alter_eq, H. Qed.

Lemma update_insert l f st r :
  heap st !! l = Some r -> heap (update l f st) = <[l := f r]> (heap st).
Proof.
  intros H. unfold update. cbn. apply list_eq. intros i.
  destruct (decide (i = l)) as [->|Hne].
  - by rewrite list_lookup_alter_eq, H, list_lookup_insert_eq by (by eapply lookup_lt_Some).
  - by rewrite list_lookup_alter_ne, list_lookup_insert_ne.
Qed.

Ltac run_initialiser Hr :=
  cbn [initialize_run initialize_resume attach_engine fst snd];
  cbn [heap engines sessions userSessions effect effects console with_trace with_engines
       update with_heap];
  rewrite ?list_lookup_alter_eq, ?Hr;
  cbn [fmap option_fmap option_map mbind option_bind client set_client];
  cbn [initialize_run initialize_resume init_give_up fst snd];
  cbn [heap engines sessions userSessions effect effects console with_trace with_engines
       update with_heap].

Lemma alter_insert (f : Session -> Session) l (h : list Session) r :
  h !! l = Some r -> alter f l h = <[l := f r]> h.
Proof.
  intros H. apply list_eq. intros i. destruct (decide (i = l)) as [->|Hne].
  - by rewrite list_lookup_alter_eq, H, list_lookup_insert_eq by (by eapply lookup_lt_Some).
  - by rewrite list_lookup_alter_ne, list_lookup_insert_ne.
Qed.

Lemma alter_alter_insert (f g : Session -> Session) l (h : list Session) r :
  h !! l = Some r -> alter f l (alter g l h) = <[l := f (g r)]> h.
Proof.
  intros H. rewrite (alter_insert f l _ (g r)) by (by rewrite list_lookup_alter_eq, H).
  apply list_eq. intros i. destruct (decide (i = l)) as [->|Hne].
  - by rewrite !list_lookup_insert_eq by (rewrite ?length_alter; by eapply lookup_lt_Some).
  - by rewrite !list_lookup_insert_ne, list_lookup_alter_ne.
Qed.

(** The primary initialiser whose [client.initialize()] resolves. *)
Lemma initialize_primary_resolved sid l t0 now ro oc st r0 :
  heap st !! l = Some r0 ->
  let p := initialize_run [Resolved; ro; Resolved; oc] now (InitAwaitMkdir sid l t0) st in
  snd p = InitResolved (length (engines st))
  /\ heap (fst p) = <[l := set_client (Some (length (engines st))) r0]> (heap st)
  /\ sessions (fst p) = sessions st /\ userSessions (fst p) = userSessions st
  /\ engines (fst p) = engines st ++ [mkEngineEnv sid l t0 false].
Proof.
  intros Hr. run_initialiser Hr. repeat split; try done. by apply alter_insert.
Qed.

(** The primary initialiser whose [client.initialize()] rejects. *)
Lemma initialize_primary_rejected sid l t0 now ro e oc st r0 :
  heap st !! l = Some r0 ->
  let p := initialize_run [Resolved; ro; Rejected e; oc] now (InitAwaitMkdir sid l t0) st in
  snd p = InitRejected e
  /\ heap (fst p) = <[l := set_qrCode None (set_client None r0)]> (heap st)
  /\ sessions (fst p) = sessions st /\ userSessions (fst p) = userSessions st
  /\ engines (fst p) = engines st ++ [mkEngineEnv sid l t0 false]
  /\ ClientDestroy (length (engines st)) ∈ trace (fst p).
Proof.
  intros Hr. run_initialiser Hr. repeat split; try done.
  - rewrite (alter_alter_insert _ _ _ _ _ Hr). by destruct r0.
  - cbn [trace]. set_solver.
Qed.

(** The fallback initialiser, whose failure is not cleaned up. *)
Lemma initialize_fallback_run sid l now o st r0 :
  heap st !! l = Some r0 ->
  let p := initialize_run [Resolved; o] now (FallbackAwaitMkdir sid l) st in
  snd p = match o with
          | Resolved => InitResolved (length (engines st))
          | Rejected e => InitRejected e
          end
  /\ heap (fst p) = <[l := set_client (Some (length (engines st))) r0]> (heap st)
  /\ sessions (fst p) = sessions st /\ userSessions (fst p) = userSessions st
  /\ engines (fst p) = engines st ++ [mkEngineEnv sid l now true]
  /\ forall e, e ∈ trace st -> e ∈ trace (fst p).
Proof.
  intros Hr.
  destruct o; run_initialiser Hr; (repeat split; try done; [by apply alter_insert|]);
    cbn [trace]; set_solver.
Qed.

Lemma startSession_start_startable sid l r st :
  truthy sid = true -> get_session st sid = Some (l, r) -> client r = None ->
  userSessions st !! userId r = Some sid ->
  startSession_start (Some sid) st
  = (console (LogStartSession sid "Initializing WhatsApp client")
       (console (LogStartSession sid "Starting session") st),
     StartAwaitDelay sid).
Proof.
  intros Ht Hg Hc Hu. unfold startSession_start. rewrite Ht. cbn [negb].
  rewrite get_session_console, Hg.
  change (userSessions (console ?x ?s)) with (userSessions s).
  by rewrite Hu, bool_decide_true, Hc.
Qed.

(** X22. The start route on a startable session, by the answers of the two
    [client.initialize()] calls: the primary engine comes up, and it is the
    session's engine; or it fails, is shut down, and the fallback engine
    comes up in its place; or both fail, the route answers 500, and the
    fallback engine is left attached to the session, so that a retry is
    answered [Session already started] without anything being started.  The
    registry is the same in all three cases. *)
Theorem startSession_outcomes
    (sid : SessionId) (l : Loc) (r : Session) (now : Z) (ro oc ip ifb : Outcome)
    (st : Manager) :
  truthy sid = true -> get_session st sid = Some (l, r) -> client r = None ->
  userSessions st !! userId r = Some sid ->
  let n := length (engines st) in
  let res := startSession (Some sid) now [Resolved; ro; ip; oc] [Resolved; ifb] st in
  let st' := fst res in
  sessions st' = sessions st /\ userSessions st' = userSessions st
  /\ match ip, ifb with
     | Resolved, _ =>
         snd res = StartResponded (Json 200 "Session initialization started")
         /\ field client l st' = Some (Some n) /\ length (engines st') = n + 1
     | Rejected _, Resolved =>
         snd res = StartResponded
                     (Json 200 "Session initialization started (fallback method)")
         /\ field client l st' = Some (Some (n + 1)) /\ length (engines st') = n + 2
         /\ ClientDestroy n ∈ trace st'
     | Rejected _, Rejected e2 =>
         snd res = StartResponded (JsonError 500 "Failed to start session" (Some e2))
         /\ field client l st' = Some (Some (n + 1)) /\ length (engines st') = n + 2
         /\ ClientDestroy n ∈ trace st'
         /\ snd (startSession_start (Some sid) st')
            = StartResponded (Json 200 "Session already started")
     end.
Proof.
  intros Ht Hg Hc Hu. cbn zeta. unfold startSession.
  rewrite (startSession_start_startable sid l r st Ht Hg Hc Hu).
  cbn [startSession_resume]. unfold initializeClient_start.
  rewrite !get_session_console, Hg.
  apply get_session_Some in Hg as Hg'. destruct Hg' as [Hl Hr].
  assert (Hlt : l < length (heap st)) by (by eapply lookup_lt_Some).
  set (st0 := effects _ _).
  assert (Hr0 : heap st0 !! l = Some r) by exact Hr.
  destruct ip as [|e1].
  - destruct (initialize_primary_resolved sid l now now ro oc st0 r Hr0)
      as (Ht1 & Hh1 & Hs1 & Hu1 & He1).
    destruct (initialize_run _ now (InitAwaitMkdir sid l now) st0) as [st3 it3].
    cbn [fst snd] in *. subst it3. cbn [init_outcome startSession_resume fst snd].
    cbn [sessions userSessions engines console effect effects with_trace].
    rewrite Hs1, Hu1, He1, length_app. unfold field. cbn [heap console effect effects
      with_trace]. rewrite Hh1, list_lookup_insert_eq by done. by repeat split.
  - destruct (initialize_primary_rejected sid l now now ro e1 oc st0 r Hr0)
      as (Ht1 & Hh1 & Hs1 & Hu1 & He1 & Hd1).
    destruct (initialize_run _ now (InitAwaitMkdir sid l now) st0) as [st3 it3].
    cbn [fst snd] in *. subst it3. cbn [init_outcome startSession_resume].
    unfold initializeClientFallback_start. rewrite get_session_console.
    assert (Hr3 : heap st3 !! l = Some (set_qrCode None (set_client None r)))
      by (by rewrite Hh1, list_lookup_insert_eq).
    assert (Hg3 : get_session st3 sid = Some (l, set_qrCode None (set_client None r))).
    { apply get_session_Some. by rewrite Hs1. }
    rewrite Hg3. set (st4 := effects _ _).
    assert (Hr4 : heap st4 !! l = Some (set_qrCode None (set_client None r))) by exact Hr3.
    destruct (initialize_fallback_run sid l now ifb st4 _ Hr4)
      as (Ht5 & Hh5 & Hs5 & Hu5 & He5 & Hin5).
    destruct (initialize_run _ now (FallbackAwaitMkdir sid l) st4) as [st5 it5].
    cbn [fst snd] in *.
    assert (Hs5' : sessions st5 = sessions st) by (by rewrite Hs5).
    assert (Hu5' : userSessions st5 = userSessions st) by (by rewrite Hu5).
    assert (He5' : length (engines st5) = length (engines st) + 2).
    { rewrite He5. change (engines st4) with (engines st3).
      rewrite He1, !length_app. cbn. lia. }
    assert (Hc5 : heap st5 !! l
                  = Some (set_client (Some (length (engines st) + 1))
                            (set_qrCode None (set_client None r)))).
    { rewrite Hh5. change (engines st4) with (engines st3).
      rewrite He1, length_app, list_lookup_insert_eq; [done|].
      change (heap st4) with (heap st3). by rewrite Hh1, length_insert. }
    assert (Hd5 : ClientDestroy (length (engines st)) ∈ trace st5).
    { apply Hin5. subst st4. cbn [trace console effect effects with_trace]. set_solver. }
    subst it5. destruct ifb as [|e2]; cbn [init_outcome startSession_resume fst snd].
    + cbn [sessions userSessions engines console effect effects with_trace].
      unfold field. change (heap (console ?x ?s)) with (heap s). rewrite Hc5.
      repeat split; try done. set_solver.
    + cbn [sessions userSessions engines console effect effects with_trace].
      unfold field. change (heap (console ?x ?s)) with (heap s). rewrite Hc5.
      repeat split; try done; [set_solver|].
      set (st6 := console _ st5).
      assert (Hg6 : get_session st6 sid
                    = Some (l, set_client (Some (length (engines st) + 1))
                                 (set_qrCode None (set_client None r)))).
      { apply get_session_Some. split; [|exact Hc5].
        change (sessions st6) with (sessions st5). by rewrite Hs5'. }
      rewrite (startSession_start_attached st6 sid l _ _ Hg6 eq_refl)
        by (intros ->; done).
      unfold already_started_response. change (userSessions st6) with (userSessions st5).
      rewrite Hu5'. cbn [userId set_client set_qrCode]. rewrite Hu.
      by rewrite bool_decide_true.
Qed.

Lemma startSession_outcomes_witness :
  snd (startSession (Some "session-0") 2000
         [Resolved; Resolved; Rejected "timeout"; Resolved] [Resolved; Rejected "timeout"]
         st_created)
  = StartResponded (JsonError 500 "Failed to start session" (Some "timeout"))
  /\ snd (startSession_start (Some "session-0")
            (fst (startSession (Some "session-0") 2000
                    [Resolved; Resolved; Rejected "timeout"; Resolved]
                    [Resolved; Rejected "timeout"] st_created)))
     = StartResponded (Json 200 "Session already started").
Proof.
  destruct (startSession_outcomes "session-0" 0 _ 2000 Resolved Resolved
              (Rejected "timeout") (Rejected "timeout") st_created
              eq_refl eq_refl eq_refl eq_refl) as (_ & _ & H500 & _ & _ & _ & Hretry).
  split; [exact H500|exact Hretry].
Defined.

(** ** The sweeps, further *)

Lemma inactive_spec now r :
  inactive now r = true <-> (24 * 60 * 60 * 1000 < now - lastActivity r)%Z.
Proof. unfold inactive, SESSION_TIMEOUT. by rewrite Z.ltb_lt. Qed.

(** X23. The inactivity sweep starts the destruction of a registered
    session exactly when its last activity is more than 24 hours old,
    whether it is ready, authenticated or neither; a session it passes over
    stays registered with its record unchanged. *)
Theorem cleanupInactiveSessions_only_inactive
    (now : Z) (st : Manager) (sid : SessionId) (l : Loc) (r : Session) :
  get_session st sid = Some (l, r) ->
  let st' := fst (cleanupInactiveSessions now st) in
  let started := (snd (cleanupInactiveSessions now st)).*1 in
  (sid ∈ started <-> (24 * 60 * 60 * 1000 < now - lastActivity r)%Z)
  /\ ((now - lastActivity r <= 24 * 60 * 60 * 1000)%Z ->
      get_session st' sid = Some (l, r)).
Proof.
  intros Hg. cbn zeta. unfold cleanupInactiveSessions.
  destruct (sweep_of_registry (inactive now) (fun sid _ => LogCleaningInactive sid)
              st sid l r Hg) as (Hin & Hkeep & Hh & _).
  split; [by rewrite Hin, inactive_spec|].
  intros Hle. apply get_session_Some. rewrite Hh. split.
  - apply Hkeep. apply not_true_is_false. rewrite inactive_spec. lia.
  - by apply get_session_Some in Hg as [_ ?].
Qed.

Lemma cleanupInactiveSessions_only_inactive_witness :
  "session-0" ∈ (snd (cleanupInactiveSessions 90000000 st_ready)).*1
  /\ get_session (fst (cleanupInactiveSessions 80000000 st_ready)) "session-0"
     = get_session st_ready "session-0".
Proof.
  split.
  - apply (cleanupInactiveSessions_only_inactive 90000000 st_ready "session-0" 0 _ eq_refl).
    vm_compute. reflexivity.
  - apply (cleanupInactiveSessions_only_inactive 80000000 st_ready "session-0" 0 _ eq_refl).
    vm_compute. discriminate.
Defined.

Lemma cleanupUnfinishedSessions_started now st :
  snd (cleanupUnfinishedSessions now st)
  = snd (sweep_loop (unfinished now)
           (fun sid r => LogCleaningUnfinished sid (now - lastActivity r)%Z)
           (map_to_list (sessions st)) st).
Proof. unfold cleanupUnfinishedSessions. by destruct (sweep_loop _ _ _ st). Qed.

Lemma touch_activity_get_session sid now st l r :
  get_session st sid = Some (l, r) ->
  get_session (touch_activity sid now st) sid = Some (l, set_lastActivity now r).
Proof.
  intros Hg. unfold touch_activity. rewrite Hg.
  apply get_session_Some in Hg as [Hl Hr]. apply get_session_Some.
  split; [done|]. by apply lookup_update_eq.
Qed.

(** X24. Activity keeps a session: once a request or a joining socket has
    stamped a registered session at time [now], the unfinished-session
    sweep does not pick it within the next 15 minutes and the inactivity
    sweep does not pick it within the next 24 hours, whatever state the
    session is in. *)
Theorem touch_activity_defers_sweeps
    (sid : SessionId) (now now' : Z) (st : Manager) :
  is_Some (get_session st sid) ->
  let st1 := touch_activity sid now st in
  ((now' - now <= 15 * 60 * 1000)%Z ->
   sid ∉ (snd (cleanupUnfinishedSessions now' st1)).*1)
  /\ ((now' - now <= 24 * 60 * 60 * 1000)%Z ->
      sid ∉ (snd (cleanupInactiveSessions now' st1)).*1).
Proof.
  intros [[l r] Hg]. cbn zeta.
  pose proof (touch_activity_get_session sid now st l r Hg) as Hg1.
  split; intros Hle.
  - rewrite cleanupUnfinishedSessions_started.
    destruct (sweep_of_registry (unfinished now')
                (fun sid r => LogCleaningUnfinished sid (now' - lastActivity r)%Z)
                _ sid l _ Hg1) as (Hin & _).
    rewrite Hin, unfinished_spec. cbn [lastActivity set_lastActivity]. lia.
  - unfold cleanupInactiveSessions.
    destruct (sweep_of_registry (inactive now') (fun sid _ => LogCleaningInactive sid)
                _ sid l _ Hg1) as (Hin & _).
    rewrite Hin, inactive_spec. cbn [lastActivity set_lastActivity]. lia.
Qed.

Lemma touch_activity_defers_sweeps_witness :
  "session-0" ∉ (snd (cleanupUnfinishedSessions 1900000
                        (touch_activity "session-0" 1000000 st_created))).*1.
Proof.
  apply (touch_activity_defers_sweeps "session-0" 1000000 1900000 st_created).
  - by eexists.
  - vm_compute. discriminate.
Defined.

(** ** Graceful shutdown *)

Lemma unregisters_quiet st st' p : quiet st st' -> unregisters st p -> unregisters st' p.
Proof.
  intros Hq [Hn|(l & Ht & Hl)].
  - left. destruct (sessions st' !! fst p) eqn:E; [|done].
    eapply lookup_weaken in E; [|apply Hq]. congruence.
  - right. exists l. split; [done|]. pose proof (quiet_heap _ _ Hq). lia.
Qed.

Lemma destroySession_start_unregisters sid st :
  (forall l, sessions st !! sid = Some l -> l < length (heap st)) ->
  unregisters (fst (destroySession_start sid st)) (sid, snd (destroySession_start sid st)).
Proof.
  intros Hres. unfold destroySession_start, get_session.
  destruct (sessions st !! sid) as [l|] eqn:Hl; [|by left].
  destruct (lookup_lt_is_Some_2 _ _ (Hres l eq_refl)) as [r Hr]. rewrite Hr.
  destruct (client r) as [c|].
  - right. exists l. split; [done|]. cbn. by apply Hres.
  - left. unfold destroy_remove. rewrite Hr. cbn. apply lookup_delete_eq.
Qed.

Lemma quiet_destroySession_finish t teardown rm st :
  quiet st (destroySession_finish t teardown rm st).
Proof.
  unfold destroySession_finish.
  destruct t as [sid l|sid l|].
  - pose proof (quiet_destroySession_resume (DestroyAwaitTeardown sid l) teardown st) as H1.
    destruct (destroySession_resume (DestroyAwaitTeardown sid l) teardown st) as [st1 t1].
    eapply quiet_trans; [exact H1|apply quiet_destroySession_resume].
  - apply quiet_destroySession_resume.
  - apply quiet_destroySession_resume.
Qed.

Lemma destroySession_finish_unregisters sid t rm st :
  unregisters st (sid, t) ->
  sessions (destroySession_finish t Resolved rm st) !! sid = None.
Proof.
  intros [Hn|(l & Ht & Hl)]; cbn [fst snd] in *.
  - pose proof (quiet_destroySession_finish t Resolved rm st) as Hq.
    destruct (sessions (destroySession_finish t Resolved rm st) !! sid) eqn:E; [|done].
    eapply lookup_weaken in E; [|apply Hq]. congruence.
  - subst t. unfold destroySession_finish. cbn [destroySession_resume].
    unfold destroy_remove. destruct (lookup_lt_is_Some_2 _ _ Hl) as [r ->].
    cbn [destroySession_resume fst].
    destruct rm; unfold emit_if_io; cbn; destruct (io st); cbn; apply lookup_delete_eq.
Qed.

Lemma shutdown_start_spec ids st :
  (forall sid l, sessions st !! sid = Some l -> l < length (heap st)) ->
  let p := shutdown_start ids st in
  quiet st (fst p) /\ (snd p).*1 = ids /\ Forall (unregisters (fst p)) (snd p).
Proof.
  revert st. induction ids as [|sid ids IH]; intros st Hres.
  { cbn. split; [apply quiet_refl|by split]. }
  cbn [shutdown_start].
  pose proof (quiet_destroySession_start sid st) as Hq1.
  pose proof (destroySession_start_unregisters sid st (Hres sid)) as Hu1.
  destruct (destroySession_start sid st) as [st1 t]. cbn [fst snd] in *.
  destruct (IH st1) as (Hq2 & Hids & Hall).
  { intros s l Hl. eapply lookup_weaken in Hl; [|apply Hq1].
    pose proof (Hres _ _ Hl). pose proof (quiet_heap _ _ Hq1). lia. }
  destruct (shutdown_start ids st1) as [st2 ts]. cbn [fst snd] in *.
  split; [by eapply quiet_trans|]. split; [by rewrite fmap_cons, Hids|].
  constructor; [by eapply unregisters_quiet|done].
Qed.

Lemma settle_destroys_resolved ts os st :
  Forall (unregisters st) ts -> length ts <= length os ->
  Forall (fun o => fst o = Resolved) os ->
  quiet st (settle_destroys ts os st)
  /\ forall sid, sid ∈ ts.*1 -> sessions (settle_destroys ts os st) !! sid = None.
Proof.
  revert os st. induction ts as [|[sid t] ts IH]; intros os st Hall Hlen Hos.
  { split; [destruct os; apply quiet_refl|]. intros sid H. by apply elem_of_nil in H. }
  destruct os as [|[teardown rm] os]; [cbn in Hlen; lia|].
  apply Forall_cons in Hall as [Hhd Hall]. apply Forall_cons in Hos as [Ho Hos].
  cbn in Ho. subst teardown. cbn [settle_destroys].
  pose proof (quiet_destroySession_finish t Resolved rm st) as Hq.
  destruct (IH os (destroySession_finish t Resolved rm st)) as [Hq' Hgone].
  { eapply Forall_impl; [exact Hall|]. intros p. by apply unregisters_quiet. }
  { cbn in Hlen. lia. }
  { done. }
  split; [by eapply quiet_trans|].
  intros sid' Hin. rewrite fmap_cons in Hin. apply elem_of_cons in Hin as [->|Hin].
  - pose proof (destroySession_finish_unregisters sid t rm st Hhd) as Hn.
    destruct (sessions (settle_destroys ts os (destroySession_finish t Resolved rm st))
                !! sid) eqn:E; [|done].
    eapply lookup_weaken in E; [|apply Hq']. cbn [fst] in *. congruence.
  - by apply Hgone.
Qed.

(** X25. A graceful shutdown in which every engine shuts down cleanly
    leaves no session registered, whether or not the data folders could be
    removed. *)
Theorem shutdown_unregisters_all (os : list (Outcome * Outcome)) (st : Manager) :
  reachable st ->
  size (sessions st) <= length os ->
  Forall (fun o => fst o = Resolved) os ->
  sessions (shutdown os st) = ∅.
Proof.
  intros Hreach Hlen Hos. unfold shutdown.
  pose proof (reachable_registry_ok _ Hreach) as Hok.
  destruct (shutdown_start_spec (map_to_list (sessions st)).*1 st) as (Hq & Hids & Hall).
  { intros sid l Hl. by destruct (ok_sessions _ Hok _ _ Hl). }
  destruct (shutdown_start _ st) as [st1 ts]. cbn [fst snd] in *.
  destruct (settle_destroys_resolved ts os st1 Hall) as [Hq' Hgone]; [|done|].
  { rewrite <- (length_fmap fst), Hids, length_fmap, length_map_to_list. done. }
  apply map_empty. intros sid.
  destruct (sessions (settle_destroys ts os st1) !! sid) as [l|] eqn:E; [|done].
  assert (Hreg : sessions st !! sid = Some l).
  { eapply lookup_weaken; [|apply Hq]. eapply lookup_weaken; [exact E|apply Hq']. }
  rewrite Hgone in E; [done|]. rewrite Hids.
  apply list_elem_of_fmap. exists (sid, l). split; [done|].
  by apply elem_of_map_to_list.
Qed.

Lemma shutdown_unregisters_all_witness :
  sessions (shutdown [(Resolved, Rejected "EBUSY"); (Resolved, Resolved)] st_superseded) = ∅.
Proof.
  apply shutdown_unregisters_all.
  - apply (reachable_exec _ (CallGetOrCreateSession _ _ _)), st_ready_reachable.
  - vm_compute. lia.
  - repeat constructor.
Defined.
